(** * A shallow embedding of the LinkedIn job-search assistant

    The development follows the Python sources module by module:
    - [Py]: the fragment of the Python runtime the services rely on
      (JSON-like values, exceptions, binary64 comparisons, string helpers);
    - [AnalysisConstants], [JobStates]: constants/analysis.py and the
      state vocabulary of database/models.py;
    - [DatabaseService]: services/database_service.py over an explicit
      relational store;
    - [LLMJsonParser], [TitleAnalysisStrategy]: services/llm_json_parser.py
      and services/analysis_strategy.py;
    - [JobAnalysisService]: services/job_analysis_service.py;
    - [Config], [PreferenceService]: config.py and
      services/preference_service.py;
    - [Security]: utils/security.py;
    - [TitleStrategyEvaluator]: experiments/title_strategy_evaluator.py;
    - [JobAnalysisServiceFactory]: the wiring of utils/factories.py that
      hands the database service to the job-analysis service.

    Part I holds these models, the vocabulary the statements use and the
    example data; Part II holds the lemmas and the properties.

    Modelling conventions.
    - Python [float] is IEEE binary64, i.e. Rocq's primitive [float]; the
      literals below denote the same doubles as in the sources.
    - Python [str] is modelled by [string] (a sequence of 8-bit characters);
      character classes are those of the ASCII range.
    - A [dict] with string keys is a [gmap string pyval]; a list is a [list].
    - A call that may raise returns an [outcome]; a call that touches the
      outside world (database, clock, LLM, random source) threads that world
      explicitly.
    - Logging has no effect on results and is left out, except where
      building the message evaluates an expression that can raise. *)

From Stdlib Require Import ZArith List String Ascii Floats Lia.
From Stdlib Require Import Permutation Sorted.
From stdpp Require Import base option gmap strings list sorting pretty.

Set Warnings "-inexact-float,-register-all".
Set Default Proof Using "Type".

Local Open Scope string_scope.
Local Open Scope list_scope.

(* ===================================================================== *)
(** * Part I: definitions *)
(* ===================================================================== *)

(** ** The Python runtime fragment *)
Module Py.

(** Values that travel through [Dict[str, Any]]: what [json.loads] can
    produce, which is also what the services put in their result dicts. *)
Inductive pyval : Type :=
| PNone
| PBool (b : bool)
| PInt (n : Z)
| PFloat (f : float)
| PStr (s : string)
| PList (l : list pyval)
| PDict (d : gmap string pyval).

(** [dict(...)] literals. *)
Definition mkdict (kvs : list (string * pyval)) : gmap string pyval :=
  list_to_map kvs.

(** [d.get(key, default)]. *)
Definition dict_get (d : gmap string pyval) (key : string) (default : pyval) : pyval :=
  match d !! key with
  | Some v => v
  | None => default
  end.

(** Exceptions are told apart the way the [except] clauses of the sources
    do: by class.  [JSONDecodeError] is a subclass of [ValueError]. *)
Inductive exn_class : Type :=
| ValueError
| JSONDecodeError
| KeyError
| TypeError
| AttributeError
| IntegrityError
| OtherError.

Record exn : Type := Exn { exn_cls : exn_class; exn_msg : string }.

(** [isinstance(e, ValueError)]. *)
Definition is_ValueError (e : exn) : bool :=
  match exn_cls e with
  | ValueError | JSONDecodeError => true
  | _ => false
  end.

(** [str(e)]. *)
Definition str_exn (e : exn) : string := exn_msg e.

Inductive outcome (A : Type) : Type :=
| Return (a : A)
| Raise (e : exn).
Arguments Return {A} a.
Arguments Raise {A} e.

(** [d[key]]: a missing key raises [KeyError], whose text is the quoted
    key. *)
Definition dict_item (d : gmap string pyval) (key : string) : outcome pyval :=
  match d !! key with
  | Some v => Return v
  | None => Raise (Exn KeyError ("'" +:+ key +:+ "'"))
  end.

(** Truth value of an [Optional[int]]: [None] and [0] are falsy. *)
Definition truthy_opt_int (u : option Z) : bool :=
  match u with
  | Some n => negb (n =? 0)%Z
  | None => false
  end.

(** *** Comparisons [x >= v] and [x < v] of a float with a dict value

    Python compares a float with a float by IEEE rules, with an int (or a
    bool, which is an int) by exact value, and raises [TypeError] against
    anything else. *)

(** Exact comparison of the double [x] with the integer [n]: [Some c] is
    the ordering of [x] relative to [n]; [None] when [x] is a NaN. *)
Definition float_compare_Z (x : float) (n : Z) : option comparison :=
  match Prim2SF x with
  | S754_nan => None
  | S754_infinity s => Some (if s then Lt else Gt)
  | S754_zero _ => Some (0 ?= n)%Z
  | S754_finite s m e =>
      let v := if s then Z.neg m else Z.pos m in
      Some (if (0 <=? e)%Z
            then (v * 2 ^ e ?= n)%Z
            else (v ?= n * 2 ^ (- e))%Z)
  end.

Definition Z_of_bool (b : bool) : Z := if b then 1%Z else 0%Z.

Definition float_ge (x : float) (v : pyval) : outcome bool :=
  match v with
  | PFloat y => Return (PrimFloat.leb y x)
  | PInt n =>
      Return (match float_compare_Z x n with
              | Some Gt | Some Eq => true
              | _ => false
              end)
  | PBool b =>
      Return (match float_compare_Z x (Z_of_bool b) with
              | Some Gt | Some Eq => true
              | _ => false
              end)
  | _ => Raise (Exn TypeError "'>=' not supported between instances")
  end.



(** *** String helpers *)

Definition char_in_range (lo hi : nat) (c : ascii) : bool :=
  (lo <=? nat_of_ascii c)%nat && (nat_of_ascii c <=? hi)%nat.

(** [c.islower()], [c.isupper()], [c.isdigit()] on a one-character string. *)
Definition islower (c : ascii) : bool := char_in_range 97 122 c.
Definition isupper (c : ascii) : bool := char_in_range 65 90 c.
Definition isdigit (c : ascii) : bool := char_in_range 48 57 c.

(** [c.isspace()] for the characters [str.strip()] removes. *)
Definition isspace (c : ascii) : bool :=
  char_in_range 9 13 c || char_in_range 28 32 c.

Definition chars (s : string) : list ascii := list_ascii_of_string s.
Definition of_chars (l : list ascii) : string := string_of_list_ascii l.

Fixpoint lstrip_chars (l : list ascii) : list ascii :=
  match l with
  | c :: l' => if isspace c then lstrip_chars l' else l
  | [] => []
  end.

(** [s.strip()]. *)
Definition strip (s : string) : string :=
  of_chars (rev (lstrip_chars (rev (lstrip_chars (chars s))))).

(** [s.partition(pat)] restricted to the case [pat in s]: the text before
    the first occurrence of [pat] and the text after it. *)
Fixpoint split_at_first (pat s : string) : option (string * string) :=
  if String.prefix pat s
  then Some ("", String.substring (String.length pat) (String.length s) s)
  else match s with
       | EmptyString => None
       | String c s' =>
           match split_at_first pat s' with
           | Some (before, after) => Some (String c before, after)
           | None => None
           end
       end.

(** The text up to and including the last occurrence of character [c]. *)
Fixpoint upto_last (c : ascii) (s : string) : option string :=
  match s with
  | EmptyString => None
  | String a s' =>
      match upto_last c s' with
      | Some r => Some (String a r)
      | None => if Ascii.eqb a c then Some (String a "") else None
      end
  end.

(** The collaborators of the standard library whose text formats are not
    reproduced here: [json.loads] ([inl msg] is a [JSONDecodeError] with
    that message), [json.dumps], and [float(s)] on a string ([None] is a
    [ValueError]). *)
Class Runtime : Type := {
  json_loads : string -> string + pyval;
  json_dumps : pyval -> string;
  float_of_str : string -> option float
}.

End Py.
Export Py.

(** ** constants/analysis.py *)
Module AnalysisConstants.

Definition DEFAULT_RELEVANCE_THRESHOLD : float := 0.7%float.
Definition DEFAULT_TITLE_MATCH_STRICTNESS : float := 0.8%float.
Definition MAX_DESCRIPTION_LENGTH : Z := 10000.

End AnalysisConstants.

(** ** database/models.py: the job-state vocabulary *)
Module JobStates.

Definition STATE_NEW_SCRAPED := "new_scraped".
Definition STATE_QUEUED_FOR_ANALYSIS := "queued_for_analysis".
Definition STATE_ANALYZING := "analyzing".
Definition STATE_ANALYZED := "analyzed".
Definition STATE_RELEVANT := "relevant".
Definition STATE_IRRELEVANT := "irrelevant".
Definition STATE_VIEWED := "viewed".
Definition STATE_SAVED := "saved".
Definition STATE_APPLIED := "applied".
Definition STATE_REJECTED := "rejected".

Definition VALID_STATES : list string :=
  [ STATE_NEW_SCRAPED; STATE_QUEUED_FOR_ANALYSIS; STATE_ANALYZING;
    STATE_ANALYZED; STATE_RELEVANT; STATE_IRRELEVANT; STATE_VIEWED;
    STATE_SAVED; STATE_APPLIED; STATE_REJECTED ].

End JobStates.

(** ** services/database_service.py

    The store holds the three tables the service methods below touch, each
    as the list of its rows in rowid (insertion) order, and the
    AUTOINCREMENT counters.  Timestamps are integers (microseconds); the
    value [datetime.datetime.now()] yields inside a method is passed in as
    [now].  SQL statements are read by their relational meaning, with the
    constraints of database/models.py that an insert of these methods can
    violate; failures of the engine itself (I/O, locking) are outside the
    model.  The [users] table is not part of the store: every user id
    handed to a method is taken to be the id of an existing user. *)
Module DatabaseService.

Record job_listing : Type := JobListing {
  internal_id : Z;
  job_id : string;
  title : string;
  company : string;
  location : string;
  description : string;
  url : string;
  scraped_at : Z;
  source_term : string
}.

Record job_state : Type := JobState {
  state_id : Z;
  s_job_id : string;
  s_user_id : Z;
  state : string;
  state_timestamp : Z;
  notes : option string
}.

Record job_analysis : Type := JobAnalysis {
  analysis_id : Z;
  a_job_id : string;
  a_user_id : Z;
  relevance_score : float;
  analysis_details : string;
  analyzed_at : Z
}.

Record db : Type := Db {
  job_listings : list job_listing;
  job_states : list job_state;
  job_analyses : list job_analysis;
  seq_job_states : Z;
  seq_job_analysis : Z
}.

(** [ORDER BY key DESC]: SQL fixes the result up to the order of rows with
    equal keys, so the engine is any function with these two properties. *)
Class SqlOrder : Type := {
  order_by_desc : forall {A : Type}, (A -> Z) -> list A -> list A;
  order_by_desc_perm :
    forall (A : Type) (key : A -> Z) (l : list A),
      Permutation (order_by_desc key l) l;
  order_by_desc_sorted :
    forall (A : Type) (key : A -> Z) (l : list A),
      StronglySorted (fun a b => (key b <= key a)%Z) (order_by_desc key l)
}.

(** [ORDER BY key ASC]. *)
Definition order_by_asc `{SqlOrder} {A : Type} (key : A -> Z) (l : list A) : list A :=
  rev (order_by_desc key l).

(** [LIMIT limit OFFSET offset]: a negative limit means no limit, a
    negative offset means none. *)
Definition limit_offset {A : Type} (limit offset : Z) (l : list A) : list A :=
  let l' := drop (Z.to_nat offset) l in
  if (limit <? 0)%Z then l' else take (Z.to_nat limit) l'.

(** [cursor.fetchone()]. *)
Definition fetchone {A : Type} (l : list A) : option A := head l.

Definition for_job (j : string) (s : job_state) : bool :=
  String.eqb (s_job_id s) j.

Definition for_job_user (j : string) (u : Z) (s : job_state) : bool :=
  String.eqb (s_job_id s) j && (s_user_id s =? u)%Z.

Definition analysis_for_job (j : string) (a : job_analysis) : bool :=
  String.eqb (a_job_id a) j.

Definition analysis_for_job_user (j : string) (u : Z) (a : job_analysis) : bool :=
  String.eqb (a_job_id a) j && (a_user_id a =? u)%Z.

(** [SELECT * FROM job_listings WHERE job_id = ?], first row. *)
Definition get_job_by_id (j : string) (d : db) : option job_listing :=
  fetchone (List.filter (fun l => String.eqb (job_id l) j) (job_listings d)).

(** [SELECT MAX(state_timestamp) FROM job_states WHERE job_id = ? AND
    user_id = ?]; [None] is SQL's NULL over no rows. *)
Definition max_state_timestamp (j : string) (u : Z) (d : db) : option Z :=
  match map state_timestamp (List.filter (for_job_user j u) (job_states d)) with
  | [] => None
  | t :: ts => Some (fold_left Z.max ts t)
  end.

(** The rows of [get_jobs_by_state]: the columns of the listing followed by
    [state], [state_timestamp] and [notes] of the joined state row. *)
Record job_with_state : Type := JobWithState {
  jws_listing : job_listing;
  jws_state : string;
  jws_state_timestamp : Z;
  jws_notes : option string
}.

(** [FROM job_listings j JOIN job_states s ON j.job_id = s.job_id WHERE
    s.user_id = ? AND s.state = ? AND s.state_timestamp = (SELECT MAX ...)]. *)
Definition jobs_by_state_rows (user_id : Z) (st : string) (d : db) : list job_with_state :=
  flat_map
    (fun j =>
       map (fun s => JobWithState j (state s) (state_timestamp s) (notes s))
         (List.filter
            (fun s =>
               String.eqb (job_id j) (s_job_id s)
               && (s_user_id s =? user_id)%Z
               && String.eqb (state s) st
               && match max_state_timestamp (s_job_id s) (s_user_id s) d with
                  | Some m => (state_timestamp s =? m)%Z
                  | None => false
                  end)
            (job_states d)))
    (job_listings d).

Definition get_jobs_by_state `{SqlOrder} (user_id : Z) (st : string)
    (limit offset : Z) (d : db) : list job_with_state :=
  limit_offset limit offset
    (order_by_desc jws_state_timestamp (jobs_by_state_rows user_id st d)).

(** The defaults of the signature: [limit = 50], [offset = 0]. *)
Definition get_jobs_by_state_default `{SqlOrder} (user_id : Z) (st : string) (d : db)
    : list job_with_state :=
  get_jobs_by_state user_id st 50 0 d.

(** [FOREIGN KEY (job_id) REFERENCES job_listings(job_id)] of the tables
    [job_states] and [job_analysis]: database/db_manager.py opens every
    connection with [PRAGMA foreign_keys = ON], so an insert that names a
    job without a listing fails with [sqlite3.IntegrityError], and the
    transaction is rolled back. *)
Definition listed (j : string) (d : db) : bool :=
  existsb (fun l => String.eqb (job_id l) j) (job_listings d).

Definition foreign_key_failed : exn :=
  Exn IntegrityError "FOREIGN KEY constraint failed".

(** [relevance_score REAL NOT NULL]: the engine stores a NaN as NULL, and
    [INSERT OR REPLACE] aborts on a NULL in a column without a default. *)
Definition not_null_failed : exn :=
  Exn IntegrityError "NOT NULL constraint failed: job_analysis.relevance_score".

Definition add_job_state (j : string) (user_id : Z) (st : string)
    (nts : option string) (now : Z) (d : db) : outcome Z * db :=
  if negb (existsb (String.eqb st) JobStates.VALID_STATES)
  then (Raise (Exn ValueError ("Invalid state: " ++ st)), d)
  else if negb (listed j d)
  then (Raise foreign_key_failed, d)
  else
    let rowid := (seq_job_states d + 1)%Z in
    (Return rowid,
     Db (job_listings d)
        (job_states d ++ [JobState rowid j user_id st now nts])
        (job_analyses d)
        rowid
        (seq_job_analysis d)).

Definition get_job_state_history `{SqlOrder} (j : string) (user_id : Z) (d : db)
    : list job_state :=
  order_by_asc state_timestamp (List.filter (for_job_user j user_id) (job_states d)).

Definition get_current_job_state `{SqlOrder} (j : string) (user_id : Z) (d : db)
    : option job_state :=
  fetchone
    (limit_offset 1 0
       (order_by_desc state_timestamp (List.filter (for_job_user j user_id) (job_states d)))).

(** [INSERT OR REPLACE]: the row that conflicts on UNIQUE (job_id, user_id)
    is removed and the new row added; a NaN score or a job without a
    listing makes the statement fail and leaves the store as it was. *)
Definition add_job_analysis `{Runtime} (j : string) (user_id : Z) (score : float)
    (details : pyval) (now : Z) (d : db) : outcome Z * db :=
  let analysis_json := json_dumps details in
  if PrimFloat.is_nan score
  then (Raise not_null_failed, d)
  else if negb (listed j d)
  then (Raise foreign_key_failed, d)
  else
    let rowid := (seq_job_analysis d + 1)%Z in
    (Return rowid,
     Db (job_listings d)
        (job_states d)
        (List.filter (fun a => negb (analysis_for_job_user j user_id a)) (job_analyses d)
           ++ [JobAnalysis rowid j user_id score analysis_json now])
        (seq_job_states d)
        rowid).

Definition get_job_analysis (j : string) (user_id : Z) (d : db) : option job_analysis :=
  fetchone (List.filter (analysis_for_job_user j user_id) (job_analyses d)).

(** The reference check of [delete_job]: [SELECT COUNT( * ) FROM (SELECT
    user_id FROM job_states WHERE job_id = ? UNION SELECT user_id FROM
    job_analysis WHERE job_id = ?)]. *)
Definition ref_count (j : string) (d : db) : Z :=
  Z.of_nat
    (length
       (remove_dups
          (map s_user_id (List.filter (for_job j) (job_states d))
             ++ map a_user_id (List.filter (analysis_for_job j) (job_analyses d))))).

Definition delete_listing (j : string) (ls : list job_listing) : list job_listing :=
  List.filter (fun l => negb (String.eqb (job_id l) j)) ls.

(** [delete_job]: the statements run in one transaction that commits, and
    the method returns the flag computed inside it. *)
Definition delete_job (j : string) (user_id : option Z) (d : db) : bool * db :=
  match user_id with
  | Some u =>
      let d1 :=
        Db (job_listings d)
           (List.filter (fun s => negb (for_job_user j u s)) (job_states d))
           (job_analyses d)
           (seq_job_states d) (seq_job_analysis d) in
      let d2 :=
        Db (job_listings d1)
           (job_states d1)
           (List.filter (fun a => negb (analysis_for_job_user j u a)) (job_analyses d1))
           (seq_job_states d1) (seq_job_analysis d1) in
      if (ref_count j d2 =? 0)%Z
      then (true,
            Db (delete_listing j (job_listings d2))
               (job_states d2) (job_analyses d2)
               (seq_job_states d2) (seq_job_analysis d2))
      else (true, d2)
  | None =>
      let states' := List.filter (fun s => negb (for_job j s)) (job_states d) in
      let analyses' := List.filter (fun a => negb (analysis_for_job j a)) (job_analyses d) in
      let rowcount :=
        length (List.filter (fun l => String.eqb (job_id l) j) (job_listings d)) in
      ((0 <? rowcount)%nat,
       Db (delete_listing j (job_listings d)) states' analyses'
          (seq_job_states d) (seq_job_analysis d))
  end.

End DatabaseService.

(** ** A state-and-exception monad for the services that call out

    [M S A] is a computation over a world [S] that returns an [A] or
    raises; the world reached is kept in both cases, as effects that
    happened before an exception are not undone. *)
Module Eff.

Definition M (S A : Type) : Type := S -> outcome A * S.

Definition ret {S A : Type} (a : A) : M S A := fun s => (Return a, s).

Definition bind {S A B : Type} (m : M S A) (k : A -> M S B) : M S B :=
  fun s =>
    match m s with
    | (Return a, s') => k a s'
    | (Raise e, s') => (Raise e, s')
    end.

(** An effect-free step that may raise. *)
Definition lift {S A : Type} (o : outcome A) : M S A := fun s => (o, s).

(** [try: m except Exception as e: handler e]. *)
Definition try_except {S A : Type} (m : M S A) (handler : exn -> M S A) : M S A :=
  fun s =>
    match m s with
    | (Return a, s') => (Return a, s')
    | (Raise e, s') => handler e s'
    end.

End Eff.
Export Eff.

Declare Scope eff_scope.
Delimit Scope eff_scope with eff.
Notation "x <- m ;; k" := (bind m (fun x => k))
  (at level 100, m at next level, right associativity) : eff_scope.

(** ** services/llm_json_parser.py *)
Module LLMJsonParser.

(** [re.findall(r"```(?:json)?(.*?)```", text, re.DOTALL)]: the texts
    between successive pairs of fences, an opening fence swallowing a
    directly following [json]. *)
Fixpoint code_blocks_from (fuel : nat) (text : string) : list string :=
  match fuel with
  | O => []
  | S fuel' =>
      match split_at_first "```" text with
      | None => []
      | Some (_, rest) =>
          let body :=
            if String.prefix "json" rest
            then String.substring 4 (String.length rest) rest
            else rest in
          match split_at_first "```" body with
          | Some (block, rest') => block :: code_blocks_from fuel' rest'
          | None => []
          end
      end
  end.

Definition code_blocks (text : string) : list string :=
  code_blocks_from (String.length text) text.

(** [re.search(r"\{.*\}", text, re.DOTALL)]: from the first opening brace
    to the last closing brace after it. *)
Definition search_braces (text : string) : option string :=
  match split_at_first "{" text with
  | None => None
  | Some (_, rest) =>
      match upto_last "}"%char rest with
      | Some inner => Some (String "{"%char inner)
      | None => None
      end
  end.

(** The first block that [json.loads] accepts. *)
Fixpoint first_loadable `{Runtime} (blocks : list string) : option pyval :=
  match blocks with
  | [] => None
  | block :: rest =>
      match json_loads (strip block) with
      | inr v => Some v
      | inl _ => first_loadable rest
      end
  end.

Definition parse `{Runtime} (text : string) : outcome pyval :=
  match first_loadable (code_blocks text) with
  | Some v => Return v
  | None =>
      match
        match search_braces text with
        | Some json_str =>
            match json_loads json_str with
            | inr v => Some v
            | inl _ => None
            end
        | None => None
        end
      with
      | Some v => Return v
      | None =>
          match json_loads text with
          | inr v => Return v
          | inl msg =>
              Raise (Exn ValueError ("Failed to parse JSON from LLM output: " ++ msg))
          end
      end
  end.

End LLMJsonParser.

(** ** services/analysis_strategy.py: [TitleAnalysisStrategy]

    The LLM provider and the random source are outside the program: the
    provider's answer to the [n]-th completion request and the [n]-th value
    of [random.random()] are given by oracles, and the world counts the
    requests and draws made and records what happened, in order.  The
    values of [random.random()] and the arguments of [time.sleep] are
    binary64 numbers, and the sleep time is computed in binary64 as the
    source does.  [random.random()] yields a number in [0.0, 1.0), and
    [time.sleep] is taken at the durations that come of such draws with
    the settings of [__init__]. *)
Module TitleAnalysisStrategy.

Inductive event : Type :=
| Completion (prompt : string)
| Sleep (seconds : float).

Record world : Type := World {
  completions : nat;
  draws : nat;
  trace : list event
}.

Record t : Type := Strategy {
  (** [llm_provider.generate_completion(prompt)], by request number. *)
  llm_provider : nat -> string -> outcome string;
  (** Lines 74-88: the prompt built from the keyword arguments by
      [prompt_templates.get_title_analysis_prompt]. *)
  prompt_templates : gmap string pyval -> outcome string;
  (** [json_parser.parse]. *)
  json_parser : string -> outcome pyval;
  max_retries : Z;
  retry_delay : Z
}.

(** [__init__]. *)
Definition init (llm : nat -> string -> outcome string)
    (templates : gmap string pyval -> outcome string)
    (parser : string -> outcome pyval) : t :=
  Strategy llm templates parser 3 2.

Definition generate_completion (self : t) (prompt : string) : M world string :=
  fun w =>
    (llm_provider self (completions w) prompt,
     World (S (completions w)) (draws w) (trace w ++ [Completion prompt])).

Definition random_random (rnd : nat -> float) : M world float :=
  fun w => (Return (rnd (draws w)), World (completions w) (S (draws w)) (trace w)).

Definition time_sleep (seconds : float) : M world unit :=
  fun w => (Return tt, World (completions w) (draws w) (trace w ++ [Sleep seconds])).

(** [analysis.get(key, default)] on whatever the parser returned: only a
    dict has [get]. *)
Definition analysis_get (analysis : pyval) (key : string) (default : pyval) : outcome pyval :=
  match analysis with
  | PDict d => Return (dict_get d key default)
  | _ => Raise (Exn AttributeError "object has no attribute 'get'")
  end.

(** The body of the [try] block of one attempt. *)
Definition attempt_body (self : t) (prompt : string) : M world (pyval * pyval) :=
  (content <- generate_completion self prompt ;;
   analysis <- lift (json_parser self content) ;;
   score <- lift (analysis_get analysis "estimated_relevance" (PFloat 0.0)) ;;
   ret (score, analysis))%eff.

Definition backoff (self : t) (attempt : nat) : Z :=
  (retry_delay self * 2 ^ Z.of_nat attempt)%Z.

(** The conversion of an [int] operand in arithmetic with a [float]: the
    nearest binary64 number, ties to even.  It is exact up to [2^53], so
    for the backoffs 2 and 4 that the settings of [__init__] give; where
    the nearest number lies beyond the binary64 range, which takes an
    integer of more than a thousand bits, it yields an infinity and Python
    raises [OverflowError]. *)
Definition float_of_int (n : Z) : float :=
  SF2Prim (binary_normalize prec emax n 0 false).

(** [backoff + backoff * 0.2 * random.random()], evaluated from the left
    in binary64, [r] being the value drawn. *)
Definition sleep_time (self : t) (attempt : nat) (r : float) : float :=
  (float_of_int (backoff self attempt)
   + float_of_int (backoff self attempt) * 0.2 * r)%float.

Definition api_error_result (e : exn) : pyval * pyval :=
  (PFloat 0.0,
   PDict (mkdict [ ("estimated_relevance", PFloat 0.0);
                   ("reasoning", PStr "API error");
                   ("error", PStr (str_exn e)) ])).

(** [for attempt in attempts: try ... except ValueError ... except
    Exception ...]; a loop that runs out returns [None]. *)
Fixpoint retry_loop (self : t) (rnd : nat -> float) (prompt : string)
    (attempts : list nat) : M world (option (pyval * pyval)) :=
  match attempts with
  | [] => ret None
  | attempt :: rest =>
      fun w =>
        match attempt_body self prompt w with
        | (Return r, w') => (Return (Some r), w')
        | (Raise e, w') =>
            if is_ValueError e then (Raise e, w')
            else if (Z.of_nat attempt <? max_retries self - 1)%Z
            then (r <- random_random rnd ;;
                  _ <- time_sleep (sleep_time self attempt r) ;;
                  retry_loop self rnd prompt rest)%eff w'
            else (Return (Some (api_error_result e)), w')
        end
  end.

Definition analyze (self : t) (rnd : nat -> float) (kwargs : gmap string pyval)
    : M world (option (pyval * pyval)) :=
  (prompt <- lift (prompt_templates self kwargs) ;;
   retry_loop self rnd prompt (seq 0 (Z.to_nat (max_retries self))))%eff.

End TitleAnalysisStrategy.

(** ** services/job_analysis_service.py

    The service is built from three injected collaborators: two analysis
    strategies and, optionally, a database service.  They act on a world
    [S] of their own; the service's world adds the record of the calls the
    service made to them, in order. *)
Module JobAnalysisService.

Section Service.
Context {S : Type}.

(** [AnalysisStrategy.analyze( **kwargs ) -> Tuple[float, Dict[str, Any]]]. *)
Record strategy : Type := {
  analyze : gmap string pyval -> M S (float * pyval)
}.

(** The two methods of the database service that [analyze_job] reaches;
    each returns the id of the new row. *)
Record database : Type := {
  add_job_analysis : pyval -> Z -> float -> pyval -> M S Z;
  add_job_state : pyval -> Z -> string -> M S Z
}.

Record t : Type := Service {
  title_analyzer : strategy;
  description_analyzer : strategy;
  db_service : option database
}.

Inductive call : Type :=
| TitleAnalyze (kwargs : gmap string pyval)
| DescriptionAnalyze (kwargs : gmap string pyval)
| AddJobAnalysis (job_id : pyval) (user_id : Z) (score : float) (details : pyval)
| AddJobState (job_id : pyval) (user_id : Z) (state : string).

Record world : Type := World {
  ext : S;
  calls : list call
}.

(** A call to a collaborator: it is recorded, then runs on [ext]. *)
Definition invoke {A : Type} (c : call) (m : M S A) : M world A :=
  fun w =>
    let (r, s') := m (ext w) in
    (r, World s' (calls w ++ [c])).



Definition threshold_of (analysis_prefs : gmap string pyval) : pyval :=
  dict_get analysis_prefs "relevance_threshold"
    (PFloat AnalysisConstants.DEFAULT_RELEVANCE_THRESHOLD).

Definition strictness_of (analysis_prefs : gmap string pyval) : pyval :=
  dict_get analysis_prefs "title_match_strictness"
    (PFloat AnalysisConstants.DEFAULT_TITLE_MATCH_STRICTNESS).

(** The keyword arguments handed to the title strategy. *)
Definition title_kwargs (title company : pyval) (analysis_prefs : gmap string pyval)
    (job_titles : pyval) : gmap string pyval :=
  mkdict [ ("title", title); ("company", company);
           ("analysis_prefs", PDict analysis_prefs);
           ("job_titles", job_titles) ].

(** The keyword arguments handed to the description strategy. *)
Definition description_kwargs (title company description : pyval)
    (analysis_prefs : gmap string pyval) (job_titles : pyval) : gmap string pyval :=
  mkdict [ ("title", title); ("company", company);
           ("description", description);
           ("analysis_prefs", PDict analysis_prefs);
           ("job_titles", job_titles) ].

Definition _analyze_job_title (self : t) (job analysis_prefs : gmap string pyval)
    (job_titles : pyval) : M world (float * pyval) :=
  (title <- lift (dict_item job "title") ;;
   company <- lift (dict_item job "company") ;;
   let kwargs := title_kwargs title company analysis_prefs job_titles in
   invoke (TitleAnalyze kwargs) (analyze (title_analyzer self) kwargs))%eff.

Definition _create_analysis_result (job : gmap string pyval) (score : float)
    (is_relevant : bool) (details : gmap string pyval)
    : outcome (gmap string pyval) :=
  match dict_item job "job_id" with
  | Raise e => Raise e
  | Return job_id =>
      match dict_item job "title" with
      | Raise e => Raise e
      | Return title =>
          match dict_item job "company" with
          | Raise e => Raise e
          | Return company =>
              Return (mkdict [ ("job_id", job_id);
                               ("title", title);
                               ("company", company);
                               ("relevance_score", PFloat score);
                               ("is_relevant", PBool is_relevant);
                               ("analysis_details", PDict details) ])
          end
      end
  end.

Definition _update_job_states (self : t) (job_id : pyval) (user_id : Z)
    (score : float) (analysis_prefs : gmap string pyval) : M world unit :=
  match db_service self with
  | None => ret tt
  | Some db =>
      (_ <- invoke (AddJobState job_id user_id JobStates.STATE_ANALYZED)
              (add_job_state db job_id user_id JobStates.STATE_ANALYZED) ;;
       relevant <- lift (float_ge score (threshold_of analysis_prefs)) ;;
       let state :=
         if relevant : bool then JobStates.STATE_RELEVANT
         else JobStates.STATE_IRRELEVANT in
       _ <- invoke (AddJobState job_id user_id state)
              (add_job_state db job_id user_id state) ;;
       ret tt)%eff
  end.

Definition _store_analysis_and_update_state (self : t) (job_id : pyval)
    (user_id : option Z) (score : float) (details : gmap string pyval)
    (analysis_prefs : gmap string pyval) : M world unit :=
  match db_service self, user_id with
  | Some db, Some u =>
      if (u =? 0)%Z then ret tt
      else
        (_ <- invoke (AddJobAnalysis job_id u score (PDict details))
                (add_job_analysis db job_id u score (PDict details)) ;;
         _update_job_states self job_id u score analysis_prefs)%eff
  | _, _ => ret tt
  end.

(** [store_results and self.db_service and user_id]. *)
Definition should_store (self : t) (user_id : option Z) (store_results : bool) : bool :=
  store_results
  && match db_service self with Some _ => true | None => false end
  && truthy_opt_int user_id.

(** The analysis details of a full analysis. *)
Definition full_details (title_analysis : pyval) (title_relevance : float)
    (full_analysis : pyval) (relevance_score : float) : gmap string pyval :=
  mkdict [ ("title_analysis", title_analysis);
           ("title_relevance", PFloat title_relevance);
           ("full_analysis", full_analysis);
           ("relevance_score", PFloat relevance_score) ].

(** The analysis details of a skipped analysis. *)
Definition skipped_details (title_analysis : pyval) (title_relevance : float)
    : gmap string pyval :=
  mkdict [ ("title_analysis", title_analysis);
           ("title_relevance", PFloat title_relevance);
           ("full_analysis", PNone);
           ("relevance_score", PFloat title_relevance);
           ("skip_reason", PStr "Title not relevant") ].

Definition _handle_full_analysis (self : t) (job : gmap string pyval)
    (user_id : option Z) (title_relevance : float) (title_analysis : pyval)
    (analysis_prefs : gmap string pyval) (job_titles : pyval)
    (store_results : bool) : M world (gmap string pyval) :=
  (_ <- lift (dict_item job "job_id") ;;
   title <- lift (dict_item job "title") ;;
   company <- lift (dict_item job "company") ;;
   description <- lift (dict_item job "description") ;;
   let kwargs :=
     description_kwargs title company description analysis_prefs job_titles in
   r <- invoke (DescriptionAnalyze kwargs)
          (analyze (description_analyzer self) kwargs) ;;
   let relevance_score := fst r in
   let full_analysis := snd r in
   let details :=
     full_details title_analysis title_relevance full_analysis relevance_score in
   _ <- (if should_store self user_id store_results
         then (job_id <- lift (dict_item job "job_id") ;;
               _store_analysis_and_update_state self job_id user_id
                 relevance_score details analysis_prefs)
         else ret tt) ;;
   is_relevant <- lift (float_ge relevance_score (threshold_of analysis_prefs)) ;;
   lift (_create_analysis_result job relevance_score is_relevant details))%eff.

Definition _handle_skipped_analysis (self : t) (job : gmap string pyval)
    (user_id : option Z) (title_relevance : float) (title_analysis : pyval)
    (analysis_prefs : gmap string pyval) (store_results : bool)
    : M world (gmap string pyval) :=
  (_ <- lift (dict_item job "job_id") ;;
   let details := skipped_details title_analysis title_relevance in
   _ <- (if should_store self user_id store_results
         then (job_id <- lift (dict_item job "job_id") ;;
               _store_analysis_and_update_state self job_id user_id
                 title_relevance details analysis_prefs)
         else ret tt) ;;
   lift (_create_analysis_result job title_relevance false details))%eff.

(** The dict returned by the [except Exception] clause of [analyze_job]. *)
Definition error_result (job : gmap string pyval) (e : exn) : gmap string pyval :=
  mkdict [ ("job_id", dict_get job "job_id" (PStr "unknown"));
           ("title", dict_get job "title" (PStr "unknown"));
           ("company", dict_get job "company" (PStr "unknown"));
           ("status", PStr "error");
           ("error", PStr (str_exn e)) ].

Definition analyze_job (self : t) (job : gmap string pyval) (user_id : option Z)
    (analysis_prefs : option (gmap string pyval)) (job_titles : pyval)
    (store_results : bool) : M world (gmap string pyval) :=
  try_except
    (let analysis_prefs := default ∅ analysis_prefs in
     r <- _analyze_job_title self job analysis_prefs job_titles ;;
     let title_relevance := fst r in
     let title_analysis := snd r in
     let threshold := strictness_of analysis_prefs in
     proceed <- lift (float_ge title_relevance threshold) ;;
     if proceed : bool
     then _handle_full_analysis self job user_id title_relevance title_analysis
            analysis_prefs job_titles store_results
     else _handle_skipped_analysis self job user_id title_relevance title_analysis
            analysis_prefs store_results)%eff
    (fun e => ret (error_result job e)).

End Service.

Arguments strategy : clear implicits.
Arguments database : clear implicits.
Arguments t : clear implicits.
Arguments call : clear implicits.
Arguments world : clear implicits.

End JobAnalysisService.

(** ** config.py: the settings the default preference table reads

    [getenv] is the process environment after [load_dotenv()].  The other
    settings of [Config] play no part below and are left out. *)
Module Config.

Record t : Type := Make {
  DEFAULT_SEARCH_TERMS : list string;
  DEFAULT_LOCATIONS : list string;
  DEFAULT_SCHEDULE_TYPE : string;
  DEFAULT_EXECUTION_TIME : string;
  RELEVANCE_THRESHOLD : float
}.

(** [float(os.getenv('RELEVANCE_THRESHOLD', 0.7))]. *)
Definition relevance_threshold_setting `{Runtime} (getenv : string -> option string)
    : outcome float :=
  match getenv "RELEVANCE_THRESHOLD" with
  | None => Return 0.7%float
  | Some s =>
      match float_of_str s with
      | Some f => Return f
      | None => Raise (Exn ValueError ("could not convert string to float: " ++ s))
      end
  end.

Definition load `{Runtime} (getenv : string -> option string) : outcome t :=
  match relevance_threshold_setting getenv with
  | Raise e => Raise e
  | Return threshold =>
      Return (Make [ "AI Engineer"; "Machine Learning Engineer"; "Data Scientist" ]
                   [ "New York, NY"; "San Francisco, CA" ]
                   "daily"
                   "08:00"
                   threshold)
  end.

End Config.

(** ** services/preference_service.py *)
Module PreferenceService.

Definition CATEGORY_SEARCH := "search".
Definition CATEGORY_ANALYSIS := "analysis".
Definition CATEGORY_SCHEDULING := "scheduling".
Definition CATEGORY_UI := "ui".
Definition CATEGORY_TECHNICAL := "technical".

Definition strs (l : list string) : pyval := PList (map PStr l).

(** The class attribute [DEFAULT_PREFERENCES], in the order it is written
    (the order [items()] walks it). *)
Definition DEFAULT_PREFERENCES (cfg : Config.t)
    : list (string * list (string * pyval)) :=
  [ (CATEGORY_SEARCH,
     [ ("job_titles", strs (Config.DEFAULT_SEARCH_TERMS cfg));
       ("locations", strs (Config.DEFAULT_LOCATIONS cfg));
       ("experience_levels", strs [ "Entry level"; "Associate"; "Mid-Senior level" ]);
       ("remote_preference", PBool true) ]);
    (CATEGORY_ANALYSIS,
     [ ("relevant_title_patterns",
        strs [ "AI"; "Machine Learning"; "ML"; "Data Scientist"; "NLP"; "Computer Vision" ]);
       ("required_skills", strs [ "Python"; "Machine Learning" ]);
       ("preferred_skills", strs [ "TensorFlow"; "PyTorch"; "NLP"; "Computer Vision" ]);
       ("relevance_threshold", PFloat (Config.RELEVANCE_THRESHOLD cfg));
       ("title_match_strictness", PFloat 0.8) ]);
    (CATEGORY_SCHEDULING,
     [ ("schedule_type", PStr (Config.DEFAULT_SCHEDULE_TYPE cfg));
       ("execution_time", PStr (Config.DEFAULT_EXECUTION_TIME cfg));
       ("notifications_enabled", PBool true) ]);
    (CATEGORY_UI,
     [ ("dashboard_layout", PStr "default");
       ("default_filters", PDict (mkdict [ ("state", PStr "relevant") ]));
       ("mobile_view", PStr "compact") ]);
    (CATEGORY_TECHNICAL,
     [ ("chrome_executable_path", PNone);
       ("chrome_binary_location", PNone) ]) ].

(** A row of [user_preferences]; [value] is the stored JSON text. *)
Record user_preference : Type := UserPreference {
  pref_id : Z;
  user_id : Z;
  category : string;
  name : string;
  value : string
}.

(** [UserPreferences.json_deserialize]. *)
Definition json_deserialize `{Runtime} (text : string) : outcome pyval :=
  match json_loads text with
  | inr v => Return v
  | inl msg => Raise (Exn JSONDecodeError msg)
  end.

(** [preferences[category][name] = value], creating the inner dict if the
    category is new. *)
Definition set_in (preferences : gmap string (gmap string pyval))
    (cat nm : string) (v : pyval) : gmap string (gmap string pyval) :=
  <[cat := <[nm := v]> (default ∅ (preferences !! cat))]> preferences.

(** The first loop of [get_all_preferences], over the fetched rows. *)
Fixpoint load_rows `{Runtime} (results : list user_preference)
    (preferences : gmap string (gmap string pyval))
    : outcome (gmap string (gmap string pyval)) :=
  match results with
  | [] => Return preferences
  | pref :: rest =>
      match json_deserialize (value pref) with
      | Raise e => Raise e
      | Return v => load_rows rest (set_in preferences (category pref) (name pref) v)
      end
  end.

(** The inner loop over the defaults of one category. *)
Fixpoint fill_names (default_prefs : list (string * pyval))
    (inner : gmap string pyval) : gmap string pyval :=
  match default_prefs with
  | [] => inner
  | (nm, default_value) :: rest =>
      fill_names rest
        (match inner !! nm with
         | Some _ => inner
         | None => <[nm := default_value]> inner
         end)
  end.

(** The second loop, over the categories of the default table. *)
Fixpoint fill_defaults (defaults : list (string * list (string * pyval)))
    (preferences : gmap string (gmap string pyval))
    : gmap string (gmap string pyval) :=
  match defaults with
  | [] => preferences
  | (cat, default_prefs) :: rest =>
      fill_defaults rest
        (<[cat := fill_names default_prefs (default ∅ (preferences !! cat))]> preferences)
  end.

(** [table] is the content of [user_preferences]; the query keeps the rows
    of the user. *)
Definition get_all_preferences `{Runtime} (cfg : Config.t)
    (table : list user_preference) (uid : Z)
    : outcome (gmap string (gmap string pyval)) :=
  let results := List.filter (fun p => (user_id p =? uid)%Z) table in
  match load_rows results ∅ with
  | Raise e => Raise e
  | Return preferences => Return (fill_defaults (DEFAULT_PREFERENCES cfg) preferences)
  end.

End PreferenceService.

(** ** utils/security.py *)
Module Security.

(** Modelled from the spec: constants/security.py, which defines
    [SecurityConstants.PASSWORD_MIN_LENGTH], is not among the sources; the
    specification gives the minimum password length as 8. *)
Definition PASSWORD_MIN_LENGTH : Z := 8.

Definition char_range (lo n : nat) : list ascii :=
  map ascii_of_nat (seq lo n).

(** [string.ascii_letters], [string.digits], [string.punctuation]. *)
Definition ascii_lowercase : list ascii := char_range 97 26.
Definition ascii_uppercase : list ascii := char_range 65 26.
Definition ascii_letters : list ascii := ascii_lowercase ++ ascii_uppercase.
Definition digits : list ascii := char_range 48 10.
Definition punctuation : list ascii :=
  char_range 33 15 ++ char_range 58 7 ++ char_range 91 6 ++ char_range 123 4.

Definition alphabet : list ascii := ascii_letters ++ digits ++ punctuation.

(** [secrets.choice(alphabet)]: the random source is an oracle giving the
    raw value behind the [k]-th choice, reduced below [len(alphabet)]. *)
Definition choice (rnd : nat -> nat) (k : nat) : ascii :=
  nth (rnd k mod length alphabet) alphabet "000"%char.

(** [''.join(secrets.choice(alphabet) for _ in range(n))], starting at the
    [k]-th choice. *)
Fixpoint candidate (rnd : nat -> nat) (n k : nat) : list ascii :=
  match n with
  | O => []
  | S n' => choice rnd k :: candidate rnd n' (S k)
  end.

(** [sum(p(c) for c in password)]. *)
Definition count_where (p : ascii -> bool) (password : list ascii) : nat :=
  length (List.filter p password).

(** The condition that leaves the [while True] loop. *)
Definition acceptable (password : list ascii) : bool :=
  existsb islower password
  && existsb isupper password
  && (3 <=? count_where isdigit password)%nat.

(** [generate_password]: [fuel] bounds the number of candidates tried;
    [None] means none of them left the loop. *)
Fixpoint generate_password_from (fuel : nat) (rnd : nat -> nat) (length : Z) (k : nat)
    : option string :=
  match fuel with
  | O => None
  | S fuel' =>
      let password := candidate rnd (Z.to_nat length) k in
      if acceptable password
      then Some (of_chars password)
      else generate_password_from fuel' rnd length (k + Z.to_nat length)
  end.

Definition generate_password (fuel : nat) (rnd : nat -> nat) (length : Z) : option string :=
  generate_password_from fuel rnd length 0.

(** [c in string.punctuation]. *)
Definition is_punctuation (c : ascii) : bool :=
  existsb (Ascii.eqb c) punctuation.

Definition validate_password (password : string) : bool * option string :=
  if (Z.of_nat (String.length password) <? PASSWORD_MIN_LENGTH)%Z
  then (false,
        Some ("Password must be at least " +:+ pretty PASSWORD_MIN_LENGTH
              +:+ " characters long"))
  else if negb (existsb isupper (chars password))
  then (false, Some "Password must contain at least one uppercase letter")
  else if negb (existsb islower (chars password))
  then (false, Some "Password must contain at least one lowercase letter")
  else if negb (existsb isdigit (chars password))
  then (false, Some "Password must contain at least one digit")
  else if negb (existsb is_punctuation (chars password))
  then (false, Some "Password must contain at least one special character")
  else (true, None).

End Security.

(** ** experiments/title_strategy_evaluator.py *)
Module TitleStrategyEvaluator.

(** The class attribute [RELEVANCE_LEVELS], in the order it is written. *)
Definition RELEVANCE_LEVELS : list (string * (float * float)) :=
  [ ("irrelevant", (0.0, 0.2));
    ("low", (0.2, 0.4));
    ("medium", (0.4, 0.7));
    ("high", (0.7, 0.9));
    ("very_high", (0.9, 1.0)) ]%float.

Definition LEVEL_ORDER : list string :=
  [ "irrelevant"; "low"; "medium"; "high"; "very_high" ].

(** The [for] loop of [_get_relevance_level]: the first level whose range
    holds the score. *)
Fixpoint first_level (levels : list (string * (float * float))) (score : float)
    : option string :=
  match levels with
  | [] => None
  | (level, (min_score, max_score)) :: rest =>
      if PrimFloat.leb min_score score && PrimFloat.ltb score max_score
      then Some level
      else first_level rest score
  end.

Definition _get_relevance_level (score : float) : string :=
  match first_level RELEVANCE_LEVELS score with
  | Some level => level
  | None =>
      if PrimFloat.eqb score 1.0 then "very_high"
      else "irrelevant"
  end.

(** [l.index(x)]; [None] is the [ValueError] of a missing element. *)
Fixpoint index (l : list string) (x : string) : option nat :=
  match l with
  | [] => None
  | y :: rest =>
      if String.eqb y x then Some O
      else match index rest x with
           | Some i => Some (S i)
           | None => None
           end
  end.

Definition _calculate_level_distance (expected_level predicted_level : string) : Z :=
  match index LEVEL_ORDER expected_level with
  | None => (Z.of_nat (length LEVEL_ORDER) - 1)%Z
  | Some expected_idx =>
      match index LEVEL_ORDER predicted_level with
      | None => (Z.of_nat (length LEVEL_ORDER) - 1)%Z
      | Some predicted_idx =>
          Z.abs (Z.of_nat expected_idx - Z.of_nat predicted_idx)
      end
  end.

End TitleStrategyEvaluator.

(** ** utils/factories.py: the job-analysis service over the database service

    [JobAnalysisServiceFactory] hands a [DatabaseService] object to the
    job-analysis service.  Its world is the store together with the number
    of clock readings made so far; [clock n] is what the [n]-th call of
    [datetime.datetime.now()] returns.  The methods are typed
    [job_id: str]: a job id that is not a string is outside their
    contract and refused. *)
Module JobAnalysisServiceFactory.

Record store : Type := Store {
  tables : DatabaseService.db;
  clock_reads : nat
}.

Definition not_a_string : exn := Exn TypeError "job_id must be str".

Definition add_job_analysis `{Runtime} (clock : nat -> Z) (job_id : pyval)
    (user_id : Z) (score : float) (details : pyval) : M store Z :=
  fun st =>
    match job_id with
    | PStr j =>
        let (r, d') :=
          DatabaseService.add_job_analysis j user_id score details
            (clock (clock_reads st)) (tables st) in
        (r, Store d' (S (clock_reads st)))
    | _ => (Raise not_a_string, st)
    end.

Definition add_job_state (clock : nat -> Z) (job_id : pyval) (user_id : Z)
    (state : string) : M store Z :=
  fun st =>
    match job_id with
    | PStr j =>
        match DatabaseService.add_job_state j user_id state None
                (clock (clock_reads st)) (tables st) with
        | (Return rowid, d') => (Return rowid, Store d' (S (clock_reads st)))
        | (Raise e, d') =>
            (Raise e,
             Store d'
               (if existsb (String.eqb state) JobStates.VALID_STATES
                then S (clock_reads st)
                else clock_reads st))
        end
    | _ => (Raise not_a_string, st)
    end.



End JobAnalysisServiceFactory.

(** ** Vocabulary of the statements, and example data

    The notions the properties of Part II are phrased with, and the
    concrete inputs they are evaluated on. *)

Section PreferenceVocabulary.
Import PreferenceService.

(** A stand-in for the library functions: concrete instances of the statements need some [Runtime]; this
    one decodes no JSON text, encodes every value as an empty object, and
    reads the single float literal [0.5]. *)
Definition example_runtime : Runtime :=
  {| json_loads := fun _ => inl "Expecting value";
     json_dumps := fun _ => "{}";
     float_of_str := fun s => if String.eqb s "0.5" then Some 0.5%float else None |}.

(** The default table as a dict of dicts. *)
Definition default_dict (cfg : Config.t) : gmap string (gmap string pyval) :=
  list_to_map (map (fun entry => (fst entry, mkdict (snd entry))) (DEFAULT_PREFERENCES cfg)).

(** The default table as the specification prints it, every value a
    literal. *)
Definition documented_defaults : gmap string (gmap string pyval) :=
  list_to_map
    [ ("search",
       mkdict
         [ ("job_titles",
            strs [ "AI Engineer"; "Machine Learning Engineer"; "Data Scientist" ]);
           ("locations", strs [ "New York, NY"; "San Francisco, CA" ]);
           ("experience_levels", strs [ "Entry level"; "Associate"; "Mid-Senior level" ]);
           ("remote_preference", PBool true) ]);
      ("analysis",
       mkdict
         [ ("relevant_title_patterns",
            strs [ "AI"; "Machine Learning"; "ML"; "Data Scientist"; "NLP";
                   "Computer Vision" ]);
           ("required_skills", strs [ "Python"; "Machine Learning" ]);
           ("preferred_skills", strs [ "TensorFlow"; "PyTorch"; "NLP"; "Computer Vision" ]);
           ("relevance_threshold", PFloat 0.7);
           ("title_match_strictness", PFloat 0.8) ]);
      ("scheduling",
       mkdict
         [ ("schedule_type", PStr "daily");
           ("execution_time", PStr "08:00");
           ("notifications_enabled", PBool true) ]);
      ("ui",
       mkdict
         [ ("dashboard_layout", PStr "default");
           ("default_filters", PDict (mkdict [ ("state", PStr "relevant") ]));
           ("mobile_view", PStr "compact") ]);
      ("technical",
       mkdict
         [ ("chrome_executable_path", PNone);
           ("chrome_binary_location", PNone) ]) ].

(** [preferences[category][name]] on the result. *)
Definition preference (prefs : gmap string (gmap string pyval)) (cat nm : string)
    : option pyval :=
  match prefs !! cat with
  | Some inner => inner !! nm
  | None => None
  end.

(** The environment in which only [RELEVANCE_THRESHOLD] is set, to [0.5]. *)
Definition threshold_environment (var : string) : option string :=
  if String.eqb var "RELEVANCE_THRESHOLD" then Some "0.5" else None.

End PreferenceVocabulary.

Section ServiceVocabulary.
Import JobAnalysisService JobAnalysisServiceFactory.


(** Test doubles: a strategy that returns a fixed pair, and a job row. *)
Definition fixed_strategy {S : Type} (score : float) (details : pyval) : strategy S :=
  {| analyze := fun _ s => (Return (score, details), s) |}.

Definition example_job : gmap string pyval :=
  mkdict [ ("job_id", PStr "4021");
           ("title", PStr "Machine Learning Engineer");
           ("company", PStr "Acme");
           ("description", PStr "Build and ship models") ].

Definition example_prefs : gmap string pyval :=
  mkdict [ ("title_match_strictness", PFloat 0.8);
           ("relevance_threshold", PFloat 0.7) ].




Definition empty_store : store :=
  Store (DatabaseService.Db [] [] [] 0 0) 0.


End ServiceVocabulary.

(** A concrete engine for [ORDER BY] (merge sort), the notions about pages
    and histories, and example stores. *)
Section DatabaseVocabulary.
Import DatabaseService.

Definition by_key_desc {A : Type} (key : A -> Z) : relation A :=
  fun a b => (key b <= key a)%Z.

#[local] Instance by_key_desc_dec {A : Type} (key : A -> Z) (a b : A) :
  Decision (by_key_desc key a b) := Z_le_dec (key b) (key a).

#[local] Instance by_key_desc_trans {A : Type} (key : A -> Z) :
  Transitive (by_key_desc key).
Proof. unfold by_key_desc. intros a b c Hab Hbc. lia. Qed.

#[local] Instance by_key_desc_total {A : Type} (key : A -> Z) :
  Total (by_key_desc key).
Proof. unfold by_key_desc. intros a b. lia. Qed.

Definition merge_sort_engine : SqlOrder :=
  {| order_by_desc := fun A key l => merge_sort (by_key_desc key) l;
     order_by_desc_perm := fun A key l => merge_sort_Permutation (by_key_desc key) l;
     order_by_desc_sorted :=
       fun A key l => StronglySorted_merge_sort (by_key_desc key) l |}.

(** A page covers a result of [n] rows when it starts at the first row and
    its limit is absent (negative) or at least [n]. *)
Definition page_covers (limit offset : Z) (n : nat) : Prop :=
  (offset <= 0)%Z /\ ((limit < 0)%Z \/ (Z.of_nat n <= limit)%Z).

(** The state rows of a (job, user) pair, in the order they were appended. *)
Definition history (j : string) (u : Z) (d : db) : list job_state :=
  List.filter (for_job_user j u) (job_states d).


(** The result row is about job [j]. *)
Definition lists_job (j : string) (r : job_with_state) : bool :=
  String.eqb (job_id (jws_listing r)) j.

(** 51 jobs, each with a listing and, for user 1, the single state
    [relevant]; job [i] got it at time [i]. *)
Definition crowd_listing (i : nat) : job_listing :=
  JobListing (Z.of_nat i + 1) ("job-" +:+ pretty i) "Engineer" "Acme" "" ""
    ("https://jobs.example/" +:+ pretty i) 0 "".

Definition crowd_state (i : nat) : job_state :=
  JobState (Z.of_nat i + 1) ("job-" +:+ pretty i) 1 "relevant" (Z.of_nat i) None.

Definition crowded_db : db :=
  Db (map crowd_listing (seq 0 51)) (map crowd_state (seq 0 51)) [] 51 0.

(** A job queued at time 1 and analysed at time 2 for user 7. *)
Definition progressed_db : db :=
  Db [ JobListing 1 "4021" "Machine Learning Engineer" "Acme" "" ""
         "https://jobs.example/4021" 0 "" ]
     [ JobState 1 "4021" 7 "queued_for_analysis" 1 None;
       JobState 2 "4021" 7 "analyzed" 2 None ]
     [] 2 0.

(** The crowd of [crowded_db], with a second row for [job-0]: state
    [viewed] at the same time 0 as its [relevant] row. *)
Definition tied_crowded_db : db :=
  Db (job_listings crowded_db)
     (job_states crowded_db ++ [JobState 52 "job-0" 1 "viewed" 0 None])
     [] 52 0.

(** A listed job with no state yet. *)
Definition listed_db : db :=
  Db [ JobListing 1 "4021" "Machine Learning Engineer" "Acme" "" ""
         "https://jobs.example/4021" 0 "" ]
     [] [] 0 0.

(** Two appends for user 7 that read the same clock value 5. *)
Definition tied_db : db :=
  snd (add_job_state "4021" 7 "relevant" None 5
         (snd (add_job_state "4021" 7 "analyzed" None 5 listed_db))).

(** Two users on a shared job: the listing, then two states and one
    analysis for each of the users 1 and 2. *)
Definition shared_db : db :=
  Db [ JobListing 1 "4021" "Machine Learning Engineer" "Acme" "" ""
         "https://jobs.example/4021" 0 "" ]
     [ JobState 1 "4021" 1 "new_scraped" 1 None;
       JobState 2 "4021" 1 "relevant" 2 None;
       JobState 3 "4021" 2 "new_scraped" 3 None;
       JobState 4 "4021" 2 "relevant" 4 None ]
     [ JobAnalysis 1 "4021" 1 0.8 "{}" 5;
       JobAnalysis 2 "4021" 2 0.8 "{}" 6 ]
     4 2.

End DatabaseVocabulary.

(* ===================================================================== *)
(** * Part I, continued: further methods of the same modules

    The methods below belong to the files modelled above; they reuse the
    stores, the monad and the collaborator interfaces defined there. *)

(** ** services/database_service.py: listings, counts and the read of an
    analysis *)
Module DatabaseServiceListings.
Import DatabaseService.

(** [sep.join(parts)]. *)
Fixpoint join (sep : string) (parts : list string) : string :=
  match parts with
  | [] => ""
  | [p] => p
  | p :: rest => p ++ sep ++ join sep rest
  end.

Definition required_fields : list string := ["job_id"; "title"; "company"; "url"].

(** [required_fields - set(job_data.keys())]. *)
Definition missing_fields (job_data : gmap string string) : list string :=
  List.filter (fun f => negb (bool_decide (is_Some (job_data !! f)))) required_fields.

(** [add_job_listing].  The values of [job_data] are texts, as the scraper
    passes them.  [set_order] is the order in which the interpreter
    iterates over the set of missing fields, [now] the clock reading and
    [rowid] the [internal_id] the engine assigns to the new row.  Below the
    first check the four required keys are present, so their lookups
    cannot fail. *)
Definition add_job_listing (set_order : list string -> list string)
    (job_data : gmap string string) (now rowid : Z) (d : db) : outcome Z * db :=
  match missing_fields job_data with
  | _ :: _ =>
      (Raise (Exn ValueError
                ("Missing required fields: "
                 ++ join ", " (set_order (missing_fields job_data)))), d)
  | [] =>
      let item k := default "" (job_data !! k) in
      match get_job_by_id (item "job_id") d with
      | Some _ =>
          (Raise (Exn ValueError
                    ("Job with ID " ++ item "job_id" ++ " already exists")), d)
      | None =>
          (Return rowid,
           Db (job_listings d
                 ++ [JobListing rowid (item "job_id") (item "title") (item "company")
                       (default "" (job_data !! "location"))
                       (default "" (job_data !! "description"))
                       (item "url") now
                       (default "" (job_data !! "source_term"))])
              (job_states d) (job_analyses d)
              (seq_job_states d) (seq_job_analysis d))
      end
  end.

(** [SELECT * FROM job_listings WHERE url = ?], first row. *)
Definition get_job_by_url (u : string) (d : db) : option job_listing :=
  fetchone (List.filter (fun l => String.eqb (url l) u) (job_listings d)).

(** [SELECT state, COUNT( * ) FROM job_states WHERE user_id = ? GROUP BY
    state]: one row per state that occurs, with the number of its rows. *)
Definition state_groups (user_id : Z) (d : db) : list (string * Z) :=
  let rows := List.filter (fun s => (s_user_id s =? user_id)%Z) (job_states d) in
  map (fun st =>
         (st, Z.of_nat (length (List.filter (fun s => String.eqb (state s) st) rows))))
      (remove_dups (map state rows)).

(** [get_job_states_by_user]: a dict with 0 for every valid state, then
    overwritten group by group. *)
Definition get_job_states_by_user (user_id : Z) (d : db) : gmap string Z :=
  fold_left (fun counts row => <[fst row := snd row]> counts)
    (state_groups user_id d)
    (list_to_map (map (fun st => (st, 0%Z)) JobStates.VALID_STATES)).

(** [get_job_analysis]: the row, with [analysis_details] replaced by its
    deserialised value; [json.loads] may raise. *)
Definition get_job_analysis `{Runtime} (j : string) (user_id : Z) (d : db)
    : outcome (option (job_analysis * pyval)) :=
  match DatabaseService.get_job_analysis j user_id d with
  | Some row =>
      match json_loads (analysis_details row) with
      | inr details => Return (Some (row, details))
      | inl msg => Raise (Exn JSONDecodeError msg)
      end
  | None => Return None
  end.

End DatabaseServiceListings.

(** ** services/job_analysis_service.py: the queue and re-analysis

    These methods reach further methods of the database service and a
    preference service; both are collaborators that act on the world [S],
    as does the callback of [analyze_queued_jobs].  Of the row
    [get_job_analysis] returns only [relevance_score] is read, a REAL NOT
    NULL column, so the collaborator yields that float.  The callback
    does not modify the dicts it is handed. *)
Module JobAnalysisQueue.
Import JobAnalysisService.

Section Queue.
Context {S : Type}.

Record database_reads : Type := {
  get_jobs_by_state : Z -> string -> Z -> M S (list (gmap string pyval));
  get_job_analysis : pyval -> Z -> M S (option float);
  get_job_by_id : string -> M S (option (gmap string pyval))
}.

Record preferences : Type := {
  get_preferences_by_category : Z -> string -> M S (gmap string pyval)
}.

(** [callback(event, data)]. *)
Definition callback : Type := option (string -> pyval -> M S unit).

(** The truth value of a dict value. *)
Definition truthy (v : pyval) : bool :=
  match v with
  | PNone => false
  | PBool b => b
  | PInt n => negb (n =? 0)%Z
  | PFloat f => negb (PrimFloat.eqb f 0)
  | PStr s => negb (String.eqb s "")
  | PList l => match l with [] => false | _ :: _ => true end
  | PDict d => (0 <? size d)%nat
  end.

(** The [results] dict of [analyze_queued_jobs], with its six counters. *)
Record results : Type := Results {
  total : Z;
  analyzed : Z;
  relevant : Z;
  not_relevant : Z;
  errors : Z;
  skipped : Z
}.

Definition results_dict (r : results) : gmap string pyval :=
  mkdict [ ("total", PInt (total r)); ("analyzed", PInt (analyzed r));
           ("relevant", PInt (relevant r)); ("not_relevant", PInt (not_relevant r));
           ("errors", PInt (errors r)); ("skipped", PInt (skipped r)) ].

(** [results['analyzed'] += 1] and its like. *)
Definition bump_analyzed (r : results) : results :=
  Results (total r) (analyzed r + 1) (relevant r) (not_relevant r) (errors r) (skipped r).
Definition bump_relevant (r : results) : results :=
  Results (total r) (analyzed r) (relevant r + 1) (not_relevant r) (errors r) (skipped r).
Definition bump_not_relevant (r : results) : results :=
  Results (total r) (analyzed r) (relevant r) (not_relevant r + 1) (errors r) (skipped r).
Definition bump_errors (r : results) : results :=
  Results (total r) (analyzed r) (relevant r) (not_relevant r) (errors r + 1) (skipped r).
Definition bump_skipped (r : results) : results :=
  Results (total r) (analyzed r) (relevant r) (not_relevant r) (errors r) (skipped r + 1).

(** The world of the loop of [analyze_queued_jobs]: the world of the
    service and the [results] dict, which is updated in place, so that an
    update made before an exception stays. *)
Record queue_world : Type := QueueWorld {
  service_world : world S;
  counts : results
}.

Definition on_service {A : Type} (m : M (world S) A) : M queue_world A :=
  fun q =>
    let (r, w') := m (service_world q) in
    (r, QueueWorld w' (counts q)).

(** A call to a collaborator that is not recorded. *)
Definition on_ext {A : Type} (m : M S A) : M (world S) A :=
  fun w =>
    let (r, s') := m (ext w) in
    (r, World s' (calls w)).

Definition modify (f : results -> results) : M queue_world unit :=
  fun q => (Return tt, QueueWorld (service_world q) (f (counts q))).

(** [if callback: callback(event, data)]. *)
Definition notify (cb : callback) (event : string) (data : pyval) : M (world S) unit :=
  match cb with
  | Some f => on_ext (f event data)
  | None => ret tt
  end.

(** [self.db_service.method]: on [None] the attribute lookup fails. *)
Definition the_db (self : t S) (method : string) : outcome (database S) :=
  match db_service self with
  | Some db => Return db
  | None =>
      Raise (Exn AttributeError
               ("'NoneType' object has no attribute '" ++ method ++ "'"))
  end.

Definition _get_user_preferences (prefs : preferences) (user_id : Z)
    : M (world S) (gmap string pyval * pyval) :=
  (analysis_prefs <- on_ext (get_preferences_by_category prefs user_id
                               PreferenceService.CATEGORY_ANALYSIS) ;;
   search_prefs <- on_ext (get_preferences_by_category prefs user_id
                             PreferenceService.CATEGORY_SEARCH) ;;
   ret (analysis_prefs, dict_get search_prefs "job_titles" (PList [])))%eff.

Definition _update_analysis_results (analysis : gmap string pyval) : M queue_world unit :=
  modify (fun r =>
            if truthy (dict_get analysis "is_relevant" PNone)
            then bump_relevant (bump_analyzed r)
            else bump_not_relevant (bump_analyzed r)).

(** The first lookup of [job['job_id']] is that of the log message. *)
Definition _handle_already_analyzed_job (self : t S) (job : gmap string pyval)
    (user_id : Z) (existing_score : float) (analysis_prefs : gmap string pyval)
    : M queue_world unit :=
  (job_id <- lift (dict_item job "job_id") ;;
   db <- lift (the_db self "add_job_state") ;;
   _ <- on_service (invoke (AddJobState job_id user_id JobStates.STATE_ANALYZED)
                      (add_job_state db job_id user_id JobStates.STATE_ANALYZED)) ;;
   is_relevant <- lift (float_ge existing_score (threshold_of analysis_prefs)) ;;
   let state :=
     if is_relevant : bool then JobStates.STATE_RELEVANT
     else JobStates.STATE_IRRELEVANT in
   _ <- on_service (invoke (AddJobState job_id user_id state)
                      (add_job_state db job_id user_id state)) ;;
   modify (fun r =>
             let r' := bump_skipped (bump_analyzed r) in
             if String.eqb state JobStates.STATE_RELEVANT
             then bump_relevant r' else bump_not_relevant r'))%eff.

(** [_process_queued_job]: the handler of [except Exception] first builds
    the log message from [job['job_id']], then counts the error. *)
Definition _process_queued_job (self : t S) (reads : database_reads) (cb : callback)
    (job : gmap string pyval) (user_id : Z) (analysis_prefs : gmap string pyval)
    (job_titles : pyval) : M queue_world unit :=
  try_except
    (_ <- lift (the_db self "get_job_analysis") ;;
     job_id <- lift (dict_item job "job_id") ;;
     existing <- on_service (on_ext (get_job_analysis reads job_id user_id)) ;;
     match existing with
     | Some existing_score =>
         _handle_already_analyzed_job self job user_id existing_score analysis_prefs
     | None =>
         db <- lift (the_db self "add_job_state") ;;
         _ <- on_service (invoke (AddJobState job_id user_id JobStates.STATE_ANALYZING)
                            (add_job_state db job_id user_id JobStates.STATE_ANALYZING)) ;;
         _ <- on_service (notify cb "analyzing" (PDict job)) ;;
         analysis <- on_service (analyze_job self job (Some user_id) (Some analysis_prefs)
                                   job_titles true) ;;
         _ <- _update_analysis_results analysis ;;
         on_service (notify cb "analyzed" (PDict analysis))
     end)%eff
    (fun e =>
       (job_id <- lift (dict_item job "job_id") ;;
        _ <- modify bump_errors ;;
        on_service (notify cb "error"
                      (PDict (mkdict [ ("job_id", job_id);
                                       ("error", PStr (str_exn e)) ]))))%eff).

(** [for x in l: body(x)]. *)
Fixpoint for_each {W A : Type} (l : list A) (body : A -> M W unit) : M W unit :=
  match l with
  | [] => ret tt
  | x :: rest => (_ <- body x ;; for_each rest body)%eff
  end.

(** Runs a loop on a fresh [results] dict and yields its final value. *)
Definition with_results (initial : results) (m : M queue_world unit)
    : M (world S) results :=
  fun w =>
    match m (QueueWorld w initial) with
    | (Return _, q) => (Return (counts q), service_world q)
    | (Raise e, q) => (Raise e, service_world q)
    end.

Definition analyze_queued_jobs (self : t S) (reads : database_reads)
    (prefs : preferences) (user_id limit : Z) (cb : callback) : M (world S) results :=
  match db_service self with
  | None =>
      lift (Raise (Exn ValueError "Database service is required for analyze_queued_jobs"))
  | Some _ =>
      (queued <- on_ext (get_jobs_by_state reads user_id
                           JobStates.STATE_QUEUED_FOR_ANALYSIS limit) ;;
       let n := Z.of_nat (length queued) in
       _ <- notify cb "start" (PDict (mkdict [ ("total_jobs", PInt n) ])) ;;
       p <- _get_user_preferences prefs user_id ;;
       final <- with_results (Results n 0 0 0 0 0)
                  (for_each queued
                     (fun job =>
                        _process_queued_job self reads cb job user_id (fst p) (snd p))) ;;
       _ <- notify cb "complete" (PDict (results_dict final)) ;;
       ret final)%eff
  end.

Definition _get_job_by_id_or_raise (reads : database_reads) (j : string)
    : M (world S) (gmap string pyval) :=
  (job <- on_ext (get_job_by_id reads j) ;;
   match job with
   | Some row =>
       if truthy (PDict row) then ret row
       else lift (Raise (Exn ValueError ("Job not found: " ++ j)))
   | None => lift (Raise (Exn ValueError ("Job not found: " ++ j)))
   end)%eff.

Definition reanalyze_job (self : t S) (reads : database_reads) (prefs : preferences)
    (j : string) (user_id : Z) : M (world S) (gmap string pyval) :=
  match db_service self with
  | None => lift (Raise (Exn ValueError "Database service is required for reanalyze_job"))
  | Some db =>
      (job <- _get_job_by_id_or_raise reads j ;;
       p <- _get_user_preferences prefs user_id ;;
       _ <- invoke (AddJobState (PStr j) user_id JobStates.STATE_ANALYZING)
              (add_job_state db (PStr j) user_id JobStates.STATE_ANALYZING) ;;
       try_except
         (result <- analyze_job self job (Some user_id) (Some (fst p)) (snd p) true ;;
          ret (<["status" := PStr "success"]> result))
         (fun e =>
            ret (mkdict [ ("status", PStr "error"); ("job_id", PStr j);
                          ("error", PStr (str_exn e)) ])))%eff
  end.

End Queue.

Arguments database_reads : clear implicits.
Arguments preferences : clear implicits.
Arguments callback : clear implicits.
Arguments queue_world : clear implicits.

End JobAnalysisQueue.

(** ** services/preference_service.py: single preferences and categories

    [table] is the content of [user_preferences], whose rows are unique
    per (user_id, category, name); the column [updated_at] is not read by
    any method and is left out, as in the record above. *)
Module PreferenceServiceAccess.
Import PreferenceService.

(** The row is the one of [user_id], [category] and [name]. *)
Definition is_pref (uid : Z) (cat nm : string) (p : user_preference) : bool :=
  (user_id p =? uid)%Z && String.eqb (category p) cat && String.eqb (name p) nm.

(** [set_preference]: [INSERT OR REPLACE] removes the row that conflicts
    on the unique key and appends the new one, to which the engine gives
    the id [rowid]. *)
Definition set_preference `{Runtime} (uid : Z) (cat nm : string) (v : pyval)
    (rowid : Z) (table : list user_preference) : list user_preference :=
  let json_value := json_dumps v in
  List.filter (fun p => negb (is_pref uid cat nm p)) table
    ++ [UserPreference rowid uid cat nm json_value].

(** [get_preference]. *)
Definition get_preference `{Runtime} (uid : Z) (cat nm : string) (default : pyval)
    (table : list user_preference) : outcome pyval :=
  match head (List.filter (is_pref uid cat nm) table) with
  | Some result => json_deserialize (value result)
  | None => Return default
  end.

(** The loop of [get_preferences_by_category] over the fetched rows. *)
Fixpoint load_category `{Runtime} (results : list user_preference)
    (preferences : gmap string pyval) : outcome (gmap string pyval) :=
  match results with
  | [] => Return preferences
  | pref :: rest =>
      match json_deserialize (value pref) with
      | Raise e => Raise e
      | Return v => load_category rest (<[name pref := v]> preferences)
      end
  end.

(** [DEFAULT_PREFERENCES[category]], when the category is a key. *)
Definition defaults_of (defaults : list (string * list (string * pyval)))
    (cat : string) : option (list (string * pyval)) :=
  match List.find (fun entry => String.eqb (fst entry) cat) defaults with
  | Some entry => Some (snd entry)
  | None => None
  end.

Definition get_preferences_by_category `{Runtime} (cfg : Config.t)
    (table : list user_preference) (uid : Z) (cat : string)
    : outcome (gmap string pyval) :=
  let results :=
    List.filter (fun p => (user_id p =? uid)%Z && String.eqb (category p) cat) table in
  match load_category results ∅ with
  | Raise e => Raise e
  | Return preferences =>
      Return (match defaults_of (DEFAULT_PREFERENCES cfg) cat with
              | Some default_prefs => fill_names default_prefs preferences
              | None => preferences
              end)
  end.

End PreferenceServiceAccess.

(** ** utils/security.py: validation of JSON input

    [field_validators] is a dict, walked in insertion order; a validator
    maps the value of its field to a flag and a message. *)
Module SecurityInput.

Definition validator : Type := pyval -> bool * option string.

(** [f"{message}"] for an [Optional[str]]. *)
Definition str_message (message : option string) : string :=
  match message with
  | Some s => s
  | None => "None"
  end.

(** The first loop: the first required field that is not in [data]. *)
Fixpoint first_missing (data : gmap string pyval) (required_fields : list string)
    : option string :=
  match required_fields with
  | [] => None
  | field :: rest =>
      match data !! field with
      | Some _ => first_missing data rest
      | None => Some field
      end
  end.

(** The second loop: the message for the first validator that rejects
    the value of its field; fields that are not in [data] are passed
    over. *)
Fixpoint first_invalid (data : gmap string pyval)
    (field_validators : list (string * validator)) : option string :=
  match field_validators with
  | [] => None
  | (field, check) :: rest =>
      match data !! field with
      | Some v =>
          let (valid, message) := check v in
          if valid then first_invalid data rest
          else Some ("Invalid " +:+ field +:+ ": " +:+ str_message message)
      | None => first_invalid data rest
      end
  end.

Definition validate_json_input (data : gmap string pyval)
    (required_fields : list string)
    (field_validators : option (list (string * validator))) : bool * option string :=
  match first_missing data required_fields with
  | Some field => (false, Some ("Missing required field: " +:+ field))
  | None =>
      match field_validators with
      | Some validators =>
          match first_invalid data validators with
          | Some message => (false, Some message)
          | None => (true, None)
          end
      | None => (true, None)
      end
  end.

End SecurityInput.

(** ** services/orchestrator_service.py: job details, state updates and
    deletion

    The orchestrator works on the database service; as there, the clock
    reading of a write is passed in as [now]. *)
Module OrchestratorService.
Import DatabaseService.

(** The dict [get_job_details] returns. *)
Record job_details : Type := JobDetails {
  job : job_listing;
  analysis : option (job_analysis * pyval);
  state_history : list job_state;
  current_state : option job_state
}.

Definition get_job_details `{SqlOrder} `{Runtime} (j : string) (user_id : Z)
    (now : Z) (d : db) : outcome job_details * db :=
  match get_job_by_id j d with
  | None => (Raise (Exn ValueError ("Job not found: " +:+ j)), d)
  | Some listing =>
      match DatabaseServiceListings.get_job_analysis j user_id d with
      | Raise e => (Raise e, d)
      | Return stored =>
          let history := get_job_state_history j user_id d in
          let current := get_current_job_state j user_id d in
          let details := JobDetails listing stored history current in
          match current with
          | Some row =>
              if existsb (String.eqb (state row))
                   [JobStates.STATE_RELEVANT; JobStates.STATE_SAVED]
              then
                match add_job_state j user_id JobStates.STATE_VIEWED None now d with
                | (Return _, d') => (Return details, d')
                | (Raise e, d') => (Raise e, d')
                end
              else (Return details, d)
          | None => (Return details, d)
          end
      end
  end.

(** The dict [update_job_state] returns. *)
Record state_update : Type := StateUpdate {
  status : string;
  updated_job_id : string;
  updated_state : option job_state
}.

Definition update_job_state `{SqlOrder} (j : string) (user_id : Z)
    (new_state : string) (nts : option string) (now : Z) (d : db)
    : outcome state_update * db :=
  if negb (existsb (String.eqb new_state)
             [JobStates.STATE_SAVED; JobStates.STATE_APPLIED; JobStates.STATE_REJECTED])
  then (Raise (Exn ValueError ("Invalid state transition: " +:+ new_state)), d)
  else
    match add_job_state j user_id new_state nts now d with
    | (Raise e, d') => (Raise e, d')
    | (Return _, d') =>
        (Return (StateUpdate "success" j (get_current_job_state j user_id d')), d')
    end.

(** [delete_job]: the status and the message of the dict it returns. *)
Definition delete_job `{SqlOrder} `{Runtime} (j : string) (user_id : Z)
    (now : Z) (d : db) : (string * string) * db :=
  match get_job_details j user_id now d with
  | (Return _, d1) =>
      let (success, d2) := DatabaseService.delete_job j (Some user_id) d1 in
      if success
      then (("success", "Job has been permanently deleted"), d2)
      else (("error", "Failed to delete job"), d2)
  | (Raise e, d1) =>
      if is_ValueError e
      then (("error", str_exn e), d1)
      else (("error", "Unexpected error: " +:+ str_exn e), d1)
  end.

End OrchestratorService.

(** ** services/scraper_service.py: the handler of a scraped posting

    [_handle_data] is modelled by what it does to the scraping session
    and to the store: the fields [current_user_id], [allowed_job_ids] and
    [current_jobs] of the service and the tables of the database service.
    The status callback, [pending_url_jobs] and the request to stop the
    scraper act on none of them, and their exceptions are caught, so they
    are left out.  [clock] gives the successive clock readings,
    [set_order] and [rowid] are those of [add_job_listing]. *)
Module ScraperService.
Import DatabaseService.

(** The fields of [EventData] that the handler reads. *)
Record event_data : Type := EventData {
  e_job_id : string;
  e_title : string;
  e_company : string;
  e_location : string;
  e_description : string;
  e_link : string;
  e_query : string
}.

Record session : Type := Session {
  current_user_id : option Z;
  allowed_job_ids : option (list string);
  current_jobs : gset string;
  store : db;
  clock_reads : nat
}.

Definition job_data_of (data : event_data) : gmap string string :=
  list_to_map
    [ ("job_id", e_job_id data); ("title", e_title data);
      ("company", e_company data); ("location", e_location data);
      ("description", e_description data); ("url", e_link data);
      ("source_term", e_query data) ].

(** The states after which a posting that is scraped again is not queued
    again. *)
Definition POST_ANALYSIS_STATES : list string :=
  [ JobStates.STATE_ANALYZED; JobStates.STATE_RELEVANT; JobStates.STATE_IRRELEVANT;
    JobStates.STATE_VIEWED; JobStates.STATE_SAVED; JobStates.STATE_APPLIED;
    JobStates.STATE_REJECTED ].

(** A write of the database service, at the next clock reading. *)
Definition write {A : Type} (clock : nat -> Z) (op : Z -> db -> outcome A * db)
    : M session A :=
  fun s =>
    let (r, d') := op (clock (clock_reads s)) (store s) in
    (r, Session (current_user_id s) (allowed_job_ids s) (current_jobs s) d'
          (S (clock_reads s))).

(** A read of the database service. *)
Definition read {A : Type} (query : db -> A) : M session A :=
  fun s => (Return (query (store s)), s).

(** [self.allowed_job_ids and data.job_id not in self.allowed_job_ids]. *)
Definition not_allowed (allowed : option (list string)) (j : string) : bool :=
  match allowed with
  | Some (_ :: _ as ids) => negb (existsb (String.eqb j) ids)
  | _ => false
  end.

(** The two states a posting gets when the user sees it first. *)
Definition enqueue_new (clock : nat -> Z) (j : string) (u : Z) : M session unit :=
  (_ <- write clock (add_job_state j u JobStates.STATE_NEW_SCRAPED None) ;;
   _ <- write clock (add_job_state j u JobStates.STATE_QUEUED_FOR_ANALYSIS None) ;;
   ret tt)%eff.

(** The body of the [try] block, up to the callback. *)
Definition process_job `{SqlOrder} (clock : nat -> Z)
    (set_order : list string -> list string) (rowid : Z) (data : event_data) (u : Z)
    : M session unit :=
  (existing_job <- read (get_job_by_id (e_job_id data)) ;;
   match existing_job with
   | None =>
       _ <- write clock
              (fun now =>
                 DatabaseServiceListings.add_job_listing set_order (job_data_of data)
                   now rowid) ;;
       enqueue_new clock (e_job_id data) u
   | Some _ =>
       current_state <- read (get_current_job_state (e_job_id data) u) ;;
       match current_state with
       | None => enqueue_new clock (e_job_id data) u
       | Some row =>
           if negb (existsb (String.eqb (state row)) POST_ANALYSIS_STATES)
           then
             _ <- write clock
                    (add_job_state (e_job_id data) u
                       JobStates.STATE_QUEUED_FOR_ANALYSIS None) ;;
             ret tt
           else ret tt
       end
   end)%eff.

(** [_handle_data]: what an exception inside the [try] block leaves
    behind stays. *)
Definition _handle_data `{SqlOrder} (clock : nat -> Z)
    (set_order : list string -> list string) (rowid : Z) (data : event_data)
    (s : session) : session :=
  match current_user_id s with
  | Some u =>
      if (u =? 0)%Z then s
      else if not_allowed (allowed_job_ids s) (e_job_id data) then s
      else if bool_decide (e_job_id data ∈ current_jobs s) then s
      else
        snd (process_job clock set_order rowid data u
               (Session (current_user_id s) (allowed_job_ids s)
                  ({[e_job_id data]} ∪ current_jobs s) (store s) (clock_reads s)))
  | None => s
  end.

End ScraperService.

(** ** Notions used by the further properties *)
Section FurtherVocabulary.
Import DatabaseService.

(** The number of state rows of a user that carry a given state. *)
Definition state_rows (user_id : Z) (st : string) (d : db) : nat :=
  length
    (List.filter (fun s => String.eqb (state s) st)
       (List.filter (fun s => (s_user_id s =? user_id)%Z) (job_states d))).

End FurtherVocabulary.

Section StrategyVocabulary.
Import TitleAnalysisStrategy.

(** What [k] failed attempts that are retried leave in the trace: a
    completion request and a sleep each, for the attempts from [attempt]
    on and the random draws from [draw] on. *)
Fixpoint retry_trace (self : t) (rnd : nat -> float) (prompt : string)
    (attempt draw k : nat) : list event :=
  match k with
  | O => []
  | Datatypes.S k' =>
      Completion prompt :: Sleep (sleep_time self attempt (rnd draw))
        :: retry_trace self rnd prompt (Datatypes.S attempt) (Datatypes.S draw) k'
  end.

Definition is_dict (v : pyval) : bool :=
  match v with
  | PDict _ => true
  | _ => false
  end.

End StrategyVocabulary.

Section TextVocabulary.

(** The character [c] does not occur in [s]. *)
Definition no_char (c : ascii) (s : string) : bool :=
  forallb (fun a => negb (Ascii.eqb a c)) (chars s).

(** A stand-in for [json.loads] that reads the empty object and nothing
    else. *)
Definition empty_object_runtime : Runtime :=
  {| json_loads := fun s =>
       if String.eqb s "{}" then inr (PDict ∅) else inl "Expecting value";
     json_dumps := fun _ => "{}";
     float_of_str := fun _ => None |}.

End TextVocabulary.

Section LevelVocabulary.

(** The scores at which the relevance level changes. *)
Definition level_cuts : list float := [0.2; 0.4; 0.7; 0.9]%float.

(** How many of them a score has reached. *)
Definition cuts_reached (score : float) : nat :=
  length (List.filter (fun cut => PrimFloat.leb cut score) level_cuts).

(** The score lies in the unit interval. *)
Definition unit_score (score : float) : Prop :=
  PrimFloat.leb 0 score = true /\ PrimFloat.leb score 1 = true.

End LevelVocabulary.

Section OrchestratorVocabulary.
Import DatabaseService.

(** The current state of the pair is one that [get_job_details] turns
    into [viewed]. *)
Definition awaits_view `{SqlOrder} (j : string) (user_id : Z) (d : db) : bool :=
  match get_current_job_state j user_id d with
  | Some row =>
      existsb (String.eqb (state row)) [JobStates.STATE_RELEVANT; JobStates.STATE_SAVED]
  | None => false
  end.

(** The row a state write appends to [d]. *)
Definition new_state_row (j : string) (user_id : Z) (st : string)
    (nts : option string) (now : Z) (d : db) : job_state :=
  JobState (seq_job_states d + 1) j user_id st now nts.

(** A store on which job 4021 is listed and, for user 7, relevant since
    time 3. *)
Definition relevant_db : db :=
  Db [ JobListing 1 "4021" "Machine Learning Engineer" "Acme" "" ""
         "https://jobs.example/4021" 0 "" ]
     [ JobState 1 "4021" 7 "queued_for_analysis" 1 None;
       JobState 2 "4021" 7 "analyzed" 2 None;
       JobState 3 "4021" 7 "relevant" 3 None ]
     [] 3 0.

End OrchestratorVocabulary.

Section PasswordVocabulary.

(** A random source whose first two choices are [a] and [A] and whose
    later choices are all [0]. *)
Definition letters_then_zeros (k : nat) : nat :=
  match k with
  | O => 0
  | Datatypes.S O => 26
  | _ => 52
  end.

End PasswordVocabulary.

Section PreferenceExamples.
Import PreferenceService.

(** The configuration of an installation without environment settings. *)
Definition example_config : Config.t :=
  Config.Make [ "AI Engineer"; "Machine Learning Engineer"; "Data Scientist" ]
              [ "New York, NY"; "San Francisco, CA" ] "daily" "08:00" 0.7%float.

(** User 7 has stored one preference, the empty object as dashboard
    layout. *)
Definition example_preferences : list user_preference :=
  [ UserPreference 1 7 "ui" "dashboard_layout" "{}" ].

End PreferenceExamples.

Section QueueVocabulary.
Import JobAnalysisService JobAnalysisQueue.

(** The updates one analysed job makes to the counters. *)
Definition counted_once (r r' : results) : Prop :=
  r' = bump_relevant (bump_analyzed r)
  \/ r' = bump_not_relevant (bump_analyzed r)
  \/ r' = bump_relevant (bump_skipped (bump_analyzed r))
  \/ r' = bump_not_relevant (bump_skipped (bump_analyzed r)).

(** Test doubles on a world without state: a database service that
    accepts every write, reads that find the given queue, analysis and
    listing, and a preference service without stored preferences. *)
Definition accepting_database : database unit :=
  {| add_job_analysis := fun _ _ _ _ s => (Return 1%Z, s);
     add_job_state := fun _ _ _ s => (Return 1%Z, s) |}.

Definition fixed_reads (queued : list (gmap string pyval)) (existing : option float)
    (listing : option (gmap string pyval)) : database_reads unit :=
  {| get_jobs_by_state := fun _ _ _ s => (Return queued, s);
     get_job_analysis := fun _ _ s => (Return existing, s);
     get_job_by_id := fun _ s => (Return listing, s) |}.

Definition no_preferences : preferences unit :=
  {| get_preferences_by_category := fun _ _ s => (Return ∅, s) |}.

End QueueVocabulary.

Section CallVocabulary.
Import JobAnalysisService.
Definition is_db_call (c : call) : bool :=
  match c with
  | AddJobAnalysis _ _ _ _ | AddJobState _ _ _ => true
  | _ => false
  end.

Definition is_strategy_call (c : call) : bool :=
  match c with
  | TitleAnalyze _ | DescriptionAnalyze _ => true
  | _ => false
  end.

(** The state writes of one persisted analysis, in order: the state
    [analyzed], then [relevant] or [irrelevant], both for job [j] and user
    [u]; an exception may cut the sequence short. *)
Definition state_calls (j : pyval) (u : Z) (l : list call) : Prop :=
  match l with
  | [] => True
  | AddJobState j1 u1 st1 :: rest =>
      j1 = j /\ u1 = u /\ st1 = JobStates.STATE_ANALYZED
      /\ match rest with
         | [] => True
         | [AddJobState j2 u2 st2] =>
             j2 = j /\ u2 = u
             /\ (st2 = JobStates.STATE_RELEVANT \/ st2 = JobStates.STATE_IRRELEVANT)
         | _ => False
         end
  | _ => False
  end.

(** The database writes of one persisted analysis: the analysis row, then
    the state writes for the same job and user. *)
Definition persist_calls (l : list call) : Prop :=
  match l with
  | [] => True
  | AddJobAnalysis j u _ _ :: rest => state_calls j u rest
  | _ => False
  end.

(** The calls of one [analyze_job]: the title strategy first, then at most
    one call of the description strategy, then the database writes. *)
Definition analysis_calls (l : list call) : Prop :=
  match l with
  | [] => True
  | TitleAnalyze _ :: DescriptionAnalyze _ :: rest => persist_calls rest
  | TitleAnalyze _ :: rest => persist_calls rest
  | _ => False
  end.

(** A strategy that always raises [e]. *)
Definition failing_strategy {S : Type} (e : exn) : strategy S :=
  {| analyze := fun _ s => (Raise e, s) |}.

End CallVocabulary.

(** ** Notions used by the properties of the scraper *)
Section ScraperVocabulary.
Import ScraperService.

(** A step of the handler that touches the store and the clock only. *)
Definition keeps_session {A : Type} (m : M session A) : Prop :=
  forall s,
    current_user_id (snd (m s)) = current_user_id s
    /\ allowed_job_ids (snd (m s)) = allowed_job_ids s
    /\ current_jobs (snd (m s)) = current_jobs s.

End ScraperVocabulary.

(* ===================================================================== *)
(** * Part II: properties *)
(* ===================================================================== *)

(** ** Facts about the comparisons *)
Section Comparisons.

Lemma SFcompare_Lt_swap (a b : spec_float) :
  SFcompare a b = Some Lt -> SFcompare b a = Some Gt.
Proof.
  destruct a as [sa|sa| |sa ma ea], b as [sb|sb| |sb mb eb]; simpl;
    try destruct sa; try destruct sb; simpl; try congruence.
  all: rewrite (Z.compare_antisym ea eb); destruct (ea ?= eb)%Z; simpl; try congruence.
  all: change (PosDef.Pos.compare_cont Eq mb ma) with (mb ?= ma)%positive;
       change (PosDef.Pos.compare_cont Eq ma mb) with (ma ?= mb)%positive;
       rewrite (Pos.compare_antisym ma mb);
       destruct (ma ?= mb)%positive; simpl; congruence.
Qed.

(** [x < y] excludes [x >= y] on doubles. *)
Lemma ltb_leb_false (x y : float) :
  PrimFloat.ltb x y = true -> PrimFloat.leb y x = false.
Proof.
  rewrite ltb_spec, leb_spec. unfold SFltb, SFleb.
  destruct (SFcompare (Prim2SF x) (Prim2SF y)) as [[]|] eqn:E; try discriminate.
  intros _. now rewrite (SFcompare_Lt_swap _ _ E).
Qed.







End Comparisons.

(** ** The evaluation harness *)
Section Evaluator.
Import TitleStrategyEvaluator.

(** C9.  The level-mapping function sends 0.0 and 0.19 to [irrelevant],
    0.2 to [low], 0.69 to [medium], 0.7 and 0.89 to [high], 0.9 and 1.0 to
    [very_high]; 0.9 is placed by its range, while 1.0 lies in no range and
    is placed by the dedicated edge case; and the distance between
    [irrelevant] and [very_high] is 4. *)
Theorem relevance_level_bucketing :
  map _get_relevance_level [0.0; 0.19; 0.2; 0.69; 0.7; 0.89; 0.9; 1.0]%float
  = [ "irrelevant"; "irrelevant"; "low"; "medium"; "high"; "high";
      "very_high"; "very_high" ]
  /\ first_level RELEVANCE_LEVELS 0.9%float = Some "very_high"
  /\ first_level RELEVANCE_LEVELS 1.0%float = None
  /\ PrimFloat.eqb 1.0 1.0 = true
  /\ _calculate_level_distance "irrelevant" "very_high" = 4%Z.
Proof. repeat split; vm_compute; reflexivity. Qed.

End Evaluator.

(** ** The password generator and validator *)
Section Passwords.
Import Security.

Lemma candidate_length (rnd : nat -> nat) (n k : nat) :
  length (candidate rnd n k) = n.
Proof. revert k. induction n as [|n IH]; intros k; simpl; [reflexivity|]. now rewrite IH. Qed.

Lemma chars_of_chars (l : list ascii) : chars (of_chars l) = l.
Proof. apply list_ascii_of_string_of_list_ascii. Qed.

Lemma length_of_chars (l : list ascii) : String.length (of_chars l) = length l.
Proof. induction l as [|c l IH]; simpl; [reflexivity|]. now rewrite IH. Qed.

(** What leaves the loop is a candidate of the requested length that met
    the loop's condition. *)
Lemma generate_password_from_acceptable (fuel : nat) (rnd : nat -> nat)
    (len : Z) (k : nat) (pw : string) :
  generate_password_from fuel rnd len k = Some pw ->
  acceptable (chars pw) = true /\ String.length pw = Z.to_nat len.
Proof.
  revert k. induction fuel as [|fuel IH]; intros k; simpl; [discriminate|].
  destruct (acceptable (candidate rnd (Z.to_nat len) k)) eqn:Hacc.
  - intros [= <-]. rewrite chars_of_chars, length_of_chars, candidate_length. auto.
  - apply IH.
Qed.

Lemma count_where_existsb (p : ascii -> bool) (l : list ascii) :
  (0 < count_where p l)%nat -> existsb p l = true.
Proof.
  unfold count_where. induction l as [|c l IH]; simpl; [lia|].
  destruct (p c); simpl; auto.
Qed.

(** C8 (counterexample).  With the random source choosing [a], [B], [0],
    [1], [2] and then [a] seven times, the first candidate of length 12
    already meets the loop's condition, so the generator returns it; it has
    no punctuation character and the validator rejects it. *)
Lemma generated_password_rejected :
  generate_password 1 (fun k => nth k [0; 27; 52; 53; 54] 0)%nat 12
  = Some "aB012aaaaaaa"
  /\ validate_password "aB012aaaaaaa"
     = (false, Some "Password must contain at least one special character")
  /\ validate_password "aB012aaaaaaa" <> (true, None).
Proof. repeat split; try (vm_compute; reflexivity). vm_compute. discriminate. Qed.

(** C8 (amended).  Every string the generator can output at a length of
    at least the minimum password length (so at the default length 12)
    passes the length, uppercase, lowercase and digit rules of the
    validator: [validate_password] returns [(True, None)] for it exactly
    when it holds a punctuation character, and the special-character
    message otherwise. *)
Theorem generated_password_validation (fuel : nat) (rnd : nat -> nat)
    (len : Z) (pw : string) :
  (PASSWORD_MIN_LENGTH <= len)%Z ->
  generate_password fuel rnd len = Some pw ->
  validate_password pw
  = if existsb is_punctuation (chars pw)
    then (true, None)
    else (false, Some "Password must contain at least one special character").
Proof.
  intros Hlen Hgen. unfold generate_password in Hgen.
  apply generate_password_from_acceptable in Hgen as [Hacc Hl].
  unfold acceptable in Hacc.
  apply andb_prop in Hacc as [Hacc Hdig]. apply andb_prop in Hacc as [Hlow Hup].
  apply Nat.leb_le in Hdig.
  assert (Hd : existsb isdigit (chars pw) = true)
    by (apply count_where_existsb; lia).
  unfold validate_password. rewrite Hl.
  destruct (Z.ltb_spec (Z.of_nat (Z.to_nat len)) PASSWORD_MIN_LENGTH) as [Hlt|_].
  - unfold PASSWORD_MIN_LENGTH in *. lia.
  - rewrite Hup, Hlow, Hd. simpl.
    destruct (existsb is_punctuation (chars pw)); reflexivity.
Qed.

Lemma generated_password_validation_witness :
  (PASSWORD_MIN_LENGTH <= 12)%Z
  /\ generate_password 1 (fun k => nth k [0; 27; 52; 53; 54; 62] 0)%nat 12
     = Some "aB012!aaaaaa"
  /\ validate_password "aB012!aaaaaa" = (true, None).
Proof.
  assert (Hlen : (PASSWORD_MIN_LENGTH <= 12)%Z) by (vm_compute; discriminate).
  assert (Hgen : generate_password 1 (fun k => nth k [0; 27; 52; 53; 54; 62] 0)%nat 12
                 = Some "aB012!aaaaaa") by (vm_compute; reflexivity).
  split; [exact Hlen|]. split; [exact Hgen|].
  exact (generated_password_validation 1 _ 12 _ Hlen Hgen).
Defined.

End Passwords.

(** ** Preference defaults *)
Section Preferences.
Import PreferenceService.

Lemma load_threshold `{Runtime} (getenv : string -> option string) (cfg : Config.t) :
  Config.load getenv = Return cfg ->
  cfg = Config.Make [ "AI Engineer"; "Machine Learning Engineer"; "Data Scientist" ]
                    [ "New York, NY"; "San Francisco, CA" ] "daily" "08:00"
                    (Config.RELEVANCE_THRESHOLD cfg)
  /\ Config.relevance_threshold_setting getenv = Return (Config.RELEVANCE_THRESHOLD cfg).
Proof.
  unfold Config.load.
  destruct (Config.relevance_threshold_setting getenv) as [x|e]; [|discriminate].
  intros [= <-]. simpl. auto.
Qed.

Lemma fill_defaults_empty (cfg : Config.t) :
  fill_defaults (DEFAULT_PREFERENCES cfg) ∅ = default_dict cfg.
Proof. reflexivity. Qed.

(** C6 (counterexample).  A user without preference rows, in a process
    whose environment sets [RELEVANCE_THRESHOLD=0.5]: the configuration
    loads with that threshold, and [get_all_preferences] reports
    [analysis.relevance_threshold] as 0.5, not as the documented 0.7. *)
Lemma preference_default_follows_environment :
  exists cfg prefs,
    @Config.load example_runtime threshold_environment = Return cfg
    /\ @get_all_preferences example_runtime cfg [] 1%Z = Return prefs
    /\ preference prefs "analysis" "relevance_threshold" = Some (PFloat 0.5)
    /\ preference prefs "analysis" "relevance_threshold" <> Some (PFloat 0.7)
    /\ prefs <> documented_defaults.
Proof.
  eexists. eexists.
  split; [reflexivity|].
  split; [reflexivity|].
  assert (Hne : Some (PFloat 0.5) <> Some (PFloat 0.7)).
  { intros Heq.
    apply (f_equal (fun o => match o with
                             | Some (PFloat f) => PrimFloat.eqb f 0.5
                             | _ => false
                             end)) in Heq.
    vm_compute in Heq. discriminate. }
  split; [reflexivity|].
  split; [exact Hne|].
  intros Heq.
  apply (f_equal (fun p => preference p "analysis" "relevance_threshold")) in Heq.
  exact (Hne Heq).
Qed.

(** C6 (amended).  For a user with no persisted preference row,
    [get_all_preferences] returns exactly the default table, which holds
    the documented literal for every key except
    [analysis.relevance_threshold]; that entry is the configured
    [Config.RELEVANCE_THRESHOLD], read from the environment variable
    [RELEVANCE_THRESHOLD], and when the variable is unset it is 0.7 and the
    result is the documented table. *)
Theorem get_all_preferences_defaults `{Runtime} (getenv : string -> option string)
    (cfg : Config.t) (table : list user_preference) (uid : Z) :
  Config.load getenv = Return cfg ->
  List.filter (fun p => (user_id p =? uid)%Z) table = [] ->
  get_all_preferences cfg table uid = Return (default_dict cfg)
  /\ default_dict cfg
     = <["analysis" :=
           <["relevance_threshold" := PFloat (Config.RELEVANCE_THRESHOLD cfg)]>
             (default ∅ (documented_defaults !! "analysis"))]> documented_defaults
  /\ Config.relevance_threshold_setting getenv = Return (Config.RELEVANCE_THRESHOLD cfg)
  /\ (getenv "RELEVANCE_THRESHOLD" = None -> default_dict cfg = documented_defaults).
Proof.
  intros Hload Hrows.
  apply load_threshold in Hload as [Hcfg Hthr].
  split.
  - unfold get_all_preferences. rewrite Hrows. cbn [load_rows].
    rewrite fill_defaults_empty. reflexivity.
  - split; [|split; [exact Hthr|]].
    + rewrite Hcfg. reflexivity.
    + intros Hunset. unfold Config.relevance_threshold_setting in Hthr.
      rewrite Hunset in Hthr. injection Hthr as Hthr.
      rewrite Hcfg, <- Hthr. reflexivity.
Qed.

Lemma get_all_preferences_defaults_witness :
  exists cfg,
    @Config.load example_runtime (fun _ => None) = Return cfg
    /\ @get_all_preferences example_runtime cfg
         [ UserPreference 1 2 "ui" "mobile_view" "full" ] 1%Z
       = Return documented_defaults.
Proof.
  eexists. split; [reflexivity|].
  destruct (@get_all_preferences_defaults example_runtime (fun _ => None) _
              [ UserPreference 1 2 "ui" "mobile_view" "full" ] 1%Z
              eq_refl eq_refl) as (Hget & _ & _ & Hdoc).
  rewrite Hget, (Hdoc eq_refl). reflexivity.
Defined.

End Preferences.

(** ** Binary64 rounding, and the range of the retry sleep

    The sleep of the title strategy is [b + c * r] in binary64, with [b]
    the backoff, [c = b * 0.2] and [r] the number drawn.  The lemmas below
    follow the rounding of the product and of the sum on the
    specification of the binary64 operations, and bound the result for a
    draw in [0, 1). *)
Section BinaryRounding.
Local Open Scope Z_scope.

Lemma digits2_pos_bounds (p : positive) :
  2 ^ (Zpos (digits2_pos p) - 1) <= Zpos p < 2 ^ Zpos (digits2_pos p).
Proof.
  induction p as [p IH|p IH|]; cbn [digits2_pos].
  - rewrite Pos2Z.inj_succ, Z.pow_succ_r by lia.
    replace (Z.succ (Zpos (digits2_pos p)) - 1) with (Z.succ (Zpos (digits2_pos p) - 1)) by lia.
    rewrite Z.pow_succ_r by lia. lia.
  - rewrite Pos2Z.inj_succ, Z.pow_succ_r by lia.
    replace (Z.succ (Zpos (digits2_pos p)) - 1) with (Z.succ (Zpos (digits2_pos p) - 1)) by lia.
    rewrite Z.pow_succ_r by lia. lia.
  - cbn. lia.
Qed.

Lemma iter_pos_nat {A : Type} (f : A -> A) (p : positive) :
  forall x, SpecFloat.iter_pos f p x = Nat.iter (Pos.to_nat p) f x.
Proof.
  induction p as [p IH|p IH|]; intros x; cbn [SpecFloat.iter_pos].
  - rewrite !IH, Pos2Nat.inj_xI.
    replace (S (2 * Pos.to_nat p)) with (Pos.to_nat p + (Pos.to_nat p + 1))%nat by lia.
    rewrite !Nat.iter_add. reflexivity.
  - rewrite !IH, Pos2Nat.inj_xO.
    replace (2 * Pos.to_nat p)%nat with (Pos.to_nat p + Pos.to_nat p)%nat by lia.
    rewrite Nat.iter_add. reflexivity.
  - reflexivity.
Qed.

Lemma shr_1_spec (m : Z) (r s : bool) :
  0 <= m ->
  shr_m (shr_1 (Build_shr_record m r s)) = m / 2
  /\ shr_r (shr_1 (Build_shr_record m r s)) = Z.odd m.
Proof.
  intros Hm. rewrite <- Z.div2_div.
  destruct m as [|[p|p|]|p]; cbn [shr_1 shr_m shr_r]; try lia; split; reflexivity.
Qed.

Lemma shr_iter (M : Z) (k : nat) :
  0 <= M ->
  let mrs := Nat.iter k shr_1 (Build_shr_record M false false) in
  shr_m mrs = M / 2 ^ Z.of_nat k
  /\ (shr_r mrs = true -> 2 ^ Z.of_nat k <= 2 * (M mod 2 ^ Z.of_nat k)).
Proof.
  intros HM. induction k as [|k IH]; cbv zeta in *.
  - cbn [Nat.iter shr_m shr_r]. split; [now rewrite Z.div_1_r|discriminate].
  - rewrite Nat.iter_succ. destruct IH as [Hm _].
    destruct (Nat.iter k shr_1 _) as [m r s]. cbn [shr_m] in Hm.
    assert (Hpos : 0 < 2 ^ Z.of_nat k) by (apply Z.pow_pos_nonneg; lia).
    assert (Hm0 : 0 <= m) by (subst m; apply Z.div_pos; lia).
    destruct (shr_1_spec m r s Hm0) as [H1 H2]. rewrite H1, H2.
    rewrite Nat2Z.inj_succ, Z.pow_succ_r by lia.
    split.
    + subst m. rewrite Z.div_div by lia. f_equal. lia.
    + intros Hodd.
      rewrite (Z.mul_comm 2 (2 ^ Z.of_nat k)).
      rewrite Z.rem_mul_r by lia.
      rewrite <- Hm.
      rewrite Zmod_odd, Hodd.
      pose proof (Z.mod_pos_bound M (2 ^ Z.of_nat k) Hpos). lia.
Qed.

Lemma round_nearest_even_cases (mrs : shr_record) :
  let m2 := round_nearest_even (shr_m mrs) (loc_of_shr_record mrs) in
  m2 = shr_m mrs \/ (m2 = shr_m mrs + 1 /\ shr_r mrs = true).
Proof.
  destruct mrs as [m [] []]; cbn [round_nearest_even loc_of_shr_record shr_m shr_r]; auto.
  destruct (Z.even m); auto.
Qed.

Lemma fexp_eq (e : Z) : fexp prec emax e = Z.max (e - 53) (-1074).
Proof. reflexivity. Qed.

Lemma Zdigits2_le (m q : Z) : 0 < m -> m < 2 ^ q -> 0 <= q -> 0 < Zdigits2 m <= q.
Proof.
  intros Hm Hlt Hq. destruct m as [|p|p]; try lia. cbn [Zdigits2].
  split; [lia|].
  pose proof (digits2_pos_bounds p) as [Hlo _].
  assert (Hpow : 2 ^ (Zpos (digits2_pos p) - 1) < 2 ^ q) by lia.
  apply Z.pow_lt_mono_r_iff in Hpow; lia.
Qed.

Lemma Zdigits2_gt (m : Z) : 0 < m -> m < 2 ^ Zdigits2 m.
Proof.
  intros Hm. destruct m as [|p|p]; try lia. cbn [Zdigits2].
  apply digits2_pos_bounds.
Qed.

Lemma Zdigits2_ge (m q : Z) : 0 < m -> 2 ^ q <= m -> q < Zdigits2 m.
Proof.
  intros Hm Hle. pose proof (Zdigits2_gt m Hm) as Hgt.
  destruct (Z.lt_ge_cases q (Zdigits2 m)) as [|Hge]; [assumption|exfalso].
  assert (0 <= Zdigits2 m) by (destruct m; cbn; lia).
  pose proof (Z.pow_le_mono_r 2 (Zdigits2 m) q ltac:(lia) Hge). lia.
Qed.

(** Rounding a positive integer mantissa that has to lose [n] bits. *)
Lemma binary_round_aux_pos (M E n : Z) :
  0 < M ->
  n = fexp prec emax (Zdigits2 M + E) - E ->
  0 < n -> E + n <= 970 ->
  exists m2,
    M / 2 ^ n <= m2 <= M / 2 ^ n + 1
    /\ (m2 = M / 2 ^ n + 1 -> 2 ^ n <= 2 * (M mod 2 ^ n))
    /\ m2 <= 2 ^ 53
    /\ binary_round_aux prec emax false M E loc_Exact
       = if m2 =? 0 then S754_zero false
         else if m2 <? 2 ^ 53 then S754_finite false (Z.to_pos m2) (E + n)
         else S754_finite false (Z.to_pos (2 ^ 52)) (E + n + 1).
Proof.
  intros HM Hn Hpos He.
  assert (Hshr : shr_fexp prec emax M E loc_Exact
                 = (Nat.iter (Z.to_nat n) shr_1 (Build_shr_record M false false), E + n)).
  { unfold shr_fexp. rewrite <- Hn. cbn [shr_record_of_loc].
    destruct n as [|p|p]; try lia. cbn [shr]. now rewrite iter_pos_nat. }
  destruct (shr_iter M (Z.to_nat n) ltac:(lia)) as [Hm1 Hr1].
  rewrite Z2Nat.id in Hm1, Hr1 by lia.
  unfold binary_round_aux. rewrite Hshr.
  set (mrs := Nat.iter (Z.to_nat n) shr_1 (Build_shr_record M false false)) in *.
  pose proof (round_nearest_even_cases mrs) as Hround. cbv zeta in Hround.
  set (m2 := round_nearest_even (shr_m mrs) (loc_of_shr_record mrs)) in *.
  assert (Hpow : 0 < 2 ^ n) by (apply Z.pow_pos_nonneg; lia).
  assert (Hm1pos : 0 <= M / 2 ^ n) by (apply Z.div_pos; lia).
  assert (Hemin : -1074 <= E + n) by (rewrite Hn, fexp_eq; lia).
  assert (Hm1lt : M / 2 ^ n < 2 ^ 53).
  { apply Z.div_lt_upper_bound; [lia|].
    pose proof (Zdigits2_gt M HM) as Hgt.
    assert (Hd : Zdigits2 M <= n + 53) by (rewrite Hn, fexp_eq; lia).
    assert (0 <= Zdigits2 M) by (destruct M; cbn; lia).
    pose proof (Z.pow_le_mono_r 2 _ _ ltac:(lia) Hd) as Hle.
    rewrite Z.pow_add_r in Hle by lia. lia. }
  exists m2. rewrite Hm1 in Hround.
  split; [lia|]. split; [intros Hup; apply Hr1; destruct Hround as [|[_ ?]]; [lia|assumption]|].
  split; [lia|].
  assert (Hm2 : 0 <= m2 <= 2 ^ 53) by lia.
  destruct (Z.eqb_spec m2 0) as [H0|H0].
  - rewrite H0. unfold shr_fexp. cbn [Zdigits2 shr_record_of_loc]. rewrite fexp_eq.
    destruct (Z.max (0 + (E + n) - 53) (-1074) - (E + n)) as [|p|p] eqn:Hs; try lia;
      reflexivity.
  - destruct (Z.ltb_spec m2 (2 ^ 53)) as [Hlt|Hge].
    + pose proof (Zdigits2_le m2 53 ltac:(lia) Hlt ltac:(lia)) as Hd.
      unfold shr_fexp. cbn [shr_record_of_loc]. rewrite fexp_eq.
      destruct (Z.max (Zdigits2 m2 + (E + n) - 53) (-1074) - (E + n)) as [|p|p] eqn:Hs;
        try lia; cbn [shr shr_m];
        (destruct m2 as [|p2|p2]; try lia;
         replace (E + n <=? emax - prec) with true
           by (symmetry; apply Z.leb_le; unfold emax, prec; lia);
         reflexivity).
    + assert (Heq : m2 = 2 ^ 53) by lia. rewrite Heq.
      unfold shr_fexp. cbn [shr_record_of_loc]. rewrite fexp_eq.
      change (Zdigits2 (2 ^ 53)) with 54.
      replace (Z.max (54 + (E + n) - 53) (-1074) - (E + n)) with 1 by lia.
      cbn [shr SpecFloat.iter_pos shr_1 shr_m].
      change (shr_m (shr_1 (Build_shr_record (2 ^ 53) false false))) with (2 ^ 52).
      change (2 ^ 52) with (Zpos (Z.to_pos (2 ^ 52))) at 1.
      cbv iota.
      replace (E + n + 1 <=? emax - prec) with true
        by (symmetry; apply Z.leb_le; unfold emax, prec; lia).
      reflexivity.
Qed.

Lemma finite_valid (m : positive) (e : Z) :
  valid_binary (S754_finite false m e) = true ->
  Zpos m < 2 ^ 53 /\ -1074 <= e <= 971
  /\ (Zpos (digits2_pos m) = 53 \/ e = -1074).
Proof.
  cbn [SpecFloat.valid_binary]. unfold bounded, canonical_mantissa.
  rewrite andb_true_iff, Z.eqb_eq, Z.leb_le, fexp_eq. unfold emax, prec.
  intros [Hcanon He].
  pose proof (digits2_pos_bounds m) as [_ Hlt].
  assert (Hd : Zpos (digits2_pos m) <= 53) by lia.
  pose proof (Z.pow_le_mono_r 2 _ _ ltac:(lia) Hd). lia.
Qed.

Lemma SFleb_same_exponent (m1 m2 : positive) (e : Z) :
  Zpos m1 <= Zpos m2 ->
  SFleb (S754_finite false m1 e) (S754_finite false m2 e) = true.
Proof.
  intros Hle. unfold SFleb, SFcompare. rewrite Z.compare_refl.
  change (PosDef.Pos.compare_cont Eq m1 m2) with (m1 ?= m2)%positive.
  destruct (Pos.compare_spec m1 m2); try reflexivity. lia.
Qed.

Lemma SFcompare_finite_Lt (m1 m2 : positive) (e1 e2 : Z) :
  SFcompare (S754_finite false m1 e1) (S754_finite false m2 e2) = Some Lt ->
  e1 < e2 \/ (e1 = e2 /\ Zpos m1 < Zpos m2).
Proof.
  cbn [SFcompare].
  change (PosDef.Pos.compare_cont Eq m1 m2) with (m1 ?= m2)%positive.
  destruct (Z.compare_spec e1 e2); try discriminate; [|lia].
  destruct (Pos.compare_spec m1 m2); try discriminate. lia.
Qed.

(** The jitter term [c * r] for [c] = 0.4 (k = 0) or 0.8 (k = 1) and a
    draw [r] below 1: it is zero or a positive number up to [c]. *)
Lemma jitter_term_bounds (k : Z) (mr : positive) (er : Z) :
  0 <= k <= 1 ->
  valid_binary (S754_finite false mr er) = true ->
  SFcompare (S754_finite false mr er) (S754_finite false 4503599627370496 (-52)) = Some Lt ->
  match SFmul prec emax (S754_finite false 7205759403792794 (k - 54))
          (S754_finite false mr er) with
  | S754_zero false => True
  | S754_finite false my ey =>
      ey < k - 54 \/ (ey = k - 54 /\ Zpos my <= 7205759403792794)
  | _ => False
  end.
Proof.
  intros Hk Hvalid Hlt.
  destruct (finite_valid mr er Hvalid) as (Hmr & He & Hcanon).
  assert (Her : er <= -53).
  { apply SFcompare_finite_Lt in Hlt as [Hl|[Heq Hl]]; [lia|exfalso].
    destruct Hcanon as [Hd|]; [|lia].
    pose proof (digits2_pos_bounds mr) as [Hlo _]. rewrite Hd in Hlo.
    change (2 ^ (53 - 1)) with 4503599627370496 in Hlo. lia. }
  cbn [SFmul xorb].
  set (mc := 7205759403792794%positive).
  set (P := Zpos (mc * mr)). set (E := k - 54 + er).
  assert (HP : P = Zpos mc * Zpos mr) by reflexivity.
  assert (Hpow : 2 ^ 53 <= 2 ^ (- er)) by (apply Z.pow_le_mono_r; lia).
  assert (Hpos : 0 < 2 ^ (- er)) by (apply Z.pow_pos_nonneg; lia).
  assert (HPlt : P < Zpos mc * 2 ^ (- er)) by (rewrite HP; unfold mc; nia).
  assert (HdP : 0 < Zdigits2 P <= 53 - er).
  { apply Zdigits2_le; [lia| |lia].
    replace (53 - er) with (53 + - er) by lia. rewrite Z.pow_add_r by lia.
    unfold mc in HPlt. nia. }
  assert (HdP' : Zpos (digits2_pos mr) + 51 < Zdigits2 P).
  { apply Zdigits2_ge; [lia|].
    pose proof (digits2_pos_bounds mr) as [Hlo _].
    replace (Zpos (digits2_pos mr) + 51) with (52 + (Zpos (digits2_pos mr) - 1)) by lia.
    rewrite Z.pow_add_r by lia. rewrite HP. unfold mc.
    change (2 ^ 52) with 4503599627370496. nia. }
  set (n := fexp prec emax (Zdigits2 P + E) - E).
  assert (Hn : 0 < n /\ E + n <= k - 54).
  { unfold n. rewrite fexp_eq. unfold E. lia. }
  destruct (binary_round_aux_pos P E n ltac:(lia) eq_refl ltac:(lia) ltac:(lia))
    as (m2 & Hm2 & _ & Hm2le & ->).
  assert (Hm1 : E + n = k - 54 -> P / 2 ^ n < Zpos mc).
  { intros Heq. replace n with (- er) by (unfold E in Heq; lia).
    apply Z.div_lt_upper_bound; lia. }
  assert (0 <= P / 2 ^ n).
  { apply Z.div_pos; [lia|]. apply Z.pow_pos_nonneg; lia. }
  destruct (Z.eqb_spec m2 0); [exact I|].
  destruct (Z.ltb_spec m2 (2 ^ 53)).
  - rewrite Z2Pos.id by lia.
    destruct (Z.eq_dec (E + n) (k - 54)) as [Heq|]; [|lia].
    right. split; [exact Heq|]. specialize (Hm1 Heq). unfold mc in Hm1. lia.
  - destruct (Z.eq_dec (E + n) (k - 54)) as [Heq|].
    + specialize (Hm1 Heq). unfold mc in Hm1.
      change (2 ^ 53) with 9007199254740992 in *. lia.
    + destruct (Z.eq_dec (E + n + 1) (k - 54)) as [Heq|]; [|lia].
      right. split; [exact Heq|]. cbn. lia.
Qed.

Lemma iter_xO_value (p d : positive) :
  Zpos (Pos.iter xO p d) = Zpos p * 2 ^ Zpos d.
Proof.
  induction d as [|d IH] using Pos.peano_ind.
  - cbn [Pos.iter]. rewrite Pos2Z.inj_xO. change (2 ^ 1) with 2. lia.
  - rewrite Pos.iter_succ, Pos2Z.inj_xO, IH, Pos2Z.inj_succ, Z.pow_succ_r by lia. lia.
Qed.

(** The backoff [b] = 2 (k = 0) or 4 (k = 1) plus a jitter term between
    zero and a fifth of it: a number from [b] to the binary64 number next
    to [1.2 * b]. *)
Lemma backoff_plus_jitter_bounds (k : Z) (y : spec_float) :
  0 <= k <= 1 ->
  valid_binary y = true ->
  match y with
  | S754_zero _ => True
  | S754_finite false my ey =>
      ey < k - 54 \/ (ey = k - 54 /\ Zpos my <= 7205759403792794)
  | _ => False
  end ->
  exists m,
    SFadd prec emax (S754_finite false 4503599627370496 (k - 51)) y
    = S754_finite false m (k - 51)
    /\ 4503599627370496 <= Zpos m <= 5404319552844595.
Proof.
  intros Hk Hvalid Hy.
  destruct y as [s|s| |[] my ey]; try contradiction.
  { exists 4503599627370496%positive. split; [reflexivity|lia]. }
  destruct (finite_valid my ey Hvalid) as (Hmy & Hey & _).
  assert (Hey' : ey <= k - 54) by lia.
  set (t := k - 51 - ey).
  assert (Ht : 3 <= t) by (unfold t; lia).
  cbn [SFadd].
  replace (Z.min (k - 51) ey) with ey by lia.
  unfold shl_align. rewrite Z.sub_diag.
  destruct (ey - (k - 51)) as [|d|d] eqn:Hd; try lia.
  cbn [fst cond_Zopp].
  assert (Hd' : Zpos d = t) by (unfold t; lia).
  set (a := Pos.iter xO 4503599627370496%positive d).
  assert (Ha : Zpos a = 2 ^ 52 * 2 ^ t).
  { unfold a. rewrite iter_xO_value, Hd'. reflexivity. }
  change (Zpos a + Zpos my) with (Zpos (a + my)).
  cbn [binary_normalize]. unfold binary_round.
  set (S := Zpos (a + my)).
  assert (HS : S = 2 ^ 52 * 2 ^ t + Zpos my) by (unfold S; rewrite Pos2Z.inj_add; lia).
  assert (Hpt : 0 < 2 ^ t) by (apply Z.pow_pos_nonneg; lia).
  assert (Hpt8 : 2 ^ 3 <= 2 ^ t) by (apply Z.pow_le_mono_r; lia).
  assert (HdS : Zdigits2 S = 53 + t).
  { assert (52 + t < Zdigits2 S).
    { apply Zdigits2_ge; [unfold S; lia|]. rewrite Z.pow_add_r by lia. lia. }
    assert (0 < Zdigits2 S <= 53 + t).
    { apply Zdigits2_le; [unfold S; lia| |lia].
      rewrite Z.pow_add_r by lia.
      change (2 ^ 53) with (2 * 2 ^ 52). change (2 ^ 3) with 8 in Hpt8. nia. }
    lia. }
  change (Zpos (digits2_pos (a + my))) with (Zdigits2 S). rewrite HdS, fexp_eq.
  replace (Z.max (53 + t + ey - 53) (-1074)) with (k - 51) by (unfold t; lia).
  unfold shl_align. destruct (k - 51 - ey) as [|d'|d'] eqn:Hd''; try lia.
  fold S.
  destruct (binary_round_aux_pos S ey t ltac:(unfold S; lia)
              ltac:(rewrite HdS, fexp_eq; unfold t; lia) ltac:(lia)
              ltac:(unfold t; lia))
    as (m2 & Hm2 & Hup & _ & ->).
  assert (Hdiv : S / 2 ^ t = 2 ^ 52 + Zpos my / 2 ^ t).
  { rewrite HS. apply Z.div_add_l. lia. }
  assert (Hmod : S mod 2 ^ t = Zpos my mod 2 ^ t).
  { rewrite HS, Z.add_comm. apply Z_mod_plus_full. }
  rewrite Hdiv in Hm2, Hup. rewrite Hmod in Hup.
  assert (Hq : 0 <= Zpos my / 2 ^ t) by (apply Z.div_pos; lia).
  assert (Hq8 : Zpos my / 2 ^ t <= Zpos my / 2 ^ 3).
  { apply Z.div_le_compat_l; lia. }
  change (2 ^ 3) with 8 in *. change (2 ^ 52) with 4503599627370496 in *.
  change (2 ^ 53) with 9007199254740992 in *.
  pose proof (Z.div_mod (Zpos my) 8 ltac:(lia)) as Hdm.
  pose proof (Z.mod_pos_bound (Zpos my) 8 ltac:(lia)) as Hmb.
  assert (Hm2hi : m2 <= 5404319552844595).
  { destruct (Z.eq_dec t 3) as [Ht3|Ht3].
    - rewrite Ht3 in *. change (2 ^ 3) with 8 in *.
      assert (Zpos my <= 7205759403792794) by (unfold t in Ht3; lia).
      destruct (Z.eq_dec m2 (4503599627370496 + Zpos my / 8 + 1)) as [Heq|]; [|lia].
      specialize (Hup Heq). lia.
    - assert (Hpt16 : 2 ^ 4 <= 2 ^ t) by (apply Z.pow_le_mono_r; lia).
      assert (Zpos my / 2 ^ t <= Zpos my / 2 ^ 4).
      { apply Z.div_le_compat_l; lia. }
      change (2 ^ 4) with 16 in *.
      pose proof (Z.div_mod (Zpos my) 16 ltac:(lia)).
      pose proof (Z.mod_pos_bound (Zpos my) 16 ltac:(lia)). lia. }
  destruct (Z.eqb_spec m2 0); [lia|].
  destruct (Z.ltb_spec m2 9007199254740992); [|lia].
  exists (Z.to_pos m2). rewrite Z2Pos.id by lia.
  split; [f_equal; unfold t; lia|lia].
Qed.

Lemma jittered_bounds (k : Z) (b c top r : float) :
  0 <= k <= 1 ->
  Prim2SF b = S754_finite false 4503599627370496 (k - 51) ->
  Prim2SF c = S754_finite false 7205759403792794 (k - 54) ->
  Prim2SF top = S754_finite false 5404319552844595 (k - 51) ->
  (0 <=? r)%float = true -> (r <? 1)%float = true ->
  (b <=? b + c * r)%float = true /\ (b + c * r <=? top)%float = true.
Proof.
  intros Hk Hb Hc Htop H0 H1.
  rewrite leb_spec in H0. rewrite ltb_spec in H1.
  change (Prim2SF 0) with (S754_zero false) in H0.
  change (Prim2SF 1) with (S754_finite false 4503599627370496 (-52)) in H1.
  unfold SFleb in H0. unfold SFltb in H1.
  pose proof (Prim2SF_valid r) as Hvr.
  pose proof (Prim2SF_valid (c * r)) as Hvy.
  pose proof (mul_spec c r) as Hmul. unfold SF64mul in Hmul. rewrite Hc in Hmul.
  assert (Hy : match Prim2SF (c * r) with
               | S754_zero _ => True
               | S754_finite false my ey =>
                   ey < k - 54 \/ (ey = k - 54 /\ Zpos my <= 7205759403792794)
               | _ => False
               end).
  { rewrite Hmul.
    destruct (Prim2SF r) as [s|s| |s mr er].
    - cbn [SFmul]. exact I.
    - destruct s; cbn [SFcompare] in H0, H1; discriminate.
    - discriminate.
    - destruct s; [cbn [SFcompare] in H0; discriminate|].
      pose proof (jitter_term_bounds k mr er Hk Hvr) as Hj.
      destruct (SFcompare (S754_finite false mr er) _) as [[]|] eqn:Hcmp;
        try discriminate.
      specialize (Hj eq_refl).
      destruct (SFmul prec emax _ _) as [[]|s| |[] my ey]; auto. }
  destruct (backoff_plus_jitter_bounds k (Prim2SF (c * r)) Hk Hvy Hy) as (m & Hadd & Hm).
  rewrite !leb_spec, add_spec. unfold SF64add. rewrite Hb, Htop, Hadd.
  split; apply SFleb_same_exponent; lia.
Qed.

Lemma sleep_bounds (r : float) :
  (0 <=? r)%float = true -> (r <? 1)%float = true ->
  ((2 <=? 2 + 2 * 0.2 * r)%float = true /\ (2 + 2 * 0.2 * r <=? 2.4)%float = true)
  /\ ((4 <=? 4 + 4 * 0.2 * r)%float = true /\ (4 + 4 * 0.2 * r <=? 4.8)%float = true).
Proof.
  intros H0 H1. split.
  - apply (jittered_bounds 0 2 (2 * 0.2) 2.4 r); auto; try lia; reflexivity.
  - apply (jittered_bounds 1 4 (4 * 0.2) 4.8 r); auto; try lia; reflexivity.
Qed.

End BinaryRounding.

(** ** The title strategy's retry loop *)
Section TitleStrategy.
Import TitleAnalysisStrategy.

(** An attempt whose completion request raises: the request is made and
    recorded, nothing else happens. *)
Lemma attempt_body_completion_raises (self : t) (prompt : string) (w : world) (e : exn) :
  llm_provider self (completions w) prompt = Raise e ->
  attempt_body self prompt w
  = (Raise e, World (S (completions w)) (draws w) (trace w ++ [Completion prompt])).
Proof.
  intros Hllm. unfold attempt_body, bind, generate_completion. now rewrite Hllm.
Qed.

(** An attempt whose answer the parser rejects. *)
Lemma attempt_body_parser_raises (self : t) (prompt text : string) (w : world) (e : exn) :
  llm_provider self (completions w) prompt = Return text ->
  json_parser self text = Raise e ->
  attempt_body self prompt w
  = (Raise e, World (S (completions w)) (draws w) (trace w ++ [Completion prompt])).
Proof.
  intros Hllm Hparse.
  unfold attempt_body, bind, generate_completion, lift. now rewrite Hllm, Hparse.
Qed.

(** With the prompt built, [analyze] is the loop over attempts 0, 1, 2. *)
Lemma analyze_init (llm : nat -> string -> outcome string)
    (templates : gmap string pyval -> outcome string)
    (parser : string -> outcome pyval)
    (rnd : nat -> float) (kwargs : gmap string pyval) (prompt : string) (w : world) :
  templates kwargs = Return prompt ->
  analyze (init llm templates parser) rnd kwargs w
  = retry_loop (init llm templates parser) rnd prompt [0; 1; 2]%nat w.
Proof.
  intros Hprompt. unfold analyze, bind, lift.
  change (prompt_templates (init llm templates parser) kwargs) with (templates kwargs).
  rewrite Hprompt. reflexivity.
Qed.

(** A failed attempt that is not the last one: one request, one draw, one
    sleep, then the remaining attempts. *)
Lemma retry_loop_retry (self : t) (rnd : nat -> float) (prompt : string)
    (attempt : nat) (rest : list nat) (w : world) (e : exn) :
  llm_provider self (completions w) prompt = Raise e ->
  is_ValueError e = false ->
  (Z.of_nat attempt <? max_retries self - 1)%Z = true ->
  retry_loop self rnd prompt (attempt :: rest) w
  = retry_loop self rnd prompt rest
      (World (S (completions w)) (S (draws w))
         (trace w ++ [Completion prompt; Sleep (sleep_time self attempt (rnd (draws w)))])).
Proof.
  intros Hllm HV Hlt. cbn [retry_loop].
  rewrite (attempt_body_completion_raises self prompt w e Hllm), HV, Hlt.
  unfold bind, random_random, time_sleep. cbn [completions draws trace].
  now rewrite <- app_assoc.
Qed.

(** A failed last attempt: one request, then the fallback result. *)
Lemma retry_loop_give_up (self : t) (rnd : nat -> float) (prompt : string)
    (attempt : nat) (rest : list nat) (w : world) (e : exn) :
  llm_provider self (completions w) prompt = Raise e ->
  is_ValueError e = false ->
  (Z.of_nat attempt <? max_retries self - 1)%Z = false ->
  retry_loop self rnd prompt (attempt :: rest) w
  = (Return (Some (api_error_result e)),
     World (S (completions w)) (draws w) (trace w ++ [Completion prompt])).
Proof.
  intros Hllm HV Hlt. cbn [retry_loop].
  now rewrite (attempt_body_completion_raises self prompt w e Hllm), HV, Hlt.
Qed.

(** With the settings of [__init__] the loop sleeps after the attempts 0
    and 1, for 2 and 4 seconds plus the jitter. *)
Lemma sleep_time_init (llm : nat -> string -> outcome string)
    (templates : gmap string pyval -> outcome string)
    (parser : string -> outcome pyval) (r : float) :
  sleep_time (init llm templates parser) 0 r = (2 + 2 * 0.2 * r)%float
  /\ sleep_time (init llm templates parser) 1 r = (4 + 4 * 0.2 * r)%float.
Proof. split; reflexivity. Qed.

(** The parser raises nothing but [ValueError]. *)
Lemma parse_raises_ValueError `{Runtime} (text : string) (e : exn) :
  LLMJsonParser.parse text = Raise e -> is_ValueError e = true.
Proof.
  unfold LLMJsonParser.parse.
  destruct (LLMJsonParser.first_loadable _); [discriminate|].
  destruct (match LLMJsonParser.search_braces text with
            | Some _ => _ | None => _ end); [discriminate|].
  destruct (json_loads text); [|discriminate].
  intros [= <-]. reflexivity.
Qed.

(** C4.  If every completion request raises an exception that is not a
    [ValueError] (the class the loop treats as a JSON-parse failure), the
    strategy calls the provider exactly 3 times and sleeps once after the
    first and once after the second call: for the backoff of
    [2 * 2^attempt] seconds, that is 2 and 4, plus the jitter
    [backoff * 0.2 * r], where [r] is the number [random.random()] returned
    for this sleep, all in binary64 as the source computes it.  For a
    number [r] in [0.0, 1.0), which is what [random.random()] returns, a
    sleep lasts at least the backoff and at most the binary64 number next
    to 1.2 times the backoff: the jitter is up to 20%.  After the third
    call the strategy returns the zero score with the "API error" details
    carrying the text of the last exception, raising nothing. *)
Theorem title_analyze_retries_then_falls_back
    (llm : nat -> string -> outcome string)
    (templates : gmap string pyval -> outcome string)
    (parser : string -> outcome pyval)
    (rnd : nat -> float) (kwargs : gmap string pyval) (prompt : string) (w : world) :
  templates kwargs = Return prompt ->
  (forall n, exists e, llm n prompt = Raise e /\ is_ValueError e = false) ->
  exists e3 : exn,
    llm (completions w + 2)%nat prompt = Raise e3
    /\ analyze (init llm templates parser) rnd kwargs w
       = (Return
            (Some (PFloat 0.0,
                   PDict (mkdict [ ("estimated_relevance", PFloat 0.0);
                                   ("reasoning", PStr "API error");
                                   ("error", PStr (str_exn e3)) ]))),
          World (completions w + 3) (draws w + 2)
            (trace w
               ++ [ Completion prompt;
                    Sleep (2 + 2 * 0.2 * rnd (draws w))%float;
                    Completion prompt;
                    Sleep (4 + 4 * 0.2 * rnd (draws w + 1)%nat)%float;
                    Completion prompt ]))
    /\ (forall r : float,
          (0 <=? r)%float = true -> (r <? 1)%float = true ->
          ((2 <=? 2 + 2 * 0.2 * r)%float = true
           /\ (2 + 2 * 0.2 * r <=? 2.4)%float = true)
          /\ ((4 <=? 4 + 4 * 0.2 * r)%float = true
              /\ (4 + 4 * 0.2 * r <=? 4.8)%float = true)).
Proof.
  intros Hprompt Hraise.
  destruct (Hraise (completions w)) as (e1 & H1 & V1).
  destruct (Hraise (S (completions w))) as (e2 & H2 & V2).
  destruct (Hraise (S (S (completions w)))) as (e3 & H3 & V3).
  exists e3. split; [|split; [|exact sleep_bounds]].
  - replace (completions w + 2)%nat with (S (S (completions w))) by lia. exact H3.
  - rewrite (analyze_init llm templates parser rnd kwargs prompt w Hprompt).
    destruct (sleep_time_init llm templates parser (rnd (draws w))) as [Hs0 _].
    destruct (sleep_time_init llm templates parser (rnd (S (draws w)))) as [_ Hs1].
    set (self := init llm templates parser) in *.
    rewrite (retry_loop_retry self rnd prompt 0 _ w e1 H1 V1 eq_refl).
    rewrite (retry_loop_retry self rnd prompt 1 _ _ e2);
      [|exact H2|exact V2|reflexivity].
    rewrite (retry_loop_give_up self rnd prompt 2 _ _ e3);
      [|exact H3|exact V3|reflexivity].
    cbn [completions draws trace]. unfold api_error_result.
    rewrite Hs0, Hs1.
    f_equal. f_equal; [lia|lia|].
    rewrite <- !app_assoc. cbn [app].
    replace (draws w + 1)%nat with (S (draws w)) by lia. reflexivity.
Qed.

(** Every request is refused and both draws are 0.5: the sleeps last the
    binary64 numbers next to 2.2 and 4.4. *)
Lemma title_analyze_retries_then_falls_back_witness :
  exists e3 : exn,
    e3 = Exn OtherError "connection reset"
    /\ analyze (init (fun _ _ => Raise (Exn OtherError "connection reset"))
                  (fun _ => Return "Rate this title") (fun _ => Return PNone))
         (fun _ => 0.5%float) ∅ (World 0 0 [])
       = (Return
            (Some (PFloat 0.0,
                   PDict (mkdict [ ("estimated_relevance", PFloat 0.0);
                                   ("reasoning", PStr "API error");
                                   ("error", PStr "connection reset") ]))),
          World 3 2
            [ Completion "Rate this title"; Sleep 0x1.199999999999ap+1;
              Completion "Rate this title"; Sleep 0x1.199999999999ap+2;
              Completion "Rate this title" ]).
Proof.
  destruct (title_analyze_retries_then_falls_back
              (fun _ _ => Raise (Exn OtherError "connection reset"))
              (fun _ => Return "Rate this title") (fun _ => Return PNone)
              (fun _ => 0.5%float) ∅ "Rate this title" (World 0 0 [])
              eq_refl
              (fun _ => ex_intro _ (Exn OtherError "connection reset")
                          (conj eq_refl eq_refl)))
    as (e3 & He3 & Hrun & _).
  exists e3. split; [congruence|].
  rewrite Hrun. injection He3 as <-. reflexivity.
Defined.

(** C5.  If the provider answers with a text for which the JSON parser
    raises, the strategy raises that same error, a [ValueError], out of the
    first attempt: the provider has been called exactly once, there was no
    sleep, and no fallback result is produced. *)
Theorem title_analyze_parse_failure_not_retried `{Runtime}
    (llm : nat -> string -> outcome string)
    (templates : gmap string pyval -> outcome string)
    (rnd : nat -> float) (kwargs : gmap string pyval) (prompt text : string)
    (e : exn) (w : world) :
  templates kwargs = Return prompt ->
  llm (completions w) prompt = Return text ->
  LLMJsonParser.parse text = Raise e ->
  analyze (init llm templates LLMJsonParser.parse) rnd kwargs w
  = (Raise e,
     World (completions w + 1) (draws w) (trace w ++ [Completion prompt]))
  /\ is_ValueError e = true.
Proof.
  intros Hprompt Hllm Hparse.
  pose proof (parse_raises_ValueError text e Hparse) as HV.
  split; [|exact HV].
  rewrite (analyze_init llm templates _ rnd kwargs prompt w Hprompt).
  cbn [retry_loop].
  rewrite (attempt_body_parser_raises (init llm templates LLMJsonParser.parse)
             prompt text w e Hllm Hparse), HV.
  f_equal. f_equal. lia.
Qed.

Lemma title_analyze_parse_failure_not_retried_witness :
  @analyze
    (init (fun _ _ => Return "I cannot rate this title.")
       (fun _ => Return "Rate this title") (@LLMJsonParser.parse example_runtime))
    (fun _ => 0.5%float) ∅ (World 0 0 [])
  = (Raise (Exn ValueError "Failed to parse JSON from LLM output: Expecting value"),
     World 1 0 [ Completion "Rate this title" ]).
Proof.
  exact (proj1 (@title_analyze_parse_failure_not_retried example_runtime
                  (fun _ _ => Return "I cannot rate this title.")
                  (fun _ => Return "Rate this title") (fun _ => 0.5%float) ∅
                  "Rate this title" "I cannot rate this title."
                  (Exn ValueError "Failed to parse JSON from LLM output: Expecting value")
                  (World 0 0 []) eq_refl eq_refl eq_refl)).
Defined.

End TitleStrategy.

(** ** Running the monadic code step by step *)

Lemma dict_item_Some (d : gmap string pyval) (key : string) (v : pyval) :
  d !! key = Some v -> dict_item d key = Return v.
Proof. intros Hd. unfold dict_item. now rewrite Hd. Qed.

(** One step of a computation: the first bind, whose left part is rewritten
    by the given equation. *)
Ltac run_item H :=
  unfold bind at 1; unfold lift at 1; rewrite (dict_item_Some _ _ _ H);
  cbv beta iota zeta.
Ltac run_with H :=
  unfold bind at 1; rewrite H; cbv beta iota zeta.

(** ** Two-stage gating in the job-analysis service *)
Section Gating.
Import JobAnalysisService.
Context {S : Type}.


Lemma invoke_run {A : Type} (c : call) (m : M S A) (w : world S)
    (r : outcome A) (s' : S) :
  m (ext w) = (r, s') -> invoke c m w = (r, World s' (calls w ++ [c])).
Proof. intros Hm. unfold invoke. now rewrite Hm. Qed.








Lemma analyze_job_title_returns (self : t S) (job : gmap string pyval)
    (title company : pyval) (prefs : gmap string pyval) (job_titles : pyval)
    (w : world S) (r : float * pyval) (s1 : S) :
  job !! "title" = Some title -> job !! "company" = Some company ->
  analyze (title_analyzer self) (title_kwargs title company prefs job_titles) (ext w)
  = (Return r, s1) ->
  _analyze_job_title self job prefs job_titles w
  = (Return r,
     World s1 (calls w ++ [TitleAnalyze (title_kwargs title company prefs job_titles)])).
Proof.
  intros Ht Hc Htitle. unfold _analyze_job_title.
  run_item Ht.
  run_item Hc.
  now rewrite (invoke_run (TitleAnalyze (title_kwargs title company prefs job_titles))
                 _ w _ _ Htitle).
Qed.


End Gating.

(** ** Persistence of a skipped analysis *)
Section SkippedPersistence.
Import JobAnalysisService JobAnalysisServiceFactory.
Context `{Runtime}.






End SkippedPersistence.

(** ** The two analysis scenarios on concrete inputs *)
Section Scenarios.
Import JobAnalysisService JobAnalysisServiceFactory.




End Scenarios.

(** ** Facts about the relational operators *)
Section Relational.
Import DatabaseService.

Lemma fold_left_max_ge (ts : list Z) :
  forall t x : Z, In x (t :: ts) -> (x <= fold_left Z.max ts t)%Z.
Proof.
  induction ts as [|y ts IH]; intros t x Hin; simpl in *.
  - destruct Hin as [->|[]]. lia.
  - assert (Hmono : (Z.max t y <= fold_left Z.max ts (Z.max t y))%Z)
      by (apply IH; left; reflexivity).
    destruct Hin as [->|[->|Hin]]; [lia|lia|].
    apply IH. right. exact Hin.
Qed.

Lemma fold_left_max_in (ts : list Z) (t : Z) :
  In (fold_left Z.max ts t) (t :: ts).
Proof.
  revert t. induction ts as [|y ts IH]; intros t; simpl.
  - left. reflexivity.
  - destruct (IH (Z.max t y)) as [Heq|Hin].
    + destruct (Z.max_spec t y) as [[_ Hm]|[_ Hm]].
      * right. left. congruence.
      * left. congruence.
    + right. right. exact Hin.
Qed.

(** The maximum over the rows of a pair is the timestamp of one of them and
    bounds them all. *)
Lemma max_state_timestamp_spec (j : string) (u : Z) (d : db) (m : Z) :
  max_state_timestamp j u d = Some m ->
  (exists s, In s (List.filter (for_job_user j u) (job_states d))
             /\ state_timestamp s = m)
  /\ (forall s, In s (List.filter (for_job_user j u) (job_states d)) ->
                (state_timestamp s <= m)%Z).
Proof.
  unfold max_state_timestamp.
  destruct (map state_timestamp (List.filter (for_job_user j u) (job_states d)))
    as [|t ts] eqn:E; [discriminate|].
  intros [= <-]. split.
  - pose proof (fold_left_max_in ts t) as Hin. rewrite <- E in Hin.
    apply in_map_iff in Hin as (s & Hs & Hin). eauto.
  - intros s Hs. apply fold_left_max_ge. rewrite <- E. now apply in_map.
Qed.


Lemma for_job_user_spec (j : string) (u : Z) (s : job_state) :
  for_job_user j u s = true <-> s_job_id s = j /\ s_user_id s = u.
Proof.
  unfold for_job_user. rewrite andb_true_iff, String.eqb_eq, Z.eqb_eq. tauto.
Qed.

(** Membership in the unpaginated result of [get_jobs_by_state]. *)
Lemma in_jobs_by_state_rows (user_id : Z) (st : string) (d : db) (r : job_with_state) :
  In r (jobs_by_state_rows user_id st d) <->
  exists s,
    In (jws_listing r) (job_listings d) /\ In s (job_states d)
    /\ r = JobWithState (jws_listing r) (state s) (state_timestamp s) (notes s)
    /\ job_id (jws_listing r) = s_job_id s
    /\ s_user_id s = user_id /\ state s = st
    /\ max_state_timestamp (s_job_id s) (s_user_id s) d = Some (state_timestamp s).
Proof.
  unfold jobs_by_state_rows. rewrite in_flat_map. split.
  - intros (l & Hl & Hr). apply in_map_iff in Hr as (s & <- & Hs).
    apply filter_In in Hs as [Hs Hc].
    rewrite !andb_true_iff, !String.eqb_eq, Z.eqb_eq in Hc.
    destruct Hc as [[[Hj Hu] Hst] Hm].
    exists s. cbn [jws_listing]. repeat split; auto.
    destruct (max_state_timestamp (s_job_id s) (s_user_id s) d) as [m|];
      [|discriminate].
    apply Z.eqb_eq in Hm. now rewrite Hm.
  - intros (s & Hl & Hs & Hr & Hj & Hu & Hst & Hm).
    exists (jws_listing r). split; [exact Hl|].
    apply in_map_iff. exists s. split; [now rewrite Hr|].
    apply filter_In. split; [exact Hs|].
    rewrite !andb_true_iff, !String.eqb_eq, Z.eqb_eq, Hm, Z.eqb_refl. auto.
Qed.

Lemma in_limit_offset {A : Type} (limit offset : Z) (l : list A) (x : A) :
  In x (limit_offset limit offset l) -> In x l.
Proof.
  unfold limit_offset. intros Hin.
  assert (Hdrop : In x (drop (Z.to_nat offset) l)).
  { destruct (limit <? 0)%Z; [exact Hin|].
    apply list_elem_of_In. apply list_elem_of_In in Hin.
    exact (subseteq_take _ _ x Hin). }
  apply list_elem_of_In. apply list_elem_of_In in Hdrop.
  exact (subseteq_drop _ _ x Hdrop).
Qed.

Lemma limit_offset_covers {A : Type} (limit offset : Z) (l : list A) :
  page_covers limit offset (length l) -> limit_offset limit offset l = l.
Proof.
  intros [Hoff Hlim]. unfold limit_offset.
  replace (Z.to_nat offset) with 0%nat by lia. rewrite drop_0.
  destruct (Z.ltb_spec limit 0) as [|Hge]; [reflexivity|].
  apply take_ge. lia.
Qed.

Section WithEngine.
Context `{SqlOrder}.

Lemma in_order_by_desc {A : Type} (key : A -> Z) (l : list A) (x : A) :
  In x (order_by_desc key l) <-> In x l.
Proof.
  split; apply Permutation_in;
    [apply order_by_desc_perm|symmetry; apply order_by_desc_perm].
Qed.

(** Whatever page is asked for, its rows are rows of the unpaginated
    result. *)
Lemma in_get_jobs_by_state (user_id : Z) (st : string) (limit offset : Z) (d : db)
    (r : job_with_state) :
  In r (get_jobs_by_state user_id st limit offset d) ->
  In r (jobs_by_state_rows user_id st d).
Proof.
  unfold get_jobs_by_state. intros Hin.
  apply in_limit_offset in Hin. now apply in_order_by_desc in Hin.
Qed.

(** A page that covers the result holds every row of it. *)
Lemma get_jobs_by_state_covers (user_id : Z) (st : string) (limit offset : Z) (d : db)
    (r : job_with_state) :
  page_covers limit offset (length (jobs_by_state_rows user_id st d)) ->
  In r (jobs_by_state_rows user_id st d) ->
  In r (get_jobs_by_state user_id st limit offset d).
Proof.
  intros Hcov Hin. unfold get_jobs_by_state.
  rewrite limit_offset_covers.
  - now apply in_order_by_desc.
  - now rewrite (Permutation_length (order_by_desc_perm _ _ _)).
Qed.

(** [get_current_job_state] returns a row of the pair whose timestamp
    bounds those of all the rows of the pair, and returns a row whenever
    the pair has one. *)
Lemma get_current_job_state_spec (j : string) (u : Z) (d : db) :
  match get_current_job_state j u d with
  | Some row =>
      In row (List.filter (for_job_user j u) (job_states d))
      /\ forall s, In s (List.filter (for_job_user j u) (job_states d)) ->
                   (state_timestamp s <= state_timestamp row)%Z
  | None => List.filter (for_job_user j u) (job_states d) = []
  end.
Proof.
  unfold get_current_job_state, fetchone, limit_offset.
  set (rows := List.filter (for_job_user j u) (job_states d)).
  pose proof (order_by_desc_perm _ state_timestamp rows) as Hperm.
  pose proof (order_by_desc_sorted _ state_timestamp rows) as Hsorted.
  change (Z.to_nat 0) with 0%nat. change (Z.to_nat 1) with 1%nat.
  change (1 <? 0)%Z with false. cbv iota. rewrite drop_0.
  destruct (order_by_desc state_timestamp rows) as [|row rest] eqn:E.
  - simpl. now apply Permutation_nil in Hperm.
  - simpl. split.
    + apply (Permutation_in _ Hperm). left. reflexivity.
    + intros s Hs.
      apply (Permutation_in _ (Permutation_sym Hperm)) in Hs.
      destruct Hs as [<-|Hs]; [lia|].
      apply StronglySorted_inv in Hsorted as [_ Hall].
      rewrite List.Forall_forall in Hall. now apply Hall.
Qed.

End WithEngine.
End Relational.

(** ** Latest state wins *)
Section LatestState.
Import DatabaseService.

Lemma in_history (j : string) (u : Z) (d : db) (s : job_state) :
  In s (history j u d) <-> In s (job_states d) /\ s_job_id s = j /\ s_user_id s = u.
Proof. unfold history. now rewrite filter_In, for_job_user_spec. Qed.




Section WithEngine.
Context `{SqlOrder}.


End WithEngine.


End LatestState.

(** ** Rows tied for the latest timestamp *)
Section Ties.
Import DatabaseService.

(** C10 (counterexample).  [job-0] has the rows [relevant] and [viewed]
    for user 1, tied at the maximal timestamp 0.  The default page of
    [get_jobs_by_state(1, "viewed")] holds the job, but the default page of
    [get_jobs_by_state(1, "relevant")] is filled by the 50 later jobs and
    does not. *)
Lemma tied_row_beyond_first_page :
  history "job-0" 1 tied_crowded_db
  = [ JobState 1 "job-0" 1 "relevant" 0 None; JobState 52 "job-0" 1 "viewed" 0 None ]
  /\ max_state_timestamp "job-0" 1 tied_crowded_db = Some 0%Z
  /\ existsb (lists_job "job-0")
       (@get_jobs_by_state_default merge_sort_engine 1 "viewed" tied_crowded_db)
     = true
  /\ existsb (lists_job "job-0")
       (@get_jobs_by_state_default merge_sort_engine 1 "relevant" tied_crowded_db)
     = false.
Proof. repeat split; vm_compute; reflexivity. Qed.

Section WithEngine.
Context `{SqlOrder}.

(** C10 (amended).  When a (job, user) pair has two state rows with
    different states and the same timestamp, maximal for the pair, every
    listing row of the job is returned by [get_jobs_by_state] under both
    states, on any page that covers the rows matching that state; and
    [get_current_job_state] returns a single row, one of those tied for the
    maximum. *)
Theorem tied_timestamps_admit_both_states (j : string) (u : Z) (d : db)
    (s1 s2 : job_state) (listing : job_listing) :
  In s1 (history j u d) -> In s2 (history j u d) ->
  state s1 <> state s2 ->
  state_timestamp s1 = state_timestamp s2 ->
  max_state_timestamp j u d = Some (state_timestamp s1) ->
  In listing (job_listings d) -> job_id listing = j ->
  (forall limit offset,
      page_covers limit offset (length (jobs_by_state_rows u (state s1) d)) ->
      In (JobWithState listing (state s1) (state_timestamp s1) (notes s1))
         (get_jobs_by_state u (state s1) limit offset d))
  /\ (forall limit offset,
        page_covers limit offset (length (jobs_by_state_rows u (state s2) d)) ->
        In (JobWithState listing (state s2) (state_timestamp s2) (notes s2))
           (get_jobs_by_state u (state s2) limit offset d))
  /\ (exists row,
        get_current_job_state j u d = Some row
        /\ In row (history j u d)
        /\ state_timestamp row = state_timestamp s1).
Proof.
  intros H1 H2 Hne Hts Hmax Hl Hjob.
  assert (Hrow : forall s, In s (history j u d) ->
                   state_timestamp s = state_timestamp s1 ->
                   forall limit offset,
                     page_covers limit offset
                       (length (jobs_by_state_rows u (state s) d)) ->
                     In (JobWithState listing (state s) (state_timestamp s) (notes s))
                        (get_jobs_by_state u (state s) limit offset d)).
  { intros s Hs Heq limit offset Hcov.
    apply get_jobs_by_state_covers; [exact Hcov|].
    apply in_history in Hs as (Hs & Hsj & Hsu).
    apply in_jobs_by_state_rows. exists s. cbn [jws_listing].
    repeat split; auto; congruence. }
  split; [|split].
  - apply Hrow; auto.
  - apply Hrow; auto.
  - pose proof (get_current_job_state_spec j u d) as Hcur.
    fold (history j u d) in Hcur.
    destruct (get_current_job_state j u d) as [row|].
    + destruct Hcur as [Hin Hbound]. exists row. repeat split; auto.
      destruct (max_state_timestamp_spec j u d _ Hmax) as [_ Hle].
      pose proof (Hle row Hin). pose proof (Hbound s1 H1). lia.
    + rewrite Hcur in H1. destruct H1.
Qed.

End WithEngine.

Lemma tied_timestamps_admit_both_states_witness :
  history "4021" 7 tied_db
  = [ JobState 1 "4021" 7 "analyzed" 5 None; JobState 2 "4021" 7 "relevant" 5 None ]
  /\ existsb (lists_job "4021")
       (@get_jobs_by_state_default merge_sort_engine 7 "analyzed" tied_db) = true
  /\ existsb (lists_job "4021")
       (@get_jobs_by_state_default merge_sort_engine 7 "relevant" tied_db) = true
  /\ In (JobWithState
           (JobListing 1 "4021" "Machine Learning Engineer" "Acme" "" ""
              "https://jobs.example/4021" 0 "")
           "analyzed" 5 None)
        (@get_jobs_by_state_default merge_sort_engine 7 "analyzed" tied_db)
  /\ exists row,
       @get_current_job_state merge_sort_engine "4021" 7 tied_db = Some row
       /\ state_timestamp row = 5%Z.
Proof.
  destruct (@tied_timestamps_admit_both_states merge_sort_engine "4021" 7 tied_db
              (JobState 1 "4021" 7 "analyzed" 5 None)
              (JobState 2 "4021" 7 "relevant" 5 None)
              (JobListing 1 "4021" "Machine Learning Engineer" "Acme" "" ""
                 "https://jobs.example/4021" 0 "")
              ltac:(simpl; tauto) ltac:(simpl; tauto) ltac:(discriminate)
              eq_refl eq_refl ltac:(simpl; tauto) eq_refl)
    as (Hfirst & _ & (row & Hcur & _ & Hts)).
  split; [reflexivity|]. split; [reflexivity|]. split; [reflexivity|].
  split.
  - apply Hfirst. split; [lia|]. right. simpl. lia.
  - exists row. split; [exact Hcur|exact Hts].
Defined.

End Ties.

(** ** Cascading deletion *)
Section Deletion.
Import DatabaseService.

Lemma filter_filter_andb {A : Type} (p q : A -> bool) (l : list A) :
  List.filter p (List.filter q l) = List.filter (fun x => q x && p x) l.
Proof.
  induction l as [|x l IH]; simpl; [reflexivity|].
  destruct (q x); simpl; [destruct (p x)|]; now rewrite IH.
Qed.

Lemma filter_ext_on {A : Type} (p q : A -> bool) (l : list A) :
  (forall x, In x l -> p x = q x) -> List.filter p l = List.filter q l.
Proof.
  induction l as [|x l IH]; intros Hext; simpl; [reflexivity|].
  rewrite (Hext x (or_introl eq_refl)), IH; [reflexivity|].
  intros y Hy. apply Hext. now right.
Qed.

Lemma ref_count_zero (j : string) (d : db) :
  (ref_count j d =? 0)%Z = true <->
  List.filter (for_job j) (job_states d) = []
  /\ List.filter (analysis_for_job j) (job_analyses d) = [].
Proof.
  unfold ref_count. rewrite Z.eqb_eq.
  set (users := map s_user_id (List.filter (for_job j) (job_states d))
                  ++ map a_user_id (List.filter (analysis_for_job j) (job_analyses d))).
  split.
  - intros Hlen.
    assert (Hnil : users = []).
    { destruct users as [|x users'] eqn:E; [reflexivity|exfalso].
      assert (Hx : x ∈ remove_dups (x :: users'))
        by (apply elem_of_remove_dups; left).
      destruct (remove_dups (x :: users')); [inversion Hx|].
      simpl in Hlen. lia. }
    unfold users in Hnil. apply app_eq_nil in Hnil as [Hs Ha].
    split; eapply map_eq_nil; eauto.
  - intros [Hs Ha]. unfold users. rewrite Hs, Ha. reflexivity.
Qed.

Lemma for_job_user_for_job (j : string) (u : Z) (s : job_state) :
  for_job_user j u s = for_job j s && (s_user_id s =? u)%Z.
Proof. reflexivity. Qed.

Lemma analysis_for_job_user_for_job (j : string) (u : Z) (a : job_analysis) :
  analysis_for_job_user j u a = analysis_for_job j a && (a_user_id a =? u)%Z.
Proof. reflexivity. Qed.

(** [delete_job] for a user, when another reference to the job remains. *)
Lemma delete_job_keeps_listing (j : string) (u : Z) (d : db) :
  (List.filter (for_job j)
     (List.filter (fun s => negb (for_job_user j u s)) (job_states d)) <> []
   \/ List.filter (analysis_for_job j)
        (List.filter (fun a => negb (analysis_for_job_user j u a)) (job_analyses d))
      <> []) ->
  delete_job j (Some u) d
  = (true,
     Db (job_listings d)
        (List.filter (fun s => negb (for_job_user j u s)) (job_states d))
        (List.filter (fun a => negb (analysis_for_job_user j u a)) (job_analyses d))
        (seq_job_states d) (seq_job_analysis d)).
Proof.
  intros Hrefs. unfold delete_job. cbn [job_listings job_states job_analyses
                                          seq_job_states seq_job_analysis].
  match goal with |- (if ?c then _ else _) = _ => destruct c eqn:Hc end;
    [|reflexivity].
  apply ref_count_zero in Hc as [Hs Ha].
  cbn [job_states job_analyses] in Hs, Ha. tauto.
Qed.

(** [delete_job] for a user, when no reference to the job remains. *)
Lemma delete_job_drops_listing (j : string) (u : Z) (d : db) :
  List.filter (for_job j)
    (List.filter (fun s => negb (for_job_user j u s)) (job_states d)) = [] ->
  List.filter (analysis_for_job j)
    (List.filter (fun a => negb (analysis_for_job_user j u a)) (job_analyses d)) = [] ->
  delete_job j (Some u) d
  = (true,
     Db (delete_listing j (job_listings d))
        (List.filter (fun s => negb (for_job_user j u s)) (job_states d))
        (List.filter (fun a => negb (analysis_for_job_user j u a)) (job_analyses d))
        (seq_job_states d) (seq_job_analysis d)).
Proof.
  intros Hs Ha. unfold delete_job. cbn [job_listings job_states job_analyses
                                          seq_job_states seq_job_analysis].
  match goal with |- (if ?c then _ else _) = _ => destruct c eqn:Hc end;
    [reflexivity|].
  assert (Hz : (ref_count j
                  (Db (job_listings d)
                      (List.filter (fun s => negb (for_job_user j u s)) (job_states d))
                      (List.filter (fun a => negb (analysis_for_job_user j u a))
                         (job_analyses d))
                      (seq_job_states d) (seq_job_analysis d)) =? 0)%Z = true)
    by (apply ref_count_zero; auto).
  congruence.
Qed.

Lemma get_job_by_id_deleted (j : string) (d : db) (states : list job_state)
    (analyses : list job_analysis) (n m : Z) :
  get_job_by_id j (Db (delete_listing j (job_listings d)) states analyses n m) = None.
Proof.
  unfold get_job_by_id, delete_listing. cbn [job_listings].
  rewrite filter_filter_andb.
  rewrite (filter_ext_on _ (fun _ => false)).
  - now induction (job_listings d).
  - intros l _. now destruct (String.eqb (job_id l) j).
Qed.

Lemma filter_none {A : Type} (l : list A) : List.filter (fun _ => false) l = [].
Proof. now induction l. Qed.

Lemma filter_inhabited {A : Type} (p : A -> bool) (l : list A) :
  List.filter p l <> [] -> exists x, In x l /\ p x = true.
Proof.
  destruct (List.filter p l) as [|x rest] eqn:E; [congruence|]. intros _.
  exists x. apply filter_In. rewrite E. now left.
Qed.

Lemma filter_not_nil {A : Type} (p : A -> bool) (l : list A) (x : A) :
  In x l -> p x = true -> List.filter p l <> [].
Proof.
  intros Hin Hp Hnil.
  assert (Hx : In x (List.filter p l)) by (apply filter_In; auto).
  rewrite Hnil in Hx. destruct Hx.
Qed.

(** C3.  Users [A] and [B] are the two users with rows for the job, and
    [B] has state and analysis rows for it.  Then [delete_job(job, A)]
    returns True, removes exactly the state and analysis rows of (job, A),
    keeps every listing row, and so leaves the rows of [B] as they were;
    the following [delete_job(job, B)] returns True, leaves no state or
    analysis row of the job and deletes its listing row. *)
Theorem delete_job_multi_user_isolation (j : string) (A B : Z) (d : db) :
  A <> B ->
  List.filter (for_job_user j B) (job_states d) <> [] ->
  List.filter (analysis_for_job_user j B) (job_analyses d) <> [] ->
  (forall s, In s (job_states d) -> for_job j s = true ->
             s_user_id s = A \/ s_user_id s = B) ->
  (forall a, In a (job_analyses d) -> analysis_for_job j a = true ->
             a_user_id a = A \/ a_user_id a = B) ->
  fst (delete_job j (Some A) d) = true
  /\ job_states (snd (delete_job j (Some A) d))
     = List.filter (fun s => negb (for_job_user j A s)) (job_states d)
  /\ job_analyses (snd (delete_job j (Some A) d))
     = List.filter (fun a => negb (analysis_for_job_user j A a)) (job_analyses d)
  /\ job_listings (snd (delete_job j (Some A) d)) = job_listings d
  /\ List.filter (fun s => (s_user_id s =? B)%Z) (job_states (snd (delete_job j (Some A) d)))
     = List.filter (fun s => (s_user_id s =? B)%Z) (job_states d)
  /\ List.filter (fun a => (a_user_id a =? B)%Z)
       (job_analyses (snd (delete_job j (Some A) d)))
     = List.filter (fun a => (a_user_id a =? B)%Z) (job_analyses d)
  /\ fst (delete_job j (Some B) (snd (delete_job j (Some A) d))) = true
  /\ job_states (snd (delete_job j (Some B) (snd (delete_job j (Some A) d))))
     = List.filter (fun s => negb (for_job j s)) (job_states d)
  /\ job_analyses (snd (delete_job j (Some B) (snd (delete_job j (Some A) d))))
     = List.filter (fun a => negb (analysis_for_job j a)) (job_analyses d)
  /\ job_listings (snd (delete_job j (Some B) (snd (delete_job j (Some A) d))))
     = delete_listing j (job_listings d)
  /\ get_job_by_id j (snd (delete_job j (Some B) (snd (delete_job j (Some A) d))))
     = None.
Proof.
  intros Hne HBs HBa HonlyS HonlyA.
  (* the first deletion keeps the listing: B still has a state row *)
  assert (Hfirst :
    delete_job j (Some A) d
    = (true,
       Db (job_listings d)
          (List.filter (fun s => negb (for_job_user j A s)) (job_states d))
          (List.filter (fun a => negb (analysis_for_job_user j A a)) (job_analyses d))
          (seq_job_states d) (seq_job_analysis d))).
  { apply delete_job_keeps_listing. left.
    apply filter_inhabited in HBs as (s & Hs & Hp).
    apply for_job_user_spec in Hp as [Hsj Hsu].
    apply (filter_not_nil _ _ s).
    - apply filter_In. split; [exact Hs|].
      unfold for_job_user. rewrite Hsu.
      destruct (Z.eqb_spec B A) as [Heq|_]; [congruence|].
      now rewrite andb_false_r.
    - unfold for_job. rewrite Hsj. apply String.eqb_refl. }
  rewrite Hfirst. cbn [fst snd job_states job_analyses job_listings].
  (* after both deletions no row of the job is left *)
  assert (HS : List.filter (fun s => negb (for_job_user j B s))
                 (List.filter (fun s => negb (for_job_user j A s)) (job_states d))
               = List.filter (fun s => negb (for_job j s)) (job_states d)).
  { rewrite filter_filter_andb. apply filter_ext_on. intros s Hs.
    rewrite !for_job_user_for_job.
    destruct (for_job j s) eqn:Hj; [|reflexivity].
    destruct (HonlyS s Hs Hj) as [->| ->].
    - now rewrite Z.eqb_refl.
    - rewrite Z.eqb_refl. simpl. now rewrite andb_false_r. }
  assert (HA : List.filter (fun a => negb (analysis_for_job_user j B a))
                 (List.filter (fun a => negb (analysis_for_job_user j A a))
                    (job_analyses d))
               = List.filter (fun a => negb (analysis_for_job j a)) (job_analyses d)).
  { rewrite filter_filter_andb. apply filter_ext_on. intros a Ha.
    rewrite !analysis_for_job_user_for_job.
    destruct (analysis_for_job j a) eqn:Hj; [|reflexivity].
    destruct (HonlyA a Ha Hj) as [->| ->].
    - now rewrite Z.eqb_refl.
    - rewrite Z.eqb_refl. simpl. now rewrite andb_false_r. }
  assert (Hsecond :
    delete_job j (Some B)
      (Db (job_listings d)
          (List.filter (fun s => negb (for_job_user j A s)) (job_states d))
          (List.filter (fun a => negb (analysis_for_job_user j A a)) (job_analyses d))
          (seq_job_states d) (seq_job_analysis d))
    = (true,
       Db (delete_listing j (job_listings d))
          (List.filter (fun s => negb (for_job j s)) (job_states d))
          (List.filter (fun a => negb (analysis_for_job j a)) (job_analyses d))
          (seq_job_states d) (seq_job_analysis d))).
  { rewrite delete_job_drops_listing;
      cbn [job_listings job_states job_analyses seq_job_states seq_job_analysis].
    - now rewrite HS, HA.
    - rewrite HS, filter_filter_andb, (filter_ext_on _ (fun _ => false)).
      + apply filter_none.
      + intros s _. now destruct (for_job j s).
    - rewrite HA, filter_filter_andb, (filter_ext_on _ (fun _ => false)).
      + apply filter_none.
      + intros a _. now destruct (analysis_for_job j a). }
  rewrite Hsecond. cbn [fst snd job_states job_analyses job_listings].
  repeat split.
  - rewrite filter_filter_andb. apply filter_ext_on. intros s _.
    unfold for_job_user.
    destruct (Z.eqb_spec (s_user_id s) B) as [->|_]; [|now rewrite andb_false_r].
    destruct (Z.eqb_spec B A) as [Heq|_]; [congruence|].
    now rewrite andb_false_r.
  - rewrite filter_filter_andb. apply filter_ext_on. intros a _.
    unfold analysis_for_job_user.
    destruct (Z.eqb_spec (a_user_id a) B) as [->|_]; [|now rewrite andb_false_r].
    destruct (Z.eqb_spec B A) as [Heq|_]; [congruence|].
    now rewrite andb_false_r.
  - apply get_job_by_id_deleted.
Qed.

Lemma delete_job_multi_user_isolation_witness :
  delete_job "4021" (Some 1%Z) shared_db
  = (true,
     Db [ JobListing 1 "4021" "Machine Learning Engineer" "Acme" "" ""
            "https://jobs.example/4021" 0 "" ]
        [ JobState 3 "4021" 2 "new_scraped" 3 None;
          JobState 4 "4021" 2 "relevant" 4 None ]
        [ JobAnalysis 2 "4021" 2 0.8 "{}" 6 ]
        4 2)
  /\ job_listings (snd (delete_job "4021" (Some 2%Z)
                          (snd (delete_job "4021" (Some 1%Z) shared_db))))
     = []
  /\ get_job_by_id "4021"
       (snd (delete_job "4021" (Some 2%Z) (snd (delete_job "4021" (Some 1%Z) shared_db))))
     = None.
Proof.
  destruct (delete_job_multi_user_isolation "4021" 1 2 shared_db
              ltac:(discriminate) ltac:(discriminate) ltac:(discriminate)
              ltac:(simpl; intros s [<-|[<-|[<-|[<-|[]]]]] _; auto)
              ltac:(simpl; intros a [<-|[<-|[]]] _; auto))
    as (_ & _ & _ & _ & _ & _ & _ & _ & _ & Hlist & Hgone).
  split; [reflexivity|]. split; [|exact Hgone].
  rewrite Hlist. reflexivity.
Defined.

End Deletion.

(* ===================================================================== *)
(** * Further properties of the database service *)
Section DatabaseMethods.
Import DatabaseService DatabaseServiceListings.

Lemma filter_app_one {A : Type} (p : A -> bool) (l : list A) (x : A) :
  List.filter p (l ++ [x]) = List.filter p l ++ (if p x then [x] else []).
Proof. rewrite List.filter_app. reflexivity. Qed.

Lemma filter_idem {A : Type} (p : A -> bool) (l : list A) :
  List.filter p (List.filter p l) = List.filter p l.
Proof.
  rewrite filter_filter_andb. apply filter_ext_on. intros x _. now destruct (p x).
Qed.

Lemma filter_disjoint {A : Type} (p q : A -> bool) (l : list A) :
  (forall x, p x = true -> q x = false) -> List.filter p (List.filter q l) = [].
Proof.
  intros Hpq. rewrite filter_filter_andb, (filter_ext_on _ (fun _ => false)).
  - apply filter_none.
  - intros x _. destruct (q x) eqn:Hq; [|reflexivity].
    destruct (p x) eqn:Hp; [|reflexivity]. apply Hpq in Hp. congruence.
Qed.

Lemma filter_commute_neg {A : Type} (p q : A -> bool) (l : list A) :
  (forall x, p x = true -> q x = true) -> List.filter p (List.filter q l) = List.filter p l.
Proof.
  intros Hpq. rewrite filter_filter_andb. apply filter_ext_on.
  intros x _. destruct (p x) eqn:Hp; [now rewrite (Hpq x Hp)|now destruct (q x)].
Qed.

Lemma for_job_user_other (j j' : string) (u u' : Z) (s : job_state) :
  j' <> j \/ u' <> u -> for_job_user j u s = true -> for_job_user j' u' s = false.
Proof.
  intros Hne Hs. apply for_job_user_spec in Hs as [Hj Hu].
  destruct (for_job_user j' u' s) eqn:E; [|reflexivity].
  apply for_job_user_spec in E as [Hj' Hu']. destruct Hne; congruence.
Qed.

Lemma analysis_for_job_user_spec (j : string) (u : Z) (a : job_analysis) :
  analysis_for_job_user j u a = true <-> a_job_id a = j /\ a_user_id a = u.
Proof.
  unfold analysis_for_job_user. rewrite andb_true_iff, String.eqb_eq, Z.eqb_eq. tauto.
Qed.

Lemma analysis_for_job_user_other (j j' : string) (u u' : Z) (a : job_analysis) :
  j' <> j \/ u' <> u ->
  analysis_for_job_user j u a = true -> analysis_for_job_user j' u' a = false.
Proof.
  intros Hne Ha. apply analysis_for_job_user_spec in Ha as [Hj Hu].
  destruct (analysis_for_job_user j' u' a) eqn:E; [|reflexivity].
  apply analysis_for_job_user_spec in E as [Hj' Hu']. destruct Hne; congruence.
Qed.

Lemma valid_state_existsb (st : string) :
  existsb (String.eqb st) JobStates.VALID_STATES = true <-> In st JobStates.VALID_STATES.
Proof.
  rewrite existsb_exists. split.
  - intros (x & Hin & Heq). apply String.eqb_eq in Heq. now subst.
  - intros Hin. exists st. split; [exact Hin|apply String.eqb_refl].
Qed.

(** The foreign key holds exactly when [get_job_by_id] finds the job. *)
Lemma listed_get_job_by_id (j : string) (d : db) :
  listed j d = true <-> get_job_by_id j d <> None.
Proof.
  unfold listed, get_job_by_id, fetchone.
  induction (job_listings d) as [|l ls IH]; cbn [existsb List.filter].
  - cbn [head]. split; [discriminate|congruence].
  - destruct (String.eqb (job_id l) j); cbn [orb head]; [|exact IH].
    split; [discriminate|reflexivity].
Qed.

Lemma unlisted_get_job_by_id (j : string) (d : db) :
  listed j d = false <-> get_job_by_id j d = None.
Proof.
  pose proof (listed_get_job_by_id j d) as [Hl Hr].
  destruct (listed j d), (get_job_by_id j d) as [l|]; split; intros Hx;
    try reflexivity; try discriminate.
  - exfalso. now apply Hl.
  - assert (Hsome : Some l <> None) by discriminate.
    apply Hr in Hsome. discriminate.
Qed.

Section WithEngine.
Context `{SqlOrder}.

(** X1.  [add_job_state] rejects a state outside the ten valid ones with a
    ValueError, and a valid state for a job without a listing with the
    IntegrityError of the foreign key; in both cases it writes nothing.
    For a valid state and a listed job it appends one row and returns its
    id; when the clock reading is later than every timestamp the (job,
    user) pair already has, that row is what [get_current_job_state] then
    returns for the pair; the rows of every other pair, and so their
    current state, are as before, and listings and analyses are
    untouched. *)
Theorem add_job_state_round_trip (j : string) (u : Z) (st : string)
    (nts : option string) (now : Z) (d : db) :
  let r := add_job_state j u st nts now d in
  let row := JobState (seq_job_states d + 1) j u st now nts in
  (~ In st JobStates.VALID_STATES ->
   r = (Raise (Exn ValueError ("Invalid state: " ++ st)), d))
  /\ (In st JobStates.VALID_STATES -> get_job_by_id j d = None ->
      r = (Raise (Exn IntegrityError "FOREIGN KEY constraint failed"), d))
  /\ (In st JobStates.VALID_STATES -> get_job_by_id j d <> None ->
      fst r = Return (state_id row)
      /\ job_states (snd r) = job_states d ++ [row]
      /\ job_listings (snd r) = job_listings d
      /\ job_analyses (snd r) = job_analyses d
      /\ ((forall s, In s (history j u d) -> (state_timestamp s < now)%Z) ->
          get_current_job_state j u (snd r) = Some row)
      /\ (forall j' u', j' <> j \/ u' <> u ->
          history j' u' (snd r) = history j' u' d
          /\ get_current_job_state j' u' (snd r) = get_current_job_state j' u' d)).
Proof.
  intros r row. subst r. unfold add_job_state.
  destruct (existsb (String.eqb st) JobStates.VALID_STATES) eqn:Hvalid;
    cbn [negb]; cbv iota.
  - apply valid_state_existsb in Hvalid. split; [tauto|].
    destruct (listed j d) eqn:Hlisted; cbn [negb]; cbv iota.
    + apply listed_get_job_by_id in Hlisted.
      split; [intros _ Hnone; contradiction|]. intros _ _.
      cbn [fst snd job_states job_listings job_analyses state_id].
      do 4 (split; [reflexivity|]). split; [|intros j' u' Hne; split].
      * intros Hlater.
        pose proof (get_current_job_state_spec j u
                      (Db (job_listings d) (job_states d ++ [row]) (job_analyses d)
                          (seq_job_states d + 1) (seq_job_analysis d))) as Hspec.
        fold row.
        destruct (get_current_job_state j u _) as [row'|];
          cbn [job_states] in Hspec; rewrite filter_app_one in Hspec.
        -- assert (Hrow : for_job_user j u row = true)
             by (apply for_job_user_spec; split; reflexivity).
           rewrite Hrow in Hspec. destruct Hspec as [Hin Hmax].
           apply in_app_or in Hin as [Hin|[<-|[]]]; [|reflexivity].
           exfalso. specialize (Hlater row' Hin).
           assert (state_timestamp row <= state_timestamp row')%Z
             by (apply Hmax, in_or_app; right; now left).
           unfold row in *. cbn [state_timestamp] in *. lia.
        -- assert (Hrow : for_job_user j u row = true)
             by (apply for_job_user_spec; split; reflexivity).
           rewrite Hrow in Hspec.
           now destruct (List.filter (for_job_user j u) (job_states d)).
      * unfold history. cbn [job_states]. rewrite filter_app_one.
        rewrite (for_job_user_other j j' u u' _ Hne); [apply app_nil_r|].
        apply for_job_user_spec; split; reflexivity.
      * unfold get_current_job_state. cbn [job_states]. rewrite filter_app_one.
        rewrite (for_job_user_other j j' u u' _ Hne); [now rewrite app_nil_r|].
        apply for_job_user_spec; split; reflexivity.
    + apply unlisted_get_job_by_id in Hlisted.
      split; [reflexivity|]. intros _ Hsome. contradiction.
  - split; [reflexivity|].
    split; intros Hin; apply valid_state_existsb in Hin; congruence.
Qed.

End WithEngine.

Section Analyses.
Context `{Runtime}.

(** X2.  [add_job_analysis] fails with an IntegrityError, and writes
    nothing, for a NaN score (the column is NOT NULL and a NaN is stored
    as NULL) and for a job without a listing (the foreign key).  Otherwise
    it is an upsert: afterwards the (job, user) pair has exactly one
    analysis row, the new one, whatever it had before; [get_job_analysis]
    returns that row, with the details that were stored whenever they
    survive serialisation; the analysis rows of other pairs, the listings
    and the states are as before. *)
Theorem add_job_analysis_upsert (j : string) (u : Z) (score : float)
    (details : pyval) (now : Z) (d : db) :
  let r := add_job_analysis j u score details now d in
  let row := JobAnalysis (seq_job_analysis d + 1) j u score (json_dumps details) now in
  (PrimFloat.is_nan score = true ->
   r = (Raise (Exn IntegrityError
                 "NOT NULL constraint failed: job_analysis.relevance_score"), d))
  /\ (PrimFloat.is_nan score = false -> get_job_by_id j d = None ->
      r = (Raise (Exn IntegrityError "FOREIGN KEY constraint failed"), d))
  /\ (PrimFloat.is_nan score = false -> get_job_by_id j d <> None ->
      fst r = Return (analysis_id row)
      /\ List.filter (analysis_for_job_user j u) (job_analyses (snd r)) = [row]
      /\ (json_loads (json_dumps details) = inr details ->
          get_job_analysis j u (snd r) = Return (Some (row, details)))
      /\ (forall j' u', j' <> j \/ u' <> u ->
          List.filter (analysis_for_job_user j' u') (job_analyses (snd r))
          = List.filter (analysis_for_job_user j' u') (job_analyses d))
      /\ job_states (snd r) = job_states d
      /\ job_listings (snd r) = job_listings d).
Proof.
  intros r row. subst r. unfold add_job_analysis.
  destruct (PrimFloat.is_nan score); cbv iota.
  { split; [reflexivity|]. split; discriminate. }
  split; [discriminate|].
  destruct (listed j d) eqn:Hlisted; cbn [negb]; cbv iota.
  2:{ apply unlisted_get_job_by_id in Hlisted.
      split; [reflexivity|]. intros _ Hsome. contradiction. }
  apply listed_get_job_by_id in Hlisted.
  split; [intros _ Hnone; contradiction|]. intros _ _.
  cbn [fst snd job_analyses job_states job_listings analysis_id].
  fold row.
  assert (Hrow : analysis_for_job_user j u row = true)
    by (apply analysis_for_job_user_spec; split; reflexivity).
  assert (Hone : List.filter (analysis_for_job_user j u)
                   (List.filter (fun a => negb (analysis_for_job_user j u a))
                      (job_analyses d) ++ [row]) = [row]).
  { rewrite filter_app_one, Hrow, filter_disjoint; [reflexivity|].
    intros a Ha. now rewrite Ha. }
  split; [reflexivity|]. split; [exact Hone|]. split; [|split; [|split; reflexivity]].
  - intros Hround. unfold get_job_analysis, DatabaseService.get_job_analysis.
    cbn [job_analyses]. rewrite Hone. cbn [fetchone head analysis_details row].
    unfold row. cbn [analysis_details]. now rewrite Hround.
  - intros j' u' Hne. rewrite filter_app_one.
    rewrite (analysis_for_job_user_other j j' u u' _ Hne Hrow), app_nil_r.
    apply filter_commute_neg. intros a Ha.
    destruct (analysis_for_job_user j u a) eqn:E; [|reflexivity].
    assert (Hne' : j <> j' \/ u <> u') by (destruct Hne; [left|right]; congruence).
    rewrite (analysis_for_job_user_other j' j u' u a Hne' Ha) in E. discriminate.
Qed.

End Analyses.

(** X3.  [delete_job] without a user removes every state row, analysis row
    and listing of the job and nothing of any other job.  It returns True
    exactly when the job had a listing, so False does not mean that
    nothing was deleted; run a second time it returns False and changes
    nothing. *)
Theorem delete_job_all_users (j : string) (d : db) :
  let r := delete_job j None d in
  (fst r = true <-> get_job_by_id j d <> None)
  /\ get_job_by_id j (snd r) = None
  /\ List.filter (for_job j) (job_states (snd r)) = []
  /\ List.filter (analysis_for_job j) (job_analyses (snd r)) = []
  /\ (forall j', j' <> j ->
      get_job_by_id j' (snd r) = get_job_by_id j' d
      /\ List.filter (for_job j') (job_states (snd r))
         = List.filter (for_job j') (job_states d)
      /\ List.filter (analysis_for_job j') (job_analyses (snd r))
         = List.filter (analysis_for_job j') (job_analyses d))
  /\ delete_job j None (snd r) = (false, snd r).
Proof.
  intros r. subst r. unfold delete_job.
  cbn [fst snd job_states job_analyses job_listings seq_job_states seq_job_analysis].
  split; [|split; [|split; [|split; [|split]]]].
  - unfold get_job_by_id, fetchone.
    destruct (List.filter (fun l => String.eqb (job_id l) j) (job_listings d));
      cbn [length head]; split; try congruence; try discriminate.
    intros _. reflexivity.
  - apply get_job_by_id_deleted.
  - apply filter_disjoint. intros s Hs. now rewrite Hs.
  - apply filter_disjoint. intros a Ha. now rewrite Ha.
  - intros j' Hne. split; [|split].
    + unfold get_job_by_id, delete_listing. cbn [job_listings]. f_equal.
      apply filter_commute_neg. intros l Hl. apply String.eqb_eq in Hl.
      destruct (String.eqb_spec (job_id l) j); [congruence|reflexivity].
    + apply filter_commute_neg. intros s Hs. unfold for_job in *.
      apply String.eqb_eq in Hs.
      destruct (String.eqb_spec (s_job_id s) j); [congruence|reflexivity].
    + apply filter_commute_neg. intros a Ha. unfold analysis_for_job in *.
      apply String.eqb_eq in Ha.
      destruct (String.eqb_spec (a_job_id a) j); [congruence|reflexivity].
  - unfold delete_listing. rewrite !filter_idem.
    rewrite (filter_disjoint (fun l => String.eqb (job_id l) j));
      [reflexivity|]. intros l Hl. now rewrite Hl.
Qed.

(** X4.  [delete_job] for a user always returns True, and afterwards the
    job has no listing exactly when it had none before or no state or
    analysis row of the job belongs to another user; this includes the
    case of a user who has no row for the job at all.  The listings of
    other jobs stay. *)
Theorem delete_job_for_user_listing (j : string) (u : Z) (d : db) :
  let r := delete_job j (Some u) d in
  fst r = true
  /\ (get_job_by_id j (snd r) = None <->
      get_job_by_id j d = None
      \/ ((forall s, In s (job_states d) -> s_job_id s = j -> s_user_id s = u)
          /\ (forall a, In a (job_analyses d) -> a_job_id a = j -> a_user_id a = u)))
  /\ (forall j', j' <> j -> get_job_by_id j' (snd r) = get_job_by_id j' d).
Proof.
  intros r. subst r.
  set (states' := List.filter (fun s => negb (for_job_user j u s)) (job_states d)).
  set (analyses' :=
         List.filter (fun a => negb (analysis_for_job_user j u a)) (job_analyses d)).
  assert (Hs_iff : List.filter (for_job j) states' = [] <->
                   forall s, In s (job_states d) -> s_job_id s = j -> s_user_id s = u).
  { unfold states'. rewrite filter_filter_andb. split.
    - intros Hnil s Hin Hj.
      destruct (Z.eq_dec (s_user_id s) u) as [|Hne]; [assumption|exfalso].
      eapply filter_not_nil; [exact Hin| |exact Hnil].
      unfold for_job_user, for_job. cbv beta.
      apply String.eqb_eq in Hj. rewrite Hj.
      apply Z.eqb_neq in Hne. now rewrite Hne.
    - intros Hall. rewrite (filter_ext_on _ (fun _ => false)); [apply filter_none|].
      intros s Hin. unfold for_job_user, for_job.
      destruct (String.eqb_spec (s_job_id s) j) as [Hj|]; [|now rewrite andb_false_r].
      rewrite (Hall s Hin Hj), Z.eqb_refl. reflexivity. }
  assert (Ha_iff : List.filter (analysis_for_job j) analyses' = [] <->
                   forall a, In a (job_analyses d) -> a_job_id a = j -> a_user_id a = u).
  { unfold analyses'. rewrite filter_filter_andb. split.
    - intros Hnil a Hin Hj.
      destruct (Z.eq_dec (a_user_id a) u) as [|Hne]; [assumption|exfalso].
      eapply filter_not_nil; [exact Hin| |exact Hnil].
      unfold analysis_for_job_user, analysis_for_job. cbv beta.
      apply String.eqb_eq in Hj. rewrite Hj.
      apply Z.eqb_neq in Hne. now rewrite Hne.
    - intros Hall. rewrite (filter_ext_on _ (fun _ => false)); [apply filter_none|].
      intros a Hin. unfold analysis_for_job_user, analysis_for_job.
      destruct (String.eqb_spec (a_job_id a) j) as [Hj|]; [|now rewrite andb_false_r].
      rewrite (Hall a Hin Hj), Z.eqb_refl. reflexivity. }
  destruct (list_eq_nil_dec (List.filter (for_job j) states')) as [Hs|Hs];
    [destruct (list_eq_nil_dec (List.filter (analysis_for_job j) analyses')) as [Ha|Ha]|].
  - rewrite (delete_job_drops_listing j u d Hs Ha). cbn [fst snd].
    split; [reflexivity|]. split.
    + rewrite get_job_by_id_deleted. split; [|reflexivity].
      intros _. right. split; [now apply Hs_iff|now apply Ha_iff].
    + intros j' Hne. unfold get_job_by_id, delete_listing. cbn [job_listings]. f_equal.
      apply filter_commute_neg. intros l Hl. apply String.eqb_eq in Hl.
      destruct (String.eqb_spec (job_id l) j); [congruence|reflexivity].
  - rewrite (delete_job_keeps_listing j u d (or_intror Ha)). cbn [fst snd].
    split; [reflexivity|]. split; [|reflexivity].
    unfold get_job_by_id. cbn [job_listings]. split; [tauto|].
    intros [Hnone|[_ Hall]]; [exact Hnone|]. apply Ha_iff in Hall. contradiction.
  - rewrite (delete_job_keeps_listing j u d (or_introl Hs)). cbn [fst snd].
    split; [reflexivity|]. split; [|reflexivity].
    unfold get_job_by_id. cbn [job_listings]. split; [tauto|].
    intros [Hnone|[Hall _]]; [exact Hnone|]. apply Hs_iff in Hall. contradiction.
Qed.

End DatabaseMethods.

Section DatabaseQueries.
Import DatabaseService DatabaseServiceListings.

Lemma StronglySorted_rev {A : Type} (R : A -> A -> Prop) (l : list A) :
  StronglySorted R l -> StronglySorted (fun a b => R b a) (rev l).
Proof.
  induction 1 as [|x l Hl IH Hall]; simpl; [constructor|].
  apply StronglySorted_app. split; [|split].
  - intros a b Ha Hb. apply list_elem_of_In in Ha, Hb.
    destruct Hb as [<-|[]]. apply in_rev in Ha.
    rewrite List.Forall_forall in Hall. now apply Hall.
  - exact IH.
  - repeat constructor.
Qed.

Lemma StronglySorted_limit_offset {A : Type} (R : A -> A -> Prop)
    (limit offset : Z) (l : list A) :
  StronglySorted R l -> StronglySorted R (limit_offset limit offset l).
Proof.
  intros Hl. unfold limit_offset.
  assert (Hdrop : StronglySorted R (drop (Z.to_nat offset) l)).
  { rewrite <- (take_drop (Z.to_nat offset) l) in Hl.
    now apply StronglySorted_app in Hl as (_ & _ & Hd). }
  destruct (limit <? 0)%Z; [exact Hdrop|].
  rewrite <- (take_drop (Z.to_nat limit) (drop (Z.to_nat offset) l)) in Hdrop.
  now apply StronglySorted_app in Hdrop as (_ & Ht & _).
Qed.

Lemma head_in {A : Type} (l : list A) (x : A) : head l = Some x -> In x l.
Proof. destruct l; [discriminate|]. intros [= ->]. now left. Qed.

Lemma last_rev_head {A : Type} (l : list A) : last (rev l) = head l.
Proof.
  destruct l as [|x l]; [reflexivity|]. simpl. now rewrite last_snoc.
Qed.

Section WithEngine.
Context `{SqlOrder}.

(** X5.  [get_job_state_history] returns the state rows of the (job, user)
    pair, each once, ordered by rising timestamp; it is empty exactly when
    [get_current_job_state] finds nothing, and otherwise the current state
    carries the timestamp of the last entry of the history. *)
Theorem job_state_history_chronological (j : string) (u : Z) (d : db) :
  Permutation (get_job_state_history j u d) (history j u d)
  /\ StronglySorted (fun a b => (state_timestamp a <= state_timestamp b)%Z)
       (get_job_state_history j u d)
  /\ (get_job_state_history j u d = [] <-> get_current_job_state j u d = None)
  /\ option_map state_timestamp (get_current_job_state j u d)
     = option_map state_timestamp (last (get_job_state_history j u d)).
Proof.
  unfold get_job_state_history, order_by_asc, history.
  set (rows := List.filter (for_job_user j u) (job_states d)).
  pose proof (order_by_desc_perm _ state_timestamp rows) as Hperm.
  pose proof (order_by_desc_sorted _ state_timestamp rows) as Hsorted.
  assert (Hcur : get_current_job_state j u d
                 = head (order_by_desc state_timestamp rows)).
  { unfold get_current_job_state, fetchone, limit_offset. fold rows.
    change (Z.to_nat 0) with 0%nat. change (Z.to_nat 1) with 1%nat.
    change (1 <? 0)%Z with false. cbv iota. rewrite drop_0.
    now destruct (order_by_desc state_timestamp rows). }
  split; [|split; [|split]].
  - etransitivity; [symmetry; apply Permutation_rev|exact Hperm].
  - apply (StronglySorted_rev _ _ Hsorted).
  - rewrite Hcur. destruct (order_by_desc state_timestamp rows) as [|x l]; simpl.
    + tauto.
    + split; [|discriminate]. intros Hnil.
      apply (f_equal (@length _)) in Hnil. rewrite length_app in Hnil.
      simpl in Hnil. lia.
  - now rewrite Hcur, last_rev_head.
Qed.

(** X6.  A page of [get_jobs_by_state] never holds more rows than a
    non-negative limit allows and is ordered by falling timestamp; every
    row of it joins a stored listing with a state row of the user that has
    the requested state and the greatest timestamp the (job, user) pair
    has. *)
Theorem get_jobs_by_state_page (user_id : Z) (st : string) (limit offset : Z) (d : db) :
  ((0 <= limit)%Z ->
   (length (get_jobs_by_state user_id st limit offset d) <= Z.to_nat limit)%nat)
  /\ StronglySorted (fun a b => (jws_state_timestamp b <= jws_state_timestamp a)%Z)
       (get_jobs_by_state user_id st limit offset d)
  /\ (forall r, In r (get_jobs_by_state user_id st limit offset d) ->
      jws_state r = st
      /\ In (jws_listing r) (job_listings d)
      /\ max_state_timestamp (job_id (jws_listing r)) user_id d
         = Some (jws_state_timestamp r)
      /\ exists s, In s (history (job_id (jws_listing r)) user_id d)
                   /\ state s = st
                   /\ state_timestamp s = jws_state_timestamp r
                   /\ notes s = jws_notes r).
Proof.
  split; [|split].
  - intros Hlimit. unfold get_jobs_by_state, limit_offset.
    destruct (Z.ltb_spec limit 0) as [|_]; [lia|].
    rewrite length_take. lia.
  - unfold get_jobs_by_state. apply StronglySorted_limit_offset.
    apply order_by_desc_sorted.
  - intros r Hin. apply in_get_jobs_by_state in Hin.
    apply in_jobs_by_state_rows in Hin
      as (s & Hl & Hs & Hr & Hj & Hu & Hst & Hm).
    rewrite Hr. cbn [jws_state jws_listing jws_state_timestamp jws_notes].
    split; [exact Hst|]. split; [exact Hl|]. split; [now rewrite Hj, <- Hu|].
    exists s. split; [|auto].
    apply in_history. auto.
Qed.

End WithEngine.

Lemma missing_fields_nil (job_data : gmap string string) :
  missing_fields job_data = [] ->
  forall f, In f required_fields -> exists v, job_data !! f = Some v.
Proof.
  unfold missing_fields. intros Hnil f Hin.
  destruct (job_data !! f) as [v|] eqn:E; [eauto|exfalso].
  eapply filter_not_nil; [exact Hin| |exact Hnil].
  cbv beta. rewrite E. reflexivity.
Qed.

Lemma get_job_by_id_None (j : string) (d : db) :
  get_job_by_id j d = None <-> ~ In j (map job_id (job_listings d)).
Proof.
  unfold get_job_by_id, fetchone. split.
  - intros Hnone Hin. apply in_map_iff in Hin as (l & Hj & Hin).
    eapply (filter_not_nil (fun l => String.eqb (job_id l) j)); [exact Hin| |].
    + cbv beta. rewrite Hj. apply String.eqb_refl.
    + now destruct (List.filter _ (job_listings d)).
  - intros Hnot.
    destruct (List.filter (fun l => String.eqb (job_id l) j) (job_listings d))
      as [|l rest] eqn:E; [reflexivity|exfalso].
    assert (Hl : In l (List.filter (fun l => String.eqb (job_id l) j) (job_listings d)))
      by (rewrite E; now left).
    apply filter_In in Hl as [Hl Hj]. apply String.eqb_eq in Hj.
    apply Hnot. apply in_map_iff. eauto.
Qed.

(** X7.  [add_job_listing] either raises a ValueError and writes nothing,
    which happens exactly when a required field is missing or the job id
    is already listed, or it appends one listing and returns its id.  In
    the second case the new listing is what [get_job_by_id] returns for
    its job id, the optional fields that were not given are empty texts,
    job ids stay pairwise distinct if they were, and the lookup of any
    other job id is as before. *)
Theorem add_job_listing_checks (set_order : list string -> list string)
    (job_data : gmap string string) (now rowid : Z) (d : db) :
  match add_job_listing set_order job_data now rowid d with
  | (Raise e, d') =>
      d' = d /\ is_ValueError e = true
      /\ (missing_fields job_data <> []
          \/ exists jid, job_data !! "job_id" = Some jid /\ get_job_by_id jid d <> None)
  | (Return id, d') =>
      id = rowid
      /\ missing_fields job_data = []
      /\ exists jid title company url,
           job_data !! "job_id" = Some jid /\ job_data !! "title" = Some title
           /\ job_data !! "company" = Some company /\ job_data !! "url" = Some url
           /\ get_job_by_id jid d = None
           /\ get_job_by_id jid d'
              = Some (JobListing rowid jid title company
                        (default "" (job_data !! "location"))
                        (default "" (job_data !! "description"))
                        url now
                        (default "" (job_data !! "source_term")))
           /\ (NoDup (map job_id (job_listings d)) ->
               NoDup (map job_id (job_listings d')))
           /\ (forall j', j' <> jid -> get_job_by_id j' d' = get_job_by_id j' d)
           /\ job_states d' = job_states d /\ job_analyses d' = job_analyses d
  end.
Proof.
  unfold add_job_listing.
  destruct (missing_fields job_data) as [|f fs] eqn:Hmiss.
  - pose proof (missing_fields_nil job_data Hmiss) as Hreq.
    destruct (Hreq "job_id") as [jid Hjid]; [simpl; tauto|].
    destruct (Hreq "title") as [title Htitle]; [simpl; tauto|].
    destruct (Hreq "company") as [company Hcompany]; [simpl; tauto|].
    destruct (Hreq "url") as [url Hurl]; [simpl; tauto|].
    cbv beta zeta. rewrite Hjid, Htitle, Hcompany, Hurl. cbn [from_option id].
    destruct (get_job_by_id jid d) as [l|] eqn:Hget.
    + split; [reflexivity|]. split; [reflexivity|]. right.
      exists jid. split; [reflexivity|congruence].
    + split; [reflexivity|]. split; [reflexivity|].
      exists jid, title, company, url.
      do 4 (split; [reflexivity|]). split; [exact Hget|].
      cbn [job_listings job_states job_analyses].
      split; [|split; [|split; [|split; reflexivity]]].
      * unfold get_job_by_id in *. cbn [job_listings].
        rewrite filter_app_one. cbn [job_id]. rewrite String.eqb_refl.
        unfold fetchone in *.
        destruct (List.filter (fun l => String.eqb (job_id l) jid) (job_listings d));
          [reflexivity|discriminate].
      * intros Hnodup. rewrite map_app. cbn [map job_id].
        apply NoDup_app. split; [exact Hnodup|]. split.
        -- intros x Hx Hx'. apply list_elem_of_In in Hx, Hx'.
           destruct Hx' as [<-|[]].
           apply get_job_by_id_None in Hget. contradiction.
        -- apply NoDup_singleton.
      * intros j' Hne. unfold get_job_by_id. cbn [job_listings].
        rewrite filter_app_one. cbn [job_id].
        destruct (String.eqb_spec jid j'); [congruence|now rewrite app_nil_r].
  - split; [reflexivity|]. split; [reflexivity|]. left. discriminate.
Qed.

End DatabaseQueries.

Section StateCounts.
Import DatabaseService DatabaseServiceListings.

Lemma lookup_zero_counts (keys : list string) (k : string) :
  (list_to_map (map (fun st => (st, 0%Z)) keys) : gmap string Z) !! k
  = if decide (k ∈ keys) then Some 0%Z else None.
Proof.
  induction keys as [|x keys IH]; simpl.
  - rewrite lookup_empty. now destruct (decide (k ∈ [])) as [Hin|]; [inversion Hin|].
  - rewrite lookup_insert. destruct (decide (x = k)) as [->|Hne].
    + destruct (decide (k ∈ k :: keys)) as [|Hnot]; [reflexivity|].
      exfalso. apply Hnot. left.
    + rewrite IH. destruct (decide (k ∈ keys)) as [Hin|Hnot].
      * destruct (decide (k ∈ x :: keys)) as [|Hnot]; [reflexivity|].
        exfalso. apply Hnot. now right.
      * destruct (decide (k ∈ x :: keys)) as [Hin|]; [|reflexivity].
        exfalso. apply elem_of_cons in Hin as [->|Hin]; [now apply Hne|now apply Hnot].
Qed.

Lemma lookup_fold_insert (f : string -> Z) (keys : list string) (k : string) :
  forall m : gmap string Z,
    fold_left (fun counts row => <[fst row := snd row]> counts)
      (map (fun st => (st, f st)) keys) m !! k
    = if decide (k ∈ keys) then Some (f k) else m !! k.
Proof.
  induction keys as [|x keys IH]; intros m; simpl.
  - now destruct (decide (k ∈ [])) as [Hin|]; [inversion Hin|].
  - rewrite IH. destruct (decide (k ∈ keys)) as [Hin|Hnot].
    + destruct (decide (k ∈ x :: keys)) as [|Hnot]; [reflexivity|].
      exfalso. apply Hnot. now right.
    + rewrite lookup_insert. destruct (decide (x = k)) as [->|Hne].
      * destruct (decide (k ∈ k :: keys)) as [|Hnot']; [reflexivity|].
        exfalso. apply Hnot'. left.
      * destruct (decide (k ∈ x :: keys)) as [Hin|]; [|reflexivity].
        exfalso. apply elem_of_cons in Hin as [->|Hin]; [now apply Hne|now apply Hnot].
Qed.

Lemma state_rows_zero (user_id : Z) (st : string) (d : db) :
  ~ st ∈ map state (List.filter (fun s => (s_user_id s =? user_id)%Z) (job_states d)) ->
  state_rows user_id st d = 0%nat.
Proof.
  intros Hnot. unfold state_rows.
  rewrite (filter_ext_on _ (fun _ => false)); [now rewrite filter_none|].
  intros s Hin. destruct (String.eqb_spec (state s) st) as [Heq|]; [|reflexivity].
  exfalso. apply Hnot. apply list_elem_of_In. apply in_map_iff. eauto.
Qed.

Lemma get_job_states_by_user_lookup (user_id : Z) (d : db) (st : string) :
  In st JobStates.VALID_STATES ->
  get_job_states_by_user user_id d !! st = Some (Z.of_nat (state_rows user_id st d)).
Proof.
  intros Hvalid. unfold get_job_states_by_user, state_groups.
  rewrite (lookup_fold_insert
             (fun st => Z.of_nat (length (List.filter (fun s => String.eqb (state s) st)
                (List.filter (fun s => (s_user_id s =? user_id)%Z) (job_states d)))))).
  destruct (decide (st ∈ remove_dups _)) as [Hin|Hnot]; [reflexivity|].
  rewrite lookup_zero_counts.
  destruct (decide (st ∈ JobStates.VALID_STATES)) as [_|Hno];
    [|exfalso; now apply Hno, list_elem_of_In].
  rewrite state_rows_zero; [reflexivity|].
  intros Hin. apply Hnot. now apply elem_of_remove_dups.
Qed.

(** X8.  For each of the ten valid states [get_job_states_by_user] reports
    the number of state rows of the user with that state, superseded rows
    included: when [add_job_state] moves a listed job of the user to
    another state, the count of the new state grows by one and the count
    of every other state, the one the job leaves among them, stays as it
    was; for a job without a listing the write fails and every count stays
    as it was. *)
Theorem get_job_states_by_user_counts_rows (user_id : Z) (d : db) (st : string)
    (Hvalid : In st JobStates.VALID_STATES) :
  get_job_states_by_user user_id d !! st = Some (Z.of_nat (state_rows user_id st d))
  /\ forall (j : string) (st' : string) (nts : option string) (now : Z),
       In st' JobStates.VALID_STATES ->
       let d' := snd (add_job_state j user_id st' nts now d) in
       (get_job_by_id j d <> None ->
        get_job_states_by_user user_id d' !! st
        = Some (Z.of_nat (state_rows user_id st d)
                + (if String.eqb st' st then 1 else 0))%Z)
       /\ (get_job_by_id j d = None ->
           get_job_states_by_user user_id d' !! st
           = Some (Z.of_nat (state_rows user_id st d))).
Proof.
  split; [now apply get_job_states_by_user_lookup|].
  intros j st' nts now Hvalid' d'. subst d'.
  rewrite (get_job_states_by_user_lookup _ _ _ Hvalid).
  unfold add_job_state.
  apply valid_state_existsb in Hvalid'. rewrite Hvalid'. cbn [negb]. cbv iota.
  split; intros Hlisted.
  - apply listed_get_job_by_id in Hlisted. rewrite Hlisted. cbn [negb snd]. f_equal.
    unfold state_rows. cbn [job_states].
    rewrite filter_app_one. cbn [s_user_id]. rewrite Z.eqb_refl.
    rewrite filter_app_one. cbn [state]. rewrite length_app.
    destruct (String.eqb st' st); simpl; lia.
  - apply unlisted_get_job_by_id in Hlisted. rewrite Hlisted. reflexivity.
Qed.

(** User 7 in [progressed_db]: one row [analyzed]; moving the listed job
    4021 to [relevant] gives one row [relevant] and leaves the row
    [analyzed] counted, while the same write for the unlisted job 9999
    changes no count. *)
Lemma get_job_states_by_user_counts_rows_witness :
  get_job_states_by_user 7 progressed_db !! "analyzed" = Some 1%Z
  /\ get_job_states_by_user 7
       (snd (add_job_state "4021" 7 "relevant" None 3 progressed_db)) !! "relevant"
     = Some 1%Z
  /\ get_job_states_by_user 7
       (snd (add_job_state "4021" 7 "relevant" None 3 progressed_db)) !! "analyzed"
     = Some 1%Z
  /\ get_job_states_by_user 7
       (snd (add_job_state "9999" 7 "relevant" None 3 progressed_db)) !! "relevant"
     = Some 0%Z.
Proof.
  destruct (get_job_states_by_user_counts_rows 7 progressed_db "analyzed"
              ltac:(simpl; tauto)) as [Hcount Hmove].
  destruct (get_job_states_by_user_counts_rows 7 progressed_db "relevant"
              ltac:(simpl; tauto)) as [_ Hmove'].
  split; [rewrite Hcount; reflexivity|].
  split; [|split].
  - rewrite (proj1 (Hmove' "4021" "relevant" None 3%Z ltac:(simpl; tauto)));
      [reflexivity|discriminate].
  - rewrite (proj1 (Hmove "4021" "relevant" None 3%Z ltac:(simpl; tauto)));
      [reflexivity|discriminate].
  - rewrite (proj2 (Hmove' "9999" "relevant" None 3%Z ltac:(simpl; tauto)));
      reflexivity.
Defined.

End StateCounts.

(* ===================================================================== *)
(** * Further properties of the job-analysis service *)
Section AnalyzeJobPaths.
Import JobAnalysisService.
Context {S : Type}.

(** The calls a computation adds to the record. *)
Ltac no_calls := exists []; split; [now rewrite app_nil_r|].
Ltac these_calls := eexists; split; [rewrite <- ?app_assoc; reflexivity|].

Lemma update_job_states_calls (self : t S) (jid : pyval) (u : Z) (score : float)
    (prefs : gmap string pyval) (w : world S) :
  exists l,
    calls (snd (_update_job_states self jid u score prefs w)) = calls w ++ l
    /\ state_calls jid u l.
Proof.
  unfold _update_job_states. destruct (db_service self) as [db|].
  - unfold bind, lift, ret, invoke.
    destruct (add_job_state db jid u JobStates.STATE_ANALYZED (ext w))
      as [[rowid|e] s1]; cbn [snd calls ext].
    + destruct (float_ge score (threshold_of prefs)) as [b|e]; cbn [snd calls ext].
      * destruct (add_job_state db jid u _ s1) as [[rowid'|e] s2]; cbn [snd calls];
          these_calls; cbn [app state_calls]; destruct b; auto 10.
      * these_calls. cbn [state_calls]. auto.
    + these_calls. cbn [state_calls]. auto.
  - cbn [ret snd]. no_calls. exact I.
Qed.

Lemma store_calls (self : t S) (jid : pyval) (user_id : option Z) (score : float)
    (details prefs : gmap string pyval) (w : world S) :
  exists l,
    calls (snd (_store_analysis_and_update_state self jid user_id score details prefs w))
    = calls w ++ l
    /\ persist_calls l.
Proof.
  unfold _store_analysis_and_update_state.
  destruct (db_service self) as [db|] eqn:Hdb; [|cbn [ret snd]; no_calls; exact I].
  destruct user_id as [u|]; [|cbn [ret snd]; no_calls; exact I].
  destruct (u =? 0)%Z; [cbn [ret snd]; no_calls; exact I|].
  unfold bind at 1. unfold invoke at 1.
  destruct (add_job_analysis db jid u score (PDict details) (ext w)) as [[rowid|e] s1].
  - destruct (update_job_states_calls self jid u score prefs
                (World s1 (calls w ++ [AddJobAnalysis jid u score (PDict details)])))
      as (l & Hl & Hshape).
    rewrite Hl. cbn [calls]. these_calls. exact Hshape.
  - cbn [snd calls]. these_calls. exact I.
Qed.

Lemma maybe_store_calls (self : t S) (job : gmap string pyval) (user_id : option Z)
    (score : float) (details prefs : gmap string pyval) (store_results : bool)
    (w : world S) :
  exists l,
    calls (snd ((if should_store self user_id store_results
                 then (job_id <- lift (dict_item job "job_id") ;;
                       _store_analysis_and_update_state self job_id user_id
                         score details prefs)
                 else ret tt)%eff w))
    = calls w ++ l
    /\ persist_calls l
    /\ (should_store self user_id store_results = false -> l = []).
Proof.
  destruct (should_store self user_id store_results).
  - unfold bind, lift. destruct (dict_item job "job_id") as [jid|e].
    + destruct (store_calls self jid user_id score details prefs w) as (l & Hl & Hshape).
      exists l. split; [exact Hl|]. split; [exact Hshape|discriminate].
    + cbn [snd]. no_calls. split; [exact I|reflexivity].
  - cbn [ret snd]. no_calls. split; [exact I|reflexivity].
Qed.

Lemma handle_full_calls (self : t S) (job : gmap string pyval) (user_id : option Z)
    (title_relevance : float) (title_analysis : pyval) (prefs : gmap string pyval)
    (job_titles : pyval) (store_results : bool) (w : world S) :
  exists l,
    calls (snd (_handle_full_analysis self job user_id title_relevance title_analysis
                  prefs job_titles store_results w))
    = calls w ++ l
    /\ match l with
       | [] => True
       | DescriptionAnalyze _ :: rest =>
           persist_calls rest
           /\ (should_store self user_id store_results = false -> rest = [])
       | _ => False
       end.
Proof.
  pose proof (fun score details w1 =>
                maybe_store_calls self job user_id score details prefs
                  store_results w1) as Hstore.
  unfold _handle_full_analysis.
  unfold bind at 1, lift at 1.
  destruct (dict_item job "job_id") as [jid|e] eqn:Hjid;
    [|cbn [snd]; no_calls; exact I].

  unfold bind at 1, lift at 1.
  destruct (dict_item job "title") as [title|e]; [|cbn [snd]; no_calls; exact I].
  unfold bind at 1, lift at 1.
  destruct (dict_item job "company") as [company|e]; [|cbn [snd]; no_calls; exact I].
  unfold bind at 1, lift at 1.
  destruct (dict_item job "description") as [description|e];
    [|cbn [snd]; no_calls; exact I].
  cbv zeta. unfold bind at 1, invoke at 1.
  destruct (analyze (description_analyzer self) _ (ext w)) as [[[score full]|e] s1];
    [|cbn [snd calls]; these_calls; split; [exact I|reflexivity]].
  cbn [fst snd]. unfold bind at 1.
  match goal with
  | |- context [(if should_store _ _ _ then _ else _) ?w1] =>
      destruct (Hstore score (full_details title_analysis title_relevance full score) w1)
        as (l & Hl & Hshape & Hnone)
  end.
  match type of Hl with
  | calls (snd ?run) = _ => destruct run as [[[]|e] w2]
  end; cbn [snd calls] in Hl.
  - unfold bind, lift.
    destruct (float_ge score (threshold_of prefs)) as [b|e].
    + destruct (_create_analysis_result job score b _) as [r|e];
        cbn [snd]; rewrite Hl; these_calls; cbn [app]; auto.
    + cbn [snd]. rewrite Hl. these_calls. cbn [app]. auto.
  - cbn [snd]. rewrite Hl. these_calls. cbn [app]. auto.
Qed.

Lemma handle_skipped_calls (self : t S) (job : gmap string pyval) (user_id : option Z)
    (title_relevance : float) (title_analysis : pyval) (prefs : gmap string pyval)
    (store_results : bool) (w : world S) :
  exists l,
    calls (snd (_handle_skipped_analysis self job user_id title_relevance title_analysis
                  prefs store_results w))
    = calls w ++ l
    /\ persist_calls l
    /\ (should_store self user_id store_results = false -> l = []).
Proof.
  pose proof (maybe_store_calls self job user_id title_relevance
                (skipped_details title_analysis title_relevance)
                prefs store_results w) as (l & Hl & Hshape & Hnone).
  unfold _handle_skipped_analysis.
  unfold bind at 1, lift at 1.
  destruct (dict_item job "job_id") as [jid|e] eqn:Hjid;
    [|cbn [snd]; no_calls; split; [exact I|reflexivity]].

  cbv zeta. unfold bind at 1.
  match type of Hl with
  | calls (snd ?run) = _ => destruct run as [[[]|e] w2]
  end; cbn [snd] in Hl.
  - unfold lift. cbn [snd]. exists l. auto.
  - cbn [snd]. exists l. auto.
Qed.

(** X9.  [analyze_job] never raises: it returns a dict whatever the
    strategies, the database service and the job dict do.  The calls it
    makes follow one protocol: the title strategy first, then at most one
    call of the description strategy, then at most the writes of one
    analysis row, the state [analyzed] and the state [relevant] or
    [irrelevant], in this order and for one job and user.  When
    [store_results] is false, the service has no database or the user id
    is absent or 0, it makes no database call at all. *)
Theorem analyze_job_call_protocol (self : t S) (job : gmap string pyval)
    (user_id : option Z) (analysis_prefs : option (gmap string pyval))
    (job_titles : pyval) (store_results : bool) (w : world S) :
  exists result w' l,
    analyze_job self job user_id analysis_prefs job_titles store_results w
    = (Return result, w')
    /\ calls w' = calls w ++ l
    /\ analysis_calls l
    /\ (should_store self user_id store_results = false ->
        List.filter is_db_call l = []).
Proof.
  assert (Hbody :
    exists l,
      calls (snd (analyze_job self job user_id analysis_prefs job_titles
                    store_results w)) = calls w ++ l
      /\ analysis_calls l
      /\ (should_store self user_id store_results = false ->
          List.filter is_db_call l = [])).
  { unfold analyze_job, try_except.
    set (prefs := default ∅ analysis_prefs).
    unfold bind at 1. unfold _analyze_job_title.
    unfold bind at 1, lift at 1.
    destruct (dict_item job "title") as [title|e];
      [|cbn [ret snd]; no_calls; split; [exact I|reflexivity]].
    unfold bind at 1, lift at 1.
    destruct (dict_item job "company") as [company|e];
      [|cbn [ret snd]; no_calls; split; [exact I|reflexivity]].
    cbv zeta. unfold invoke at 1.
    destruct (analyze (title_analyzer self) _ (ext w)) as [[[t ta]|e] s1];
      [|cbn [ret snd calls]; these_calls; split; [exact I|reflexivity]].
    cbn [fst snd]. unfold bind at 1, lift at 1.
    destruct (float_ge t (strictness_of prefs)) as [[|]|e].
    - match goal with
      | |- context [_handle_full_analysis _ _ _ _ _ _ _ _ ?w1] =>
          destruct (handle_full_calls self job user_id t ta prefs job_titles
                      store_results w1) as (l & Hl & Hshape);
          destruct (_handle_full_analysis self job user_id t ta prefs job_titles
                      store_results w1) as [[r|e] w2]
      end; cbn [ret snd calls] in *; rewrite Hl; these_calls;
        (destruct l as [|[] rest]; cbn [app analysis_calls]; [split; [exact I|reflexivity]|..];
         try contradiction; destruct Hshape as [Hp Hnone]; split; [exact Hp|];
         intros Hno; rewrite (Hnone Hno); reflexivity).
    - match goal with
      | |- context [_handle_skipped_analysis _ _ _ _ _ _ _ ?w1] =>
          destruct (handle_skipped_calls self job user_id t ta prefs
                      store_results w1) as (l & Hl & Hshape & Hnone);
          destruct (_handle_skipped_analysis self job user_id t ta prefs
                      store_results w1) as [[r|e] w2]
      end; cbn [ret snd calls] in *; rewrite Hl; these_calls;
        (split; [destruct l as [|[] rest]; cbn [app analysis_calls]; auto;
                 contradiction|];
         intros Hno; rewrite (Hnone Hno); reflexivity).
    - cbn [ret snd calls]. these_calls. split; [exact I|reflexivity]. }
  destruct Hbody as (l & Hl & Hshape & Hnone).
  assert (Hret : exists result,
             fst (analyze_job self job user_id analysis_prefs job_titles
                    store_results w) = Return result).
  { unfold analyze_job, try_except.
    match goal with
    | |- context [match ?m w with _ => _ end] => destruct (m w) as [[r|e] w']
    end; cbn [ret fst]; eauto. }
  destruct Hret as (result & Hret).
  destruct (analyze_job self job user_id analysis_prefs job_titles store_results w)
    as [o w'] eqn:Hrun.
  cbn [fst snd] in *. subst o. exists result, w', l. auto.
Qed.

Lemma analyze_job_title_raises (self : t S) (job : gmap string pyval)
    (user_id : option Z) (analysis_prefs : option (gmap string pyval))
    (job_titles : pyval) (store_results : bool) (w : world S)
    (title company : pyval) (e : exn) (s1 : S) :
  job !! "title" = Some title -> job !! "company" = Some company ->
  analyze (title_analyzer self)
    (title_kwargs title company (default ∅ analysis_prefs) job_titles) (ext w)
  = (Raise e, s1) ->
  analyze_job self job user_id analysis_prefs job_titles store_results w
  = (Return (error_result job e),
     World s1
       (calls w
          ++ [TitleAnalyze
                (title_kwargs title company (default ∅ analysis_prefs) job_titles)])).
Proof.
  intros Ht Hc Htitle. unfold analyze_job, try_except.
  unfold bind at 1. unfold _analyze_job_title.
  run_item Ht. run_item Hc.
  rewrite (invoke_run
             (TitleAnalyze
                (title_kwargs title company (default ∅ analysis_prefs) job_titles))
             _ w _ _ Htitle).
  reflexivity.
Qed.

(** X10.  A failing strategy ends [analyze_job] with the error dict and no
    database write, also when persistence was asked for.  If the title
    strategy raises [e], the only call made is that one; if the title
    passes the strictness and the description strategy raises [e], the
    calls are the two strategy calls.  In both cases the result carries
    [status = "error"] and the text of [e], and has no [is_relevant] or
    [relevance_score] key. *)
Theorem analyze_job_strategy_failure (self : t S) (job : gmap string pyval)
    (user_id : option Z) (analysis_prefs : option (gmap string pyval))
    (job_titles : pyval) (store_results : bool) (w : world S)
    (title company : pyval) (e : exn) :
  job !! "title" = Some title -> job !! "company" = Some company ->
  let prefs := default ∅ analysis_prefs in
  let title_call := TitleAnalyze (title_kwargs title company prefs job_titles) in
  error_result job e !! "status" = Some (PStr "error")
  /\ error_result job e !! "error" = Some (PStr (str_exn e))
  /\ error_result job e !! "is_relevant" = None
  /\ error_result job e !! "relevance_score" = None
  /\ (forall s1,
       analyze (title_analyzer self) (title_kwargs title company prefs job_titles)
         (ext w) = (Raise e, s1) ->
       analyze_job self job user_id analysis_prefs job_titles store_results w
       = (Return (error_result job e), World s1 (calls w ++ [title_call])))
  /\ (forall t ta s1 jid description s2,
       job !! "job_id" = Some jid -> job !! "description" = Some description ->
       analyze (title_analyzer self) (title_kwargs title company prefs job_titles)
         (ext w) = (Return (t, ta), s1) ->
       float_ge t (strictness_of prefs) = Return true ->
       analyze (description_analyzer self)
         (description_kwargs title company description prefs job_titles) s1
       = (Raise e, s2) ->
       analyze_job self job user_id analysis_prefs job_titles store_results w
       = (Return (error_result job e),
          World s2
            (calls w
               ++ [title_call;
                   DescriptionAnalyze
                     (description_kwargs title company description prefs job_titles)]))).
Proof.
  intros Ht Hc prefs title_call.
  do 4 (split; [reflexivity|]). split.
  - intros s1 Htitle.
    exact (analyze_job_title_raises self job user_id analysis_prefs job_titles
             store_results w title company e s1 Ht Hc Htitle).
  - intros t ta s1 jid description s2 Hj Hd Htitle Hge Hdesc.
    unfold analyze_job, try_except. fold prefs.
    run_with (analyze_job_title_returns self job title company prefs job_titles
                w (t, ta) s1 Ht Hc Htitle).
    cbn [fst snd]. unfold bind at 1, lift at 1. rewrite Hge. cbv beta iota zeta.
    unfold _handle_full_analysis.
    run_item Hj. run_item Ht. run_item Hc. run_item Hd.
    unfold bind at 1.
    rewrite (invoke_run
               (DescriptionAnalyze
                  (description_kwargs title company description prefs job_titles))
               _ _ (Raise e) s2); [|exact Hdesc].
    cbn [ret calls]. rewrite <- app_assoc. reflexivity.
Qed.

End AnalyzeJobPaths.

Section AnalyzeJobExamples.
Import JobAnalysisService.

(** The title strategy of a mock service fails with a connection error:
    the result is the error dict, after one call. *)
Lemma analyze_job_strategy_failure_witness :
  let e := Exn OtherError "connection reset" in
  let self := Service (failing_strategy e) (fixed_strategy 0.3 (PDict ∅)) None in
  snd (analyze_job self example_job None (Some example_prefs) PNone true (World tt []))
  = World tt [TitleAnalyze
                (title_kwargs (PStr "Machine Learning Engineer") (PStr "Acme")
                   example_prefs PNone)].
Proof.
  intros e self.
  destruct (analyze_job_strategy_failure self example_job None (Some example_prefs)
              PNone true (World tt []) (PStr "Machine Learning Engineer") (PStr "Acme")
              e eq_refl eq_refl) as (_ & _ & _ & _ & Htitle & _).
  rewrite (Htitle tt eq_refl). reflexivity.
Defined.

End AnalyzeJobExamples.

(* ===================================================================== *)
(** * Properties of the analysis queue and of re-analysis *)
Section QueueCounters.
Import JobAnalysisService JobAnalysisQueue.
Context {S : Type}.

Lemma handle_already_counts (self : t S) (job : gmap string pyval) (u : Z)
    (score : float) (prefs : gmap string pyval) (q : queue_world S) :
  match _handle_already_analyzed_job self job u score prefs q with
  | (Return _, q') => counted_once (counts q) (counts q')
  | (Raise _, q') => counts q' = counts q
  end.
Proof.
  unfold _handle_already_analyzed_job, bind, lift, on_service, invoke, modify.
  destruct (dict_item job "job_id") as [jid|e]; [|reflexivity].
  destruct (the_db self "add_job_state") as [db|e]; [|reflexivity].
  destruct (add_job_state db jid u JobStates.STATE_ANALYZED _) as [[rowid|e] s1];
    [|reflexivity].
  destruct (float_ge score (threshold_of prefs)) as [b|e]; [|reflexivity].
  cbn [service_world ext counts].
  destruct (add_job_state db jid u _ s1) as [[rowid'|e] s2]; [|reflexivity].
  cbn [counts]. unfold counted_once. destruct b; cbn; auto.
Qed.

Lemma process_queued_job_body_counts (self : t S) (reads : database_reads S)
    (job : gmap string pyval) (u : Z) (prefs : gmap string pyval) (titles : pyval)
    (q : queue_world S) :
  exists q',
    _process_queued_job self reads None job u prefs titles q
    = (match dict_item job "job_id" with
       | Return _ => Return tt
       | Raise e => Raise e
       end, q')
    /\ (match dict_item job "job_id" with
        | Return _ =>
            counted_once (counts q) (counts q') \/ counts q' = bump_errors (counts q)
        | Raise _ => counts q' = counts q
        end).
Proof.
  unfold _process_queued_job, try_except.
  unfold bind at 1, lift at 1.
  destruct (the_db self "get_job_analysis") as [db0|e0].
  2:{ unfold bind, lift, modify, on_service, notify, ret.
      destruct (dict_item job "job_id") as [jid|e]; eexists; split;
        try reflexivity; cbn [counts]; auto. }
  unfold bind at 1, lift at 1.
  destruct (dict_item job "job_id") as [jid|e] eqn:Hjid.
  2:{ unfold bind, lift. eexists; split; reflexivity. }
  assert (Hhandler : forall e (q1 : queue_world S),
             counts q1 = counts q ->
             exists q',
               (job_id <- lift (Return jid);;
                _ <- modify bump_errors;;
                on_service (notify None "error"
                              (PDict (mkdict [("job_id", job_id);
                                              ("error", PStr (str_exn e))]))))%eff q1
               = (Return tt, q')
               /\ (counted_once (counts q) (counts q')
                   \/ counts q' = bump_errors (counts q))).
  { intros e q1 Hq1. eexists. split; [reflexivity|].
    right. cbn [counts service_world]. now rewrite Hq1. }
  unfold bind at 1, on_service at 1, on_ext at 1.
  destruct (get_job_analysis reads jid u _) as [[existing|e] s1];
    [|apply Hhandler; reflexivity].
  destruct existing as [score|].
  - pose proof (handle_already_counts self job u score prefs
                  (QueueWorld (World s1 (calls (service_world q))) (counts q)))
      as Hcounts.
    destruct (_handle_already_analyzed_job self job u score prefs _)
      as [[[]|e] q1]; cbn [counts] in Hcounts.
    + eexists. split; [reflexivity|]. left. exact Hcounts.
    + apply Hhandler. exact Hcounts.
  - unfold bind at 1, lift at 1.
    destruct (the_db self "add_job_state") as [db|e]; [|apply Hhandler; reflexivity].
    unfold bind at 1, on_service at 1, invoke at 1.
    cbn [service_world ext].
    destruct (add_job_state db jid u JobStates.STATE_ANALYZING s1) as [[rowid|e] s2];
      [|apply Hhandler; reflexivity].
    unfold bind at 1, on_service at 1, notify at 1, ret at 1.
    cbn [service_world].
    unfold bind at 1, on_service at 1.
    destruct (analyze_job self job (Some u) (Some prefs) titles true _)
      as [[analysis|e] w3]; [|apply Hhandler; reflexivity].
    unfold bind at 1, _update_analysis_results, modify at 1.
    unfold on_service, notify, ret. cbn [service_world counts].
    eexists. split; [reflexivity|]. left. cbn [counts]. unfold counted_once.
    destruct (truthy _); auto.
Qed.

(** Arithmetic of the counters over a run of the loop. *)
Lemma for_each_counts (self : t S) (reads : database_reads S) (u : Z)
    (prefs : gmap string pyval) (titles : pyval) (queued : list (gmap string pyval)) :
  (forall job, In job queued -> is_Some (job !! "job_id")) ->
  forall q,
  exists q',
    for_each queued (fun job => _process_queued_job self reads None job u prefs titles) q
    = (Return tt, q')
    /\ total (counts q') = total (counts q)
    /\ (analyzed (counts q') + errors (counts q')
        = analyzed (counts q) + errors (counts q) + Z.of_nat (length queued))%Z
    /\ (relevant (counts q') + not_relevant (counts q') - analyzed (counts q')
        = relevant (counts q) + not_relevant (counts q) - analyzed (counts q))%Z
    /\ (errors (counts q) <= errors (counts q'))%Z
    /\ (skipped (counts q) <= skipped (counts q'))%Z
    /\ (skipped (counts q') - analyzed (counts q')
        <= skipped (counts q) - analyzed (counts q))%Z.
Proof.
  induction queued as [|job rest IH]; intros Hids q.
  - exists q. split; [reflexivity|]. cbn [length]. lia.
  - destruct (Hids job (or_introl eq_refl)) as [jid Hjid].
    destruct (process_queued_job_body_counts self reads job u prefs titles q)
      as (q1 & Hrun & Hcounts).
    unfold dict_item in Hrun, Hcounts. rewrite Hjid in Hrun, Hcounts.
    destruct (IH (fun j Hj => Hids j (or_intror Hj)) q1) as (q' & Hrest & Hinv).
    exists q'. split.
    + cbn [for_each]. unfold bind at 1. rewrite Hrun. exact Hrest.
    + cbn [length]. rewrite Nat2Z.inj_succ.
      destruct Hcounts as [[Hc|[Hc|[Hc|Hc]]]|Hc]; rewrite Hc in Hinv;
        cbn in Hinv; lia.
Qed.

(** X11.  When the queue read and the preference service return and every
    queued job carries a [job_id], [analyze_queued_jobs] without a
    callback returns its counters whatever the strategies and the database
    writes do, and the counters add up: [total] is the length of the
    queue, every job is counted exactly once under [analyzed] or under
    [errors], every analysed job exactly once under [relevant] or under
    [not_relevant], and [skipped] counts some of the analysed jobs. *)
Theorem analyze_queued_jobs_counters (self : t S) (reads : database_reads S)
    (prefs : preferences S) (user_id limit : Z) (w : world S)
    (queued : list (gmap string pyval)) (s0 : S) :
  db_service self <> None ->
  get_jobs_by_state reads user_id JobStates.STATE_QUEUED_FOR_ANALYSIS limit (ext w)
  = (Return queued, s0) ->
  (forall job, In job queued -> is_Some (job !! "job_id")) ->
  (forall category s, exists p s',
      get_preferences_by_category prefs user_id category s = (Return p, s')) ->
  exists r w',
    analyze_queued_jobs self reads prefs user_id limit None w = (Return r, w')
    /\ total r = Z.of_nat (length queued)
    /\ (analyzed r + errors r = total r)%Z
    /\ (relevant r + not_relevant r = analyzed r)%Z
    /\ (0 <= errors r)%Z
    /\ (0 <= skipped r <= analyzed r)%Z.
Proof.
  intros Hdb Hqueue Hids Hprefs.
  unfold analyze_queued_jobs.
  destruct (db_service self) as [db|]; [clear Hdb|contradiction].
  unfold bind at 1, on_ext at 1. rewrite Hqueue.
  unfold bind at 1, notify at 1, ret at 1.
  unfold bind at 1, _get_user_preferences.
  unfold bind at 1, on_ext at 1. cbn [ext].
  destruct (Hprefs PreferenceService.CATEGORY_ANALYSIS s0) as (p1 & s1 & Hp1).
  rewrite Hp1.
  unfold bind at 1, on_ext at 1. cbn [ext].
  destruct (Hprefs PreferenceService.CATEGORY_SEARCH s1) as (p2 & s2 & Hp2).
  rewrite Hp2. unfold ret at 1. cbn [fst snd calls].
  unfold bind at 1, with_results.
  destruct (for_each_counts self reads user_id p1
              (dict_get p2 "job_titles" (PList [])) queued Hids
              (QueueWorld (World s2 (calls w))
                 (Results (Z.of_nat (length queued)) 0 0 0 0 0)))
    as (q' & Hloop & Htotal & Hsum & Hclass & Herr & Hskip & Hskip').
  rewrite Hloop. unfold bind, notify, ret.
  cbn [counts total analyzed relevant not_relevant errors skipped] in *.
  exists (counts q'), (service_world q'). split; [reflexivity|]. lia.
Qed.

End QueueCounters.

Section QueueJobs.
Import JobAnalysisService JobAnalysisQueue.
Context {S : Type}.

(** X12.  A queued job that already has an analysis is not analysed
    again: neither strategy and no callback is called and the state
    [analyzing] is not written; the states [analyzed] and then [relevant]
    or [irrelevant] are appended, the latter chosen by comparing the
    stored score with the current relevance threshold, and the job is
    counted as analysed, as skipped and under the class of that state. *)
Theorem queued_job_already_analyzed (self : t S) (reads : database_reads S)
    (cb : callback S) (job : gmap string pyval) (u : Z) (prefs : gmap string pyval)
    (titles : pyval) (w : world S) (r : results)
    (db : database S) (jid : pyval) (score : float) (b : bool)
    (s1 s2 s3 : S) (id1 id2 : Z) :
  db_service self = Some db ->
  job !! "job_id" = Some jid ->
  get_job_analysis reads jid u (ext w) = (Return (Some score), s1) ->
  add_job_state db jid u JobStates.STATE_ANALYZED s1 = (Return id1, s2) ->
  float_ge score (threshold_of prefs) = Return b ->
  add_job_state db jid u
    (if b then JobStates.STATE_RELEVANT else JobStates.STATE_IRRELEVANT) s2
  = (Return id2, s3) ->
  _process_queued_job self reads cb job u prefs titles (QueueWorld w r)
  = (Return tt,
     QueueWorld
       (World s3
          (calls w
             ++ [AddJobState jid u JobStates.STATE_ANALYZED;
                 AddJobState jid u
                   (if b then JobStates.STATE_RELEVANT
                    else JobStates.STATE_IRRELEVANT)]))
       ((if b then bump_relevant else bump_not_relevant)
          (bump_skipped (bump_analyzed r)))).
Proof.
  intros Hdb Hjid Hexisting Hs1 Hge Hs2.
  unfold _process_queued_job, try_except, the_db. rewrite Hdb.
  unfold bind at 1, lift at 1.
  run_item Hjid.
  unfold bind at 1, on_service at 1, on_ext at 1. cbn [service_world].
  rewrite Hexisting.
  unfold _handle_already_analyzed_job, the_db. rewrite Hdb.
  run_item Hjid.
  unfold bind at 1, lift at 1.
  unfold bind at 1, on_service at 1, invoke at 1. cbn [service_world ext calls].
  rewrite Hs1.
  unfold bind at 1, lift at 1. rewrite Hge.
  unfold bind at 1, on_service at 1, invoke at 1. cbn [service_world ext calls].
  rewrite Hs2. unfold modify. cbn [service_world counts].
  rewrite <- app_assoc. destruct b; reflexivity.
Qed.

(** X13.  A queued job whose title strategy raises is not counted as an
    error: without a callback the job is counted as analysed and not
    relevant, [errors] stays as it was, and the only state written for the
    job is [analyzing], so that is the state it is left in. *)
Theorem queued_job_strategy_failure (self : t S) (reads : database_reads S)
    (job : gmap string pyval) (u : Z) (prefs : gmap string pyval)
    (titles : pyval) (w : world S) (r : results)
    (db : database S) (jid title company : pyval) (e : exn)
    (s1 s2 s3 : S) (id1 : Z) :
  db_service self = Some db ->
  job !! "job_id" = Some jid -> job !! "title" = Some title ->
  job !! "company" = Some company ->
  get_job_analysis reads jid u (ext w) = (Return None, s1) ->
  add_job_state db jid u JobStates.STATE_ANALYZING s1 = (Return id1, s2) ->
  analyze (title_analyzer self) (title_kwargs title company prefs titles) s2
  = (Raise e, s3) ->
  _process_queued_job self reads None job u prefs titles (QueueWorld w r)
  = (Return tt,
     QueueWorld
       (World s3
          (calls w
             ++ [AddJobState jid u JobStates.STATE_ANALYZING;
                 TitleAnalyze (title_kwargs title company prefs titles)]))
       (bump_not_relevant (bump_analyzed r))).
Proof.
  intros Hdb Hjid Ht Hc Hexisting Hs1 Htitle.
  unfold _process_queued_job, try_except, the_db. rewrite Hdb.
  unfold bind at 1, lift at 1.
  run_item Hjid.
  unfold bind at 1, on_service at 1, on_ext at 1. cbn [service_world].
  rewrite Hexisting.
  unfold bind at 1, lift at 1.
  unfold bind at 1, on_service at 1, invoke at 1. cbn [service_world ext calls].
  rewrite Hs1.
  unfold bind at 1, on_service at 1, notify at 1, ret at 1. cbn [service_world].
  unfold bind at 1, on_service at 1. cbn [service_world].
  rewrite (analyze_job_title_raises self job (Some u) (Some prefs) titles true
             (World s2 (calls w ++ [AddJobState jid u JobStates.STATE_ANALYZING]))
             title company e s3 Ht Hc Htitle).
  unfold bind at 1, _update_analysis_results, modify at 1.
  cbn [service_world counts calls].
  unfold on_service, notify, ret. cbn [service_world counts].
  rewrite <- app_assoc. reflexivity.
Qed.

(** X14.  [reanalyze_job] raises a ValueError before anything is written
    when the service has no database or the job has no listing.
    Otherwise, once the preference reads and the write of [analyzing]
    return, it returns the dict of [analyze_job] with [status] set to
    success, whatever the analysis did: when the title strategy raised,
    the result carries [status = "success"] together with the error text,
    and no state follows [analyzing]. *)
Theorem reanalyze_job_status (self : t S) (reads : database_reads S)
    (prefs : preferences S) (j : string) (user_id : Z) (w : world S) :
  (db_service self = None ->
   reanalyze_job self reads prefs j user_id w
   = (Raise (Exn ValueError "Database service is required for reanalyze_job"), w))
  /\ (forall s1,
        db_service self <> None ->
        get_job_by_id reads j (ext w) = (Return None, s1) ->
        reanalyze_job self reads prefs j user_id w
        = (Raise (Exn ValueError ("Job not found: " ++ j)), World s1 (calls w)))
  /\ (forall db row s1 p1 s2 p2 s3 rowid s4,
        db_service self = Some db ->
        get_job_by_id reads j (ext w) = (Return (Some row), s1) ->
        truthy (PDict row) = true ->
        get_preferences_by_category prefs user_id PreferenceService.CATEGORY_ANALYSIS s1
        = (Return p1, s2) ->
        get_preferences_by_category prefs user_id PreferenceService.CATEGORY_SEARCH s2
        = (Return p2, s3) ->
        add_job_state db (PStr j) user_id JobStates.STATE_ANALYZING s3
        = (Return rowid, s4) ->
        let titles := dict_get p2 "job_titles" (PList []) in
        let w1 := World s4 (calls w ++ [AddJobState (PStr j) user_id
                                          JobStates.STATE_ANALYZING]) in
        (exists result w',
            reanalyze_job self reads prefs j user_id w = (Return result, w')
            /\ result !! "status" = Some (PStr "success")
            /\ w' = snd (analyze_job self row (Some user_id) (Some p1) titles true w1))
        /\ (forall title company e s5,
              row !! "title" = Some title -> row !! "company" = Some company ->
              analyze (title_analyzer self) (title_kwargs title company p1 titles) s4
              = (Raise e, s5) ->
              exists result,
                reanalyze_job self reads prefs j user_id w
                = (Return result,
                   World s5 (calls w1
                               ++ [TitleAnalyze (title_kwargs title company p1 titles)]))
                /\ result !! "status" = Some (PStr "success")
                /\ result !! "error" = Some (PStr (str_exn e)))).
Proof.
  split; [|split].
  - intros Hdb. unfold reanalyze_job. now rewrite Hdb.
  - intros s1 Hdb Hget. unfold reanalyze_job.
    destruct (db_service self) as [db|]; [|contradiction].
    unfold bind at 1, _get_job_by_id_or_raise.
    unfold bind at 1, on_ext at 1. rewrite Hget. reflexivity.
  - intros db row s1 p1 s2 p2 s3 rowid s4 Hdb Hget Hrow Hp1 Hp2 Hstate titles w1.
    assert (Hrun :
      reanalyze_job self reads prefs j user_id w
      = try_except
          (result <- analyze_job self row (Some user_id) (Some p1) titles true ;;
           ret (<["status" := PStr "success"]> result))%eff
          (fun e =>
             ret (mkdict [ ("status", PStr "error"); ("job_id", PStr j);
                           ("error", PStr (str_exn e)) ])) w1).
    { unfold reanalyze_job. rewrite Hdb.
      unfold bind at 1, _get_job_by_id_or_raise.
      unfold bind at 1, on_ext at 1. rewrite Hget. rewrite Hrow.
      unfold ret at 1. cbn [ext calls].
      unfold bind at 1, _get_user_preferences.
      unfold bind at 1, on_ext at 1. cbn [ext]. rewrite Hp1.
      unfold bind at 1, on_ext at 1. cbn [ext]. rewrite Hp2.
      unfold ret at 1. cbn [fst snd calls].
      unfold bind at 1, invoke at 1. cbn [ext calls]. rewrite Hstate.
      reflexivity. }
    rewrite Hrun. split.
    + unfold try_except, bind, ret.
      destruct (analyze_job self row (Some user_id) (Some p1) titles true w1)
        as [[result|e] w'] eqn:Hanalysis.
      * eexists _, _. split; [reflexivity|]. split; [apply lookup_insert_eq|reflexivity].
      * exfalso. revert Hanalysis. unfold analyze_job, try_except.
        match goal with
        | |- context [match ?m w1 with _ => _ end] => destruct (m w1) as [[?|?] ?]
        end; discriminate.
    + intros title company e s5 Ht Hc Htitle.
      unfold try_except, bind, ret.
      rewrite (analyze_job_title_raises self row (Some user_id) (Some p1) titles true
                 w1 title company e s5 Ht Hc Htitle).
      eexists. split; [reflexivity|]. split; [apply lookup_insert_eq|].
      rewrite lookup_insert_ne by discriminate. reflexivity.
Qed.

End QueueJobs.

Section QueueExamples.
Import JobAnalysisService JobAnalysisQueue.

(** One queued job, an accepting database, no stored preferences: the
    counters are returned and [total] is 1. *)
Lemma analyze_queued_jobs_counters_witness :
  exists r w',
    analyze_queued_jobs
      (Service (fixed_strategy 0.9 (PDict ∅)) (fixed_strategy 0.3 (PDict ∅))
         (Some accepting_database))
      (fixed_reads [example_job] None None) no_preferences 7 10 None (World tt [])
    = (Return r, w')
    /\ total r = 1%Z /\ (analyzed r + errors r = 1)%Z.
Proof.
  destruct (analyze_queued_jobs_counters
              (Service (fixed_strategy 0.9 (PDict ∅)) (fixed_strategy 0.3 (PDict ∅))
                 (Some accepting_database))
              (fixed_reads [example_job] None None) no_preferences 7 10 (World tt [])
              [example_job] tt)
    as (r & w' & Hrun & Htotal & Hsum & _).
  - discriminate.
  - reflexivity.
  - intros job [<-|[]]. exists (PStr "4021"). reflexivity.
  - intros category s. exists ∅, s. reflexivity.
  - exists r, w'. split; [exact Hrun|]. split; [exact Htotal|].
    rewrite Hsum. exact Htotal.
Defined.

(** A job with the stored score 0.75 against the default threshold 0.7. *)
Lemma queued_job_already_analyzed_witness :
  _process_queued_job
    (Service (fixed_strategy 0.9 (PDict ∅)) (fixed_strategy 0.3 (PDict ∅))
       (Some accepting_database))
    (fixed_reads [example_job] (Some 0.75%float) None) None example_job 7 ∅ PNone
    (QueueWorld (World tt []) (Results 1 0 0 0 0 0))
  = (Return tt,
     QueueWorld
       (World tt [AddJobState (PStr "4021") 7 "analyzed";
                  AddJobState (PStr "4021") 7 "relevant"])
       (Results 1 1 1 0 0 1)).
Proof.
  exact (queued_job_already_analyzed
           (Service (fixed_strategy 0.9 (PDict ∅)) (fixed_strategy 0.3 (PDict ∅))
              (Some accepting_database))
           (fixed_reads [example_job] (Some 0.75%float) None) None example_job 7 ∅ PNone
           (World tt []) (Results 1 0 0 0 0 0)
           accepting_database (PStr "4021") 0.75%float true tt tt tt 1 1
           eq_refl eq_refl eq_refl eq_refl eq_refl eq_refl).
Defined.

(** The title strategy fails with a connection error. *)
Lemma queued_job_strategy_failure_witness :
  let e := Exn OtherError "connection reset" in
  counts
    (snd (_process_queued_job
            (Service (failing_strategy e) (fixed_strategy 0.3 (PDict ∅))
               (Some accepting_database))
            (fixed_reads [example_job] None None) None example_job 7 ∅ PNone
            (QueueWorld (World tt []) (Results 1 0 0 0 0 0))))
  = Results 1 1 0 1 0 0.
Proof.
  intros e.
  rewrite (queued_job_strategy_failure
             (Service (failing_strategy e) (fixed_strategy 0.3 (PDict ∅))
                (Some accepting_database))
             (fixed_reads [example_job] None None) example_job 7 ∅ PNone
             (World tt []) (Results 1 0 0 0 0 0)
             accepting_database (PStr "4021") (PStr "Machine Learning Engineer")
             (PStr "Acme") e tt tt tt 1
             eq_refl eq_refl eq_refl eq_refl eq_refl eq_refl eq_refl).
  reflexivity.
Defined.

End QueueExamples.

(* ===================================================================== *)
(** * Further properties of the title analysis strategy *)
Section RetryLoop.
Import TitleAnalysisStrategy.

(** Every attempt makes exactly one completion request, whatever comes of
    it. *)
Lemma attempt_body_world (self : t) (prompt : string) (w : world) :
  snd (attempt_body self prompt w)
  = World (S (completions w)) (draws w) (trace w ++ [Completion prompt]).
Proof.
  unfold attempt_body, bind, generate_completion, lift, ret.
  destruct (llm_provider self (completions w) prompt) as [content|e]; [|reflexivity].
  destruct (json_parser self content) as [analysis|e]; [|reflexivity].
  destruct (analysis_get analysis _ _); reflexivity.
Qed.

Lemma attempt_body_returns (self : t) (prompt text : string) (w : world)
    (d : gmap string pyval) :
  llm_provider self (completions w) prompt = Return text ->
  json_parser self text = Return (PDict d) ->
  attempt_body self prompt w
  = (Return (dict_get d "estimated_relevance" (PFloat 0.0), PDict d),
     World (S (completions w)) (draws w) (trace w ++ [Completion prompt])).
Proof.
  intros Hllm Hparse.
  unfold attempt_body, bind, generate_completion, lift. now rewrite Hllm, Hparse.
Qed.

Lemma attempt_body_not_object (self : t) (prompt text : string) (w : world) (v : pyval) :
  llm_provider self (completions w) prompt = Return text ->
  json_parser self text = Return v ->
  is_dict v = false ->
  exists e,
    exn_cls e = AttributeError
    /\ attempt_body self prompt w
       = (Raise e, World (S (completions w)) (draws w) (trace w ++ [Completion prompt])).
Proof.
  intros Hllm Hparse Hv.
  unfold attempt_body, bind, generate_completion, lift. rewrite Hllm, Hparse.
  destruct v; try discriminate;
    (eexists; split; [|cbn [analysis_get]; reflexivity]; reflexivity).
Qed.

(** A failed attempt, whatever made it fail. *)
Lemma retry_loop_failed_attempt (self : t) (rnd : nat -> float) (prompt : string)
    (attempt : nat) (rest : list nat) (w : world) (e : exn) :
  fst (attempt_body self prompt w) = Raise e ->
  is_ValueError e = false ->
  retry_loop self rnd prompt (attempt :: rest) w
  = if (Z.of_nat attempt <? max_retries self - 1)%Z
    then retry_loop self rnd prompt rest
           (World (S (completions w)) (S (draws w))
              (trace w ++ [Completion prompt;
                           Sleep (sleep_time self attempt (rnd (draws w)))]))
    else (Return (Some (api_error_result e)),
          World (S (completions w)) (draws w) (trace w ++ [Completion prompt])).
Proof.
  intros Hbody HV. cbn [retry_loop].
  pose proof (attempt_body_world self prompt w) as Hw.
  destruct (attempt_body self prompt w) as [o w'].
  cbn [fst snd] in Hbody, Hw. subst o w'. rewrite HV.
  destruct (Z.of_nat attempt <? max_retries self - 1)%Z; [|reflexivity].
  unfold bind, random_random, time_sleep. cbn [completions draws trace].
  now rewrite <- app_assoc.
Qed.

(** The loop over the attempts [a], ..., [max_retries - 1]: it never runs
    out, raises nothing but a [ValueError], and what it adds to the trace
    is [k] failed requests, each followed by a sleep, and one last
    request, for some [k] up to [n]. *)
Lemma retry_loop_bounded (self : t) (rnd : nat -> float) (prompt : string) (n : nat) :
  forall (a : nat) (w : world),
    (Z.of_nat (a + n) = max_retries self - 1)%Z ->
    let r := retry_loop self rnd prompt (seq a (S n)) w in
    fst r <> Return None
    /\ (forall e, fst r = Raise e -> is_ValueError e = true)
    /\ exists k,
         (k <= n)%nat
         /\ snd r
            = World (completions w + k + 1) (draws w + k)
                (trace w ++ retry_trace self rnd prompt a (draws w) k
                   ++ [Completion prompt]).
Proof.
  assert (Hstop : forall (a : nat) (w : world),
             World (S (completions w)) (draws w) (trace w ++ [Completion prompt])
             = World (completions w + 0 + 1) (draws w + 0)
                 (trace w ++ retry_trace self rnd prompt a (draws w) 0
                    ++ [Completion prompt])).
  { intros a w. cbn [retry_trace app]. f_equal; lia. }
  induction n as [|n IH]; intros a w Hlast r; subst r.
  - cbn [seq retry_loop].
    pose proof (attempt_body_world self prompt w) as Hw.
    destruct (attempt_body self prompt w) as [[res|e] w'];
      cbn [snd] in Hw; subst w'.
    + cbn [fst snd]. repeat split; try discriminate.
      exists 0%nat. split; [lia|apply Hstop].
    + destruct (is_ValueError e) eqn:HV.
      * cbn [fst snd]. repeat split; try discriminate.
        -- now intros e' [= <-].
        -- exists 0%nat. split; [lia|apply Hstop].
      * replace (Z.of_nat a <? max_retries self - 1)%Z with false
          by (symmetry; apply Z.ltb_ge; lia).
        cbn [fst snd]. repeat split; try discriminate.
        exists 0%nat. split; [lia|apply Hstop].
  - change (seq a (S (S n))) with (a :: seq (S a) (S n)).
    pose proof (attempt_body_world self prompt w) as Hw.
    destruct (attempt_body self prompt w) as [[res|e] w'] eqn:Hbody.
    + cbn [retry_loop]. rewrite Hbody. cbn [snd] in Hw; subst w'.
      cbn [fst snd]. repeat split; try discriminate.
      exists 0%nat. split; [lia|apply Hstop].
    + destruct (is_ValueError e) eqn:HV.
      * cbn [retry_loop]. rewrite Hbody, HV. cbn [snd] in Hw; subst w'.
        cbn [fst snd]. repeat split; try discriminate.
        -- now intros e' [= <-].
        -- exists 0%nat. split; [lia|apply Hstop].
      * rewrite (retry_loop_failed_attempt self rnd prompt a _ w e)
          by (rewrite ?Hbody; auto).
        replace (Z.of_nat a <? max_retries self - 1)%Z with true
          by (symmetry; apply Z.ltb_lt; lia).
        match goal with
        | |- context [retry_loop self rnd prompt (seq (S a) (S n)) ?w1] =>
            specialize (IH (S a) w1 ltac:(lia))
        end.
        cbv zeta in IH. cbn [completions draws trace] in IH.
        destruct IH as (Hnone & Hraise & k & Hk & Hworld).
        split; [exact Hnone|]. split; [exact Hraise|].
        exists (S k). split; [lia|]. rewrite Hworld.
        cbn [retry_trace]. rewrite <- !app_assoc. cbn [app].
        f_equal; lia.
Qed.

(** X15.  With the default three attempts, [analyze] of the title strategy
    raises what building the prompt raises, before any request; otherwise
    it never returns [None], raises nothing but a [ValueError] (the class
    of JSON-parse failures), and what it adds to the trace is one of:
    one request; a request, a sleep and a request; a request, a sleep, a
    request, a sleep and a request.  So it makes one to three completion
    requests, sleeps exactly once between two consecutive requests and at
    no other time, and draws one random number for each sleep: the first
    sleep lasts 2 seconds and the second 4, each plus its jitter. *)
Theorem title_analyze_bounded (llm : nat -> string -> outcome string)
    (templates : gmap string pyval -> outcome string)
    (parser : string -> outcome pyval)
    (rnd : nat -> float) (kwargs : gmap string pyval) (w : world) :
  let r := analyze (init llm templates parser) rnd kwargs w in
  match templates kwargs with
  | Raise e => r = (Raise e, w)
  | Return prompt =>
      fst r <> Return None
      /\ (forall e, fst r = Raise e -> is_ValueError e = true)
      /\ (snd r
          = World (completions w + 1) (draws w) (trace w ++ [Completion prompt])
          \/ snd r
             = World (completions w + 2) (draws w + 1)
                 (trace w
                    ++ [ Completion prompt;
                         Sleep (2 + 2 * 0.2 * rnd (draws w))%float;
                         Completion prompt ])
          \/ snd r
             = World (completions w + 3) (draws w + 2)
                 (trace w
                    ++ [ Completion prompt;
                         Sleep (2 + 2 * 0.2 * rnd (draws w))%float;
                         Completion prompt;
                         Sleep (4 + 4 * 0.2 * rnd (draws w + 1)%nat)%float;
                         Completion prompt ]))
  end.
Proof.
  intros r. subst r.
  destruct (templates kwargs) as [prompt|e] eqn:Hprompt.
  - rewrite (analyze_init llm templates parser rnd kwargs prompt w Hprompt).
    destruct (retry_loop_bounded (init llm templates parser) rnd prompt 2 0 w eq_refl)
      as (Hnone & Hraise & k & Hk & Hworld).
    cbn [seq] in Hnone, Hraise, Hworld.
    split; [exact Hnone|]. split; [exact Hraise|].
    rewrite Hworld.
    destruct (sleep_time_init llm templates parser (rnd (draws w))) as [Hs0 _].
    destruct (sleep_time_init llm templates parser (rnd (S (draws w)))) as [_ Hs1].
    destruct k as [|[|[|k]]]; [| | |lia]; cbn [retry_trace app].
    + left. f_equal; lia.
    + right; left. rewrite Hs0. f_equal; lia.
    + right; right. rewrite Hs0, Hs1.
      replace (draws w + 1)%nat with (S (draws w)) by lia. f_equal; lia.
  - unfold analyze, bind, lift.
    change (prompt_templates (init llm templates parser) kwargs) with (templates kwargs).
    now rewrite Hprompt.
Qed.

Lemma retry_loop_recovers (self : t) (rnd : nat -> float) (prompt text : string)
    (d : gmap string pyval) (k : nat) :
  forall (a n : nat) (w : world),
    (k < n)%nat ->
    (Z.of_nat (a + k) <= max_retries self - 1)%Z ->
    (forall i, (i < k)%nat ->
       exists e, fst (attempt_body self prompt
                        (World (completions w + i) (draws w + i)
                           (trace w ++ retry_trace self rnd prompt a (draws w) i)))
                 = Raise e
                 /\ is_ValueError e = false) ->
    llm_provider self (completions w + k) prompt = Return text ->
    json_parser self text = Return (PDict d) ->
    retry_loop self rnd prompt (seq a n) w
    = (Return (Some (dict_get d "estimated_relevance" (PFloat 0.0), PDict d)),
       World (completions w + k + 1) (draws w + k)
         (trace w ++ retry_trace self rnd prompt a (draws w) k ++ [Completion prompt])).
Proof.
  induction k as [|k IH]; intros a n w Hn Ha Hfail Hllm Hparse.
  - destruct n as [|n]; [lia|]. cbn [seq retry_loop].
    rewrite Nat.add_0_r in Hllm.
    rewrite (attempt_body_returns self prompt text w d Hllm Hparse).
    cbn [retry_trace app]. rewrite !Nat.add_0_r, Nat.add_1_r. reflexivity.
  - destruct n as [|n]; [lia|]. change (seq a (S n)) with (a :: seq (S a) n).
    destruct (Hfail 0%nat ltac:(lia)) as (e & Hbody & HV).
    cbn [retry_trace] in Hbody. rewrite !Nat.add_0_r, app_nil_r in Hbody.
    assert (Hw : World (completions w) (draws w) (trace w) = w) by now destruct w.
    rewrite Hw in Hbody.
    rewrite (retry_loop_failed_attempt self rnd prompt a _ w e Hbody HV).
    replace (Z.of_nat a <? max_retries self - 1)%Z with true
      by (symmetry; apply Z.ltb_lt; lia).
    rewrite (IH (S a) n); cbn [completions draws trace].
    + f_equal. f_equal; [lia|lia|].
      cbn [retry_trace]. rewrite <- !app_assoc. reflexivity.
    + lia.
    + lia.
    + intros i Hi. destruct (Hfail (S i) ltac:(lia)) as (e' & Hbody' & HV').
      exists e'. split; [|exact HV'].
      cbn [retry_trace] in Hbody'.
      replace (S (completions w) + i)%nat with (completions w + S i)%nat by lia.
      replace (S (draws w) + i)%nat with (draws w + S i)%nat by lia.
      rewrite <- app_assoc. exact Hbody'.
    + replace (S (completions w) + k)%nat with (completions w + S k)%nat by lia.
      exact Hllm.
    + exact Hparse.
Qed.

End RetryLoop.

Section TitleStrategyOutcomes.
Import TitleAnalysisStrategy.

(** X16.  The first attempt whose request returns ends the loop: if the
    first [k] requests ([k] at most 2) raise exceptions that are not
    [ValueError]s and the next one returns a text the parser reads as a
    JSON object, [analyze] returns that object and its
    [estimated_relevance], or 0.0 when the object has no such key, after
    exactly [k + 1] requests and [k] sleeps, one after each failed
    request. *)
Theorem title_analyze_recovers (llm : nat -> string -> outcome string)
    (templates : gmap string pyval -> outcome string)
    (parser : string -> outcome pyval)
    (rnd : nat -> float) (kwargs : gmap string pyval) (prompt text : string)
    (d : gmap string pyval) (k : nat) (w : world) :
  templates kwargs = Return prompt ->
  (k <= 2)%nat ->
  (forall i, (i < k)%nat ->
     exists e, llm (completions w + i)%nat prompt = Raise e /\ is_ValueError e = false) ->
  llm (completions w + k)%nat prompt = Return text ->
  parser text = Return (PDict d) ->
  analyze (init llm templates parser) rnd kwargs w
  = (Return (Some (dict_get d "estimated_relevance" (PFloat 0.0), PDict d)),
     World (completions w + k + 1) (draws w + k)
       (trace w
          ++ retry_trace (init llm templates parser) rnd prompt 0 (draws w) k
          ++ [Completion prompt])).
Proof.
  intros Hprompt Hk Hfail Hllm Hparse.
  rewrite (analyze_init llm templates parser rnd kwargs prompt w Hprompt).
  apply (retry_loop_recovers (init llm templates parser) rnd prompt text d k 0 3 w).
  - lia.
  - cbn [init max_retries]. lia.
  - intros i Hi. destruct (Hfail i Hi) as (e & He & HV). exists e. split; [|exact HV].
    rewrite (attempt_body_completion_raises _ prompt _ e); [reflexivity|exact He].
  - exact Hllm.
  - exact Hparse.
Qed.

(** X17.  An answer that parses to something other than a JSON object is
    handled like a failed request: the attempt is retried, and when all
    three answers are of this kind [analyze] returns the zero score with
    the "API error" details, built from an [AttributeError], after three
    requests and two sleeps. *)
Theorem title_analyze_non_object_answer (llm : nat -> string -> outcome string)
    (templates : gmap string pyval -> outcome string)
    (parser : string -> outcome pyval)
    (rnd : nat -> float) (kwargs : gmap string pyval) (prompt : string) (w : world) :
  templates kwargs = Return prompt ->
  (forall n, exists text v,
      llm n prompt = Return text /\ parser text = Return v /\ is_dict v = false) ->
  exists e,
    exn_cls e = AttributeError
    /\ analyze (init llm templates parser) rnd kwargs w
       = (Return (Some (api_error_result e)),
          World (completions w + 3) (draws w + 2)
            (trace w
               ++ retry_trace (init llm templates parser) rnd prompt 0 (draws w) 2
               ++ [Completion prompt])).
Proof.
  intros Hprompt Hall.
  rewrite (analyze_init llm templates parser rnd kwargs prompt w Hprompt).
  set (self := init llm templates parser).
  assert (Hstep : forall w0 : world,
             exists e, exn_cls e = AttributeError
                       /\ fst (attempt_body self prompt w0) = Raise e
                       /\ is_ValueError e = false).
  { intros w0. destruct (Hall (completions w0)) as (text & v & Hllm & Hparse & Hv).
    destruct (attempt_body_not_object self prompt text w0 v Hllm Hparse Hv)
      as (e & Hcls & Hbody).
    exists e. split; [exact Hcls|]. split; [now rewrite Hbody|].
    unfold is_ValueError. now rewrite Hcls. }
  destruct (Hstep w) as (e1 & _ & Hb1 & HV1).
  rewrite (retry_loop_failed_attempt self rnd prompt 0 _ w e1 Hb1 HV1).
  change (Z.of_nat 0 <? max_retries self - 1)%Z with true. cbv iota.
  match goal with
  | |- context [retry_loop self rnd prompt [1; 2]%nat ?w1] =>
      destruct (Hstep w1) as (e2 & _ & Hb2 & HV2);
      rewrite (retry_loop_failed_attempt self rnd prompt 1 _ w1 e2 Hb2 HV2)
  end.
  change (Z.of_nat 1 <? max_retries self - 1)%Z with true. cbv iota.
  cbn [completions draws trace].
  match goal with
  | |- context [retry_loop self rnd prompt [2]%nat ?w2] =>
      destruct (Hstep w2) as (e3 & Hcls3 & Hb3 & HV3);
      rewrite (retry_loop_failed_attempt self rnd prompt 2 _ w2 e3 Hb3 HV3)
  end.
  change (Z.of_nat 2 <? max_retries self - 1)%Z with false. cbv iota.
  cbn [completions draws trace].
  exists e3. split; [exact Hcls3|].
  f_equal. f_equal; [lia|lia|].
  cbn [retry_trace]. rewrite <- !app_assoc. reflexivity.
Qed.

(** The first request times out, the second returns an empty object. *)
Lemma title_analyze_recovers_witness :
  let llm := fun (n : nat) (_ : string) =>
               if (n =? 0)%nat then Raise (Exn OtherError "timeout") else Return "{}" in
  let r := analyze (init llm (fun _ => Return "p") (fun _ => Return (PDict ∅)))
             (fun _ => 0%float) ∅ (World 0 0 []) in
  fst r = Return (Some (PFloat 0.0, PDict ∅)) /\ completions (snd r) = 2%nat.
Proof.
  intros llm r. subst r.
  rewrite (title_analyze_recovers llm (fun _ => Return "p") (fun _ => Return (PDict ∅))
             (fun _ => 0%float) ∅ "p" "{}" ∅ 1 (World 0 0 [])).
  - split; reflexivity.
  - reflexivity.
  - lia.
  - intros i Hi. assert (i = 0)%nat as -> by lia.
    eexists. split; reflexivity.
  - reflexivity.
  - reflexivity.
Defined.

(** Every answer is the JSON array [[1]]. *)
Lemma title_analyze_non_object_answer_witness :
  exists e,
    fst (analyze (init (fun _ _ => Return "[1]") (fun _ => Return "p")
                    (fun _ => Return (PList [PInt 1])))
           (fun _ => 0%float) ∅ (World 0 0 []))
    = Return (Some (api_error_result e)).
Proof.
  destruct (title_analyze_non_object_answer
              (fun _ _ => Return "[1]") (fun _ => Return "p")
              (fun _ => Return (PList [PInt 1])) (fun _ => 0%float) ∅ "p" (World 0 0 []))
    as (e & _ & Hrun).
  - reflexivity.
  - intros n. exists "[1]", (PList [PInt 1]). repeat split.
  - exists e. now rewrite Hrun.
Defined.

End TitleStrategyOutcomes.

(* ===================================================================== *)
(** * Further properties of the JSON parser *)
Section ParserPatterns.
Import LLMJsonParser.

Lemma prefix_append (p r : string) : String.prefix p (p +:+ r) = true.
Proof.
  induction p as [|a p IH]; simpl; [now destruct r|].
  destruct (ascii_dec a a); [exact IH|contradiction].
Qed.

Lemma substring_all (r : string) (m : nat) :
  (String.length r <= m)%nat -> String.substring 0 m r = r.
Proof.
  revert m. induction r as [|a r IH]; intros m Hm; simpl in *.
  - now destruct m.
  - destruct m as [|m]; [lia|]. rewrite IH by lia. reflexivity.
Qed.

Lemma length_append (p r : string) :
  String.length (p +:+ r) = (String.length p + String.length r)%nat.
Proof. induction p as [|a p IH]; simpl; [reflexivity|now rewrite IH]. Qed.

Lemma substring_append (p r : string) :
  String.substring (String.length p) (String.length (p +:+ r)) (p +:+ r) = r.
Proof.
  assert (Hgen : forall m, (String.length r <= m)%nat ->
                           String.substring (String.length p) m (p +:+ r) = r).
  { induction p as [|a p IH]; intros m Hm; simpl.
    - now apply substring_all.
    - now apply IH. }
  apply Hgen. rewrite length_append. lia.
Qed.

Lemma no_char_cons (c a : ascii) (s : string) :
  no_char c (String a s) = negb (Ascii.eqb a c) && no_char c s.
Proof. reflexivity. Qed.

(** A pattern is found where it first can start: after a text that lacks
    the pattern's first character. *)
Lemma split_at_first_found (c : ascii) (p pre rest : string) :
  no_char c pre = true ->
  split_at_first (String c p) (pre +:+ String c p +:+ rest) = Some (pre, rest).
Proof.
  intros Hpre. induction pre as [|a pre IH].
  - change ("" +:+ String c p +:+ rest) with (String c p +:+ rest).
    destruct (String c p +:+ rest) as [|b s] eqn:E; [discriminate|].
    cbn [split_at_first]. rewrite <- E, prefix_append, substring_append. reflexivity.
  - rewrite no_char_cons in Hpre. apply andb_true_iff in Hpre as [Ha Hpre].
    change (String a pre +:+ String c p +:+ rest)
      with (String a (pre +:+ String c p +:+ rest)).
    cbn [split_at_first String.prefix].
    destruct (ascii_dec c a) as [->|_]; [now rewrite Ascii.eqb_refl in Ha|].
    now rewrite (IH Hpre).
Qed.

Lemma split_at_first_absent (c : ascii) (p s : string) :
  no_char c s = true -> split_at_first (String c p) s = None.
Proof.
  induction s as [|a s IH]; intros Hs; [reflexivity|].
  rewrite no_char_cons in Hs. apply andb_true_iff in Hs as [Ha Hs].
  cbn [split_at_first String.prefix].
  destruct (ascii_dec c a) as [->|_]; [now rewrite Ascii.eqb_refl in Ha|].
  now rewrite (IH Hs).
Qed.

Lemma upto_last_absent (c : ascii) (s : string) :
  no_char c s = true -> upto_last c s = None.
Proof.
  induction s as [|a s IH]; intros Hs; [reflexivity|].
  rewrite no_char_cons in Hs. apply andb_true_iff in Hs as [Ha Hs].
  cbn [upto_last]. rewrite (IH Hs). apply negb_true_iff in Ha. now rewrite Ha.
Qed.

Lemma upto_last_found (c : ascii) (inner post : string) :
  no_char c post = true ->
  upto_last c (inner +:+ String c post) = Some (inner +:+ String c "").
Proof.
  intros Hpost. induction inner as [|a inner IH].
  - change ("" +:+ String c post) with (String c post). cbn [upto_last].
    now rewrite (upto_last_absent c post Hpost), Ascii.eqb_refl.
  - change (String a inner +:+ String c post) with (String a (inner +:+ String c post)).
    cbn [upto_last]. now rewrite IH.
Qed.

(** A pattern that is not a prefix of [body] is not a prefix of [body]
    followed by a character the pattern lacks. *)
Lemma prefix_before_char (c : ascii) (p body post : string) :
  no_char c p = true ->
  String.prefix p body = false ->
  String.prefix p (body +:+ String c post) = false.
Proof.
  revert body. induction p as [|a p IH]; intros body Hp Hno.
  - now destruct body.
  - rewrite no_char_cons in Hp. apply andb_true_iff in Hp as [Ha Hp].
    destruct body as [|b body].
    + change ("" +:+ String c post) with (String c post). cbn [String.prefix].
      destruct (ascii_dec a c) as [->|_]; [now rewrite Ascii.eqb_refl in Ha|reflexivity].
    + change (String b body +:+ String c post) with (String b (body +:+ String c post)).
      cbn [String.prefix] in *.
      destruct (ascii_dec a b); [now apply IH|reflexivity].
Qed.

Lemma code_blocks_fence (pre tag body post : string) :
  no_char "`" pre = true -> no_char "`" body = true ->
  (tag = "json" \/ (tag = "" /\ String.prefix "json" body = false)) ->
  exists rest,
    code_blocks (pre +:+ "```" +:+ tag +:+ body +:+ "```" +:+ post) = body :: rest.
Proof.
  intros Hpre Hbody Htag. unfold code_blocks.
  set (text := pre +:+ "```" +:+ tag +:+ body +:+ "```" +:+ post).
  assert (Hlen : exists n, String.length text = S n).
  { destruct (String.length text) as [|n] eqn:E; [exfalso|eauto].
    unfold text in E. rewrite length_append in E. simpl in E. lia. }
  destruct Hlen as [n ->]. cbn [code_blocks_from].
  unfold text. rewrite (split_at_first_found "`" "``" pre _ Hpre).
  destruct Htag as [->|[-> Hno]].
  - change ("json" +:+ body +:+ "```" +:+ post)
      with ("json" +:+ (body +:+ "```" +:+ post)).
    rewrite prefix_append.
    change 4%nat with (String.length "json") at 1.
    rewrite substring_append.
    rewrite (split_at_first_found "`" "``" body post Hbody). eauto.
  - change ("" +:+ body +:+ "```" +:+ post) with (body +:+ "```" +:+ post).
    assert (Hno' : String.prefix "json" (body +:+ "```" +:+ post) = false)
      by exact (prefix_before_char "`" "json" body ("``" +:+ post) eq_refl Hno).
    rewrite Hno'.
    rewrite (split_at_first_found "`" "``" body post Hbody). eauto.
Qed.

End ParserPatterns.

Section ParserStages.
Import LLMJsonParser.

Section WithRuntime.
Context `{Runtime}.

(** X18.  Prose around a fenced block does not matter: when the text up to
    the first fence and the block hold no backtick, the fence is followed
    by the tag [json] or by a block that does not start with these four
    letters, and the stripped block is valid JSON, [parse] returns the
    value of the block, whatever follows the closing fence and whatever
    braces the surrounding text holds. *)
Theorem parse_reads_fenced_block (pre tag body post : string) (v : pyval) :
  no_char "`" pre = true -> no_char "`" body = true ->
  (tag = "json" \/ (tag = "" /\ String.prefix "json" body = false)) ->
  json_loads (strip body) = inr v ->
  parse (pre +:+ "```" +:+ tag +:+ body +:+ "```" +:+ post) = Return v.
Proof.
  intros Hpre Hbody Htag Hloads. unfold parse.
  destruct (code_blocks_fence pre tag body post Hpre Hbody Htag) as [rest ->].
  cbn [first_loadable]. now rewrite Hloads.
Qed.

(** X19.  Without a fence, [parse] reads the span from the first opening
    brace to the last closing brace: if that span is valid JSON its value
    is returned; if it is not, for instance because the text holds two
    objects, and the whole text is not valid JSON either, [parse] raises a
    ValueError that carries the decoder's message for the whole text. *)
Theorem parse_reads_brace_span (pre inner post : string) :
  let text := pre +:+ "{" +:+ inner +:+ "}" +:+ post in
  no_char "`" text = true ->
  no_char "{" pre = true -> no_char "}" post = true ->
  search_braces text = Some ("{" +:+ inner +:+ "}")
  /\ (forall v, json_loads ("{" +:+ inner +:+ "}") = inr v -> parse text = Return v)
  /\ (forall msg msg',
        json_loads ("{" +:+ inner +:+ "}") = inl msg ->
        json_loads text = inl msg' ->
        parse text
        = Raise (Exn ValueError ("Failed to parse JSON from LLM output: " +:+ msg'))).
Proof.
  intros text Hfence Hpre Hpost.
  assert (Hsearch : search_braces text = Some ("{" +:+ inner +:+ "}")).
  { unfold search_braces, text.
    rewrite (split_at_first_found "{" "" pre (inner +:+ "}" +:+ post) Hpre).
    change (inner +:+ "}" +:+ post) with (inner +:+ String "}" post).
    now rewrite (upto_last_found "}" inner post Hpost). }
  assert (Hblocks : code_blocks text = []).
  { unfold code_blocks. destruct (String.length text); [reflexivity|].
    cbn [code_blocks_from].
    now rewrite (split_at_first_absent "`" "``" text Hfence). }
  split; [exact Hsearch|]. split.
  - intros v Hloads. unfold parse. rewrite Hblocks, Hsearch.
    cbn [first_loadable]. now rewrite Hloads.
  - intros msg msg' Hspan Htext. unfold parse. rewrite Hblocks, Hsearch.
    cbn [first_loadable]. now rewrite Hspan, Htext.
Qed.

End WithRuntime.

(** A tagged block with blanks around an empty object, inside a sentence. *)
Lemma parse_reads_fenced_block_witness :
  @parse empty_object_runtime ("Here you go: " +:+ "```" +:+ "json" +:+ " {} " +:+ "```" +:+ " done")
  = Return (PDict ∅).
Proof.
  apply (@parse_reads_fenced_block empty_object_runtime
           "Here you go: " "json" " {} " " done" (PDict ∅)).
  - reflexivity.
  - reflexivity.
  - left. reflexivity.
  - reflexivity.
Defined.

(** An empty object inside a sentence. *)
Lemma parse_reads_brace_span_witness :
  @parse empty_object_runtime ("Answer: " +:+ "{" +:+ "" +:+ "}" +:+ " ok")
  = Return (PDict ∅).
Proof.
  destruct (@parse_reads_brace_span empty_object_runtime "Answer: " "" " ok")
    as (_ & Hvalue & _); [reflexivity|reflexivity|reflexivity|].
  apply Hvalue. reflexivity.
Defined.

End ParserStages.

(* ===================================================================== *)
(** * Further properties of the preference service *)
Section PreferenceAccess.
Import PreferenceService PreferenceServiceAccess.

Lemma is_pref_spec (uid : Z) (cat nm : string) (p : user_preference) :
  is_pref uid cat nm p = true <-> user_id p = uid /\ category p = cat /\ name p = nm.
Proof.
  unfold is_pref. rewrite !andb_true_iff, Z.eqb_eq, !String.eqb_eq. tauto.
Qed.

Lemma is_pref_other (uid uid' : Z) (cat cat' nm nm' : string) (p : user_preference) :
  uid' <> uid \/ cat' <> cat \/ nm' <> nm ->
  is_pref uid cat nm p = true -> is_pref uid' cat' nm' p = false.
Proof.
  intros Hne Hp. apply is_pref_spec in Hp as (Hu & Hc & Hn).
  destruct (is_pref uid' cat' nm' p) eqn:E; [|reflexivity].
  apply is_pref_spec in E as (Hu' & Hc' & Hn').
  destruct Hne as [|[|]]; congruence.
Qed.

Section WithRuntime.
Context `{Runtime}.

(** X20.  [set_preference] followed by [get_preference] of the same key
    returns the value that was set, whenever the value survives
    serialisation, and not the default; afterwards the key has exactly
    one row; the rows of every other key, and so what [get_preference]
    returns for it, are as before. *)
Theorem set_get_preference_round_trip (uid : Z) (cat nm : string) (v dflt : pyval)
    (rowid : Z) (table : list user_preference) :
  let table' := set_preference uid cat nm v rowid table in
  List.filter (is_pref uid cat nm) table'
  = [UserPreference rowid uid cat nm (json_dumps v)]
  /\ (json_loads (json_dumps v) = inr v ->
      get_preference uid cat nm dflt table' = Return v)
  /\ (forall uid' cat' nm' dflt',
        uid' <> uid \/ cat' <> cat \/ nm' <> nm ->
        List.filter (is_pref uid' cat' nm') table'
        = List.filter (is_pref uid' cat' nm') table
        /\ get_preference uid' cat' nm' dflt' table'
           = get_preference uid' cat' nm' dflt' table).
Proof.
  intros table'. subst table'. unfold set_preference.
  set (row := UserPreference rowid uid cat nm (json_dumps v)).
  assert (Hrow : is_pref uid cat nm row = true)
    by (apply is_pref_spec; repeat split).
  assert (Hone : List.filter (is_pref uid cat nm)
                   (List.filter (fun p => negb (is_pref uid cat nm p)) table ++ [row])
                 = [row]).
  { rewrite filter_app_one, Hrow, filter_disjoint; [reflexivity|].
    intros p Hp. now rewrite Hp. }
  split; [exact Hone|]. split.
  - intros Hround. unfold get_preference. rewrite Hone. cbn [head value row].
    unfold json_deserialize. unfold row. cbn [value]. now rewrite Hround.
  - intros uid' cat' nm' dflt' Hne.
    assert (Hsame : List.filter (is_pref uid' cat' nm')
                      (List.filter (fun p => negb (is_pref uid cat nm p)) table ++ [row])
                    = List.filter (is_pref uid' cat' nm') table).
    { rewrite filter_app_one, (is_pref_other uid uid' cat cat' nm nm' row Hne Hrow),
        app_nil_r.
      apply filter_commute_neg. intros p Hp.
      destruct (is_pref uid cat nm p) eqn:E; [|reflexivity].
      assert (Hne' : uid <> uid' \/ cat <> cat' \/ nm <> nm')
        by (destruct Hne as [|[|]]; [left|right; left|right; right]; congruence).
      rewrite (is_pref_other uid' uid cat' cat nm' nm p Hne' Hp) in E. discriminate. }
    split; [exact Hsame|]. unfold get_preference. now rewrite Hsame.
Qed.

End WithRuntime.
End PreferenceAccess.

Section PreferenceTables.
Import PreferenceService PreferenceServiceAccess.

Lemma fill_names_lookup (defaults : list (string * pyval)) (nm : string) :
  forall inner : gmap string pyval,
    fill_names defaults inner !! nm
    = match inner !! nm with
      | Some v => Some v
      | None =>
          match List.find (fun entry => String.eqb (fst entry) nm) defaults with
          | Some entry => Some (snd entry)
          | None => None
          end
      end.
Proof.
  induction defaults as [|[n dv] rest IH]; intros inner; cbn [fill_names List.find fst snd].
  - now destruct (inner !! nm).
  - rewrite IH. destruct (String.eqb_spec n nm) as [->|Hne].
    + destruct (inner !! nm) as [v|] eqn:E; [now rewrite E|].
      now rewrite lookup_insert_eq.
    + destruct (inner !! n) as [v0|] eqn:E; [reflexivity|].
      now rewrite lookup_insert_ne.
Qed.

Lemma defaults_of_absent (defaults : list (string * list (string * pyval)))
    (cat : string) :
  ~ In cat (map fst defaults) -> defaults_of defaults cat = None.
Proof.
  unfold defaults_of. induction defaults as [|[c d] rest IH]; intros Hnot;
    cbn [List.find fst]; [reflexivity|].
  destruct (String.eqb_spec c cat) as [->|_]; [exfalso; apply Hnot; now left|].
  apply IH. intros Hin. apply Hnot. now right.
Qed.

Lemma fill_defaults_lookup (defaults : list (string * list (string * pyval)))
    (cat : string) :
  List.NoDup (map fst defaults) ->
  forall preferences : gmap string (gmap string pyval),
    fill_defaults defaults preferences !! cat
    = match defaults_of defaults cat with
      | Some default_prefs =>
          Some (fill_names default_prefs (default ∅ (preferences !! cat)))
      | None => preferences !! cat
      end.
Proof.
  induction defaults as [|[c d] rest IH]; intros Hnodup preferences;
    [reflexivity|].
  cbn [map fst] in Hnodup. apply List.NoDup_cons_iff in Hnodup as [Hc Hnodup].
  cbn [fill_defaults]. rewrite (IH Hnodup).
  unfold defaults_of at 2. cbn [List.find fst snd].
  destruct (String.eqb_spec c cat) as [->|Hne].
  - rewrite (defaults_of_absent rest cat Hc). now rewrite lookup_insert_eq.
  - fold (defaults_of rest cat). now rewrite lookup_insert_ne.
Qed.

Lemma default_categories_distinct (cfg : Config.t) :
  List.NoDup (map fst (DEFAULT_PREFERENCES cfg)).
Proof.
  cbn [DEFAULT_PREFERENCES map fst].
  repeat (apply List.NoDup_cons; [cbn [In]; intuition discriminate|]).
  apply List.NoDup_nil.
Qed.

Section WithRuntime.
Context `{Runtime}.

(** The rows of one category, loaded on their own, give the inner dict
    that the loop over all rows builds for the category. *)
Lemma load_rows_category (cat : string) (results : list user_preference) :
  forall acc preferences,
    load_rows results acc = Return preferences ->
    load_category (List.filter (fun p => String.eqb (category p) cat) results)
      (default ∅ (acc !! cat))
    = Return (default ∅ (preferences !! cat)).
Proof.
  induction results as [|pref rest IH]; intros acc preferences Hload.
  - cbn in Hload. injection Hload as <-. reflexivity.
  - cbn [load_rows] in Hload.
    destruct (json_deserialize (value pref)) as [v|e] eqn:Hv; [|discriminate].
    specialize (IH _ _ Hload). cbn [List.filter].
    destruct (String.eqb_spec (category pref) cat) as [Hcat|Hne].
    + cbn [load_category]. rewrite Hv. rewrite <- IH. f_equal.
      unfold set_in. rewrite Hcat, lookup_insert_eq. reflexivity.
    + rewrite <- IH. f_equal. unfold set_in. now rewrite lookup_insert_ne.
Qed.

(** X21.  [get_preferences_by_category] agrees with [get_all_preferences]:
    whenever the latter returns, the former returns, for every category,
    the dict found under that category, and the empty dict for a category
    that is absent. *)
Theorem preferences_by_category_agree (cfg : Config.t) (table : list user_preference)
    (uid : Z) (all : gmap string (gmap string pyval)) :
  get_all_preferences cfg table uid = Return all ->
  forall cat,
    get_preferences_by_category cfg table uid cat = Return (default ∅ (all !! cat)).
Proof.
  unfold get_all_preferences, get_preferences_by_category. intros Hall cat.
  destruct (load_rows (List.filter (fun p => (user_id p =? uid)%Z) table) ∅)
    as [preferences|e] eqn:Hload; [|discriminate].
  apply (f_equal (fun o => match o with Return a => a | Raise _ => ∅ end)) in Hall.
  cbv beta iota in Hall. subst all.
  pose proof (load_rows_category cat _ _ _ Hload) as Hcat.
  rewrite filter_filter_andb in Hcat. rewrite lookup_empty in Hcat.
  cbn [default from_option id] in Hcat.
  change (default ∅ None) with (∅ : gmap string pyval) in Hcat.
  rewrite Hcat. f_equal.
  rewrite (fill_defaults_lookup _ cat (default_categories_distinct cfg)).
  now destruct (defaults_of (DEFAULT_PREFERENCES cfg) cat).
Qed.

Lemma load_category_untouched (nm : string) (results : list user_preference) :
  forall acc preferences,
    load_category results acc = Return preferences ->
    List.filter (fun p => String.eqb (name p) nm) results = [] ->
    preferences !! nm = acc !! nm.
Proof.
  induction results as [|pref rest IH]; intros acc preferences Hload Hnone.
  - cbn in Hload. apply (f_equal (fun o => match o with
                                          | Return a => a !! nm
                                          | Raise _ => None
                                          end)) in Hload.
    now cbv beta iota in Hload.
  - cbn [load_category] in Hload. cbn [List.filter] in Hnone.
    destruct (json_deserialize (value pref)) as [v|e]; [|discriminate].
    destruct (String.eqb_spec (name pref) nm) as [|Hne]; [discriminate|].
    rewrite (IH _ _ Hload Hnone). now rewrite lookup_insert_ne.
Qed.

Lemma load_category_stored (nm : string) (results : list user_preference) :
  forall acc preferences row v,
    load_category results acc = Return preferences ->
    List.filter (fun p => String.eqb (name p) nm) results = [row] ->
    json_loads (value row) = inr v ->
    preferences !! nm = Some v.
Proof.
  induction results as [|pref rest IH]; intros acc preferences row v Hload Hone Hv.
  - discriminate.
  - cbn [load_category] in Hload. cbn [List.filter] in Hone.
    destruct (json_deserialize (value pref)) as [v'|e] eqn:Hv'; [|discriminate].
    destruct (String.eqb_spec (name pref) nm) as [Hnm|Hne].
    + assert (Hrow : pref = row) by congruence.
      assert (Hrest : List.filter (fun p => String.eqb (name p) nm) rest = [])
        by congruence.
      subst pref. unfold json_deserialize in Hv'. rewrite Hv in Hv'.
      assert (v' = v) as -> by congruence.
      rewrite (load_category_untouched nm rest _ _ Hload Hrest).
      rewrite Hnm. apply lookup_insert_eq.
    + exact (IH _ _ row v Hload Hone Hv).
Qed.

Lemma defaults_of_present (defaults : list (string * list (string * pyval)))
    (cat : string) (defs : list (string * pyval)) :
  List.NoDup (map fst defaults) -> In (cat, defs) defaults ->
  defaults_of defaults cat = Some defs.
Proof.
  unfold defaults_of. induction defaults as [|[c d] rest IH]; intros Hnodup Hin;
    [destruct Hin|].
  cbn [map fst] in Hnodup. apply List.NoDup_cons_iff in Hnodup as [Hc Hnodup].
  cbn [List.find fst snd]. destruct Hin as [Heq|Hin].
  - injection Heq as -> ->. now rewrite String.eqb_refl.
  - destruct (String.eqb_spec c cat) as [->|_]; [|now apply IH].
    exfalso. apply Hc. apply in_map_iff. exists (cat, defs). auto.
Qed.

(** What [get_all_preferences] holds under a category and name, in terms
    of the rows of the category loaded on their own. *)
Lemma get_all_preferences_lookup (cfg : Config.t) (table : list user_preference)
    (uid : Z) (all : gmap string (gmap string pyval)) (cat : string) :
  get_all_preferences cfg table uid = Return all ->
  exists stored,
    load_category
      (List.filter (fun p => (user_id p =? uid)%Z && String.eqb (category p) cat) table)
      ∅ = Return stored
    /\ default ∅ (all !! cat)
       = match defaults_of (DEFAULT_PREFERENCES cfg) cat with
         | Some default_prefs => fill_names default_prefs stored
         | None => stored
         end
    /\ (defaults_of (DEFAULT_PREFERENCES cfg) cat <> None -> is_Some (all !! cat)).
Proof.
  unfold get_all_preferences. intros Hall.
  destruct (load_rows (List.filter (fun p => (user_id p =? uid)%Z) table) ∅)
    as [preferences|e] eqn:Hload; [|discriminate].
  apply (f_equal (fun o => match o with Return a => a | Raise _ => ∅ end)) in Hall.
  cbv beta iota in Hall. subst all.
  pose proof (load_rows_category cat _ _ _ Hload) as Hcat.
  rewrite filter_filter_andb in Hcat. rewrite lookup_empty in Hcat.
  change (default ∅ None) with (∅ : gmap string pyval) in Hcat.
  exists (default ∅ (preferences !! cat)). split; [exact Hcat|].
  rewrite (fill_defaults_lookup _ cat (default_categories_distinct cfg)).
  destruct (defaults_of (DEFAULT_PREFERENCES cfg) cat); split; eauto; congruence.
Qed.

(** X22.  In the result of [get_all_preferences] every category and name
    of the default table is present; a name for which the user has a
    stored row carries the stored value, not the default; a name without
    a stored row carries the default of the table, and is absent when the
    table has none. *)
Theorem get_all_preferences_stored_wins (cfg : Config.t)
    (table : list user_preference) (uid : Z) (all : gmap string (gmap string pyval)) :
  get_all_preferences cfg table uid = Return all ->
  (forall cat defs nm dv,
      In (cat, defs) (DEFAULT_PREFERENCES cfg) -> In (nm, dv) defs ->
      exists inner v, all !! cat = Some inner /\ inner !! nm = Some v)
  /\ (forall cat nm row v,
        List.filter (is_pref uid cat nm) table = [row] ->
        json_loads (value row) = inr v ->
        default ∅ (all !! cat) !! nm = Some v)
  /\ (forall cat nm,
        List.filter (is_pref uid cat nm) table = [] ->
        default ∅ (all !! cat) !! nm
        = match defaults_of (DEFAULT_PREFERENCES cfg) cat with
          | Some defs =>
              option_map snd (List.find (fun entry => String.eqb (fst entry) nm) defs)
          | None => None
          end).
Proof.
  intros Hall. split; [|split].
  - intros cat defs nm dv Hcat Hnm.
    destruct (get_all_preferences_lookup cfg table uid all cat Hall)
      as (stored & _ & Hinner & Hsome).
    rewrite (defaults_of_present _ cat defs (default_categories_distinct cfg) Hcat)
      in Hinner, Hsome.
    destruct (Hsome ltac:(discriminate)) as [inner Hlookup].
    rewrite Hlookup in Hinner. cbn [default from_option id] in Hinner.
    subst inner. exists (fill_names defs stored). rewrite fill_names_lookup.
    destruct (stored !! nm) as [v|]; [eauto|].
    destruct (List.find (fun entry => String.eqb (fst entry) nm) defs) as [entry|] eqn:E;
      [eauto|].
    exfalso. apply (List.find_none _ _ E) in Hnm. cbn [fst] in Hnm.
    now rewrite String.eqb_refl in Hnm.
  - intros cat nm row v Hone Hv.
    destruct (get_all_preferences_lookup cfg table uid all cat Hall)
      as (stored & Hload & -> & _).
    assert (Hstored : stored !! nm = Some v).
    { apply (load_category_stored nm _ _ _ row v Hload); [|exact Hv].
      rewrite filter_filter_andb. exact Hone. }
    destruct (defaults_of (DEFAULT_PREFERENCES cfg) cat); [|exact Hstored].
    now rewrite fill_names_lookup, Hstored.
  - intros cat nm Hnone.
    destruct (get_all_preferences_lookup cfg table uid all cat Hall)
      as (stored & Hload & -> & _).
    assert (Hstored : stored !! nm = None).
    { rewrite (load_category_untouched nm _ _ _ Hload); [apply lookup_empty|].
      rewrite filter_filter_andb. exact Hnone. }
    destruct (defaults_of (DEFAULT_PREFERENCES cfg) cat) as [defs|]; [|exact Hstored].
    rewrite fill_names_lookup, Hstored.
    now destruct (List.find (fun entry => String.eqb (fst entry) nm) defs).
Qed.

End WithRuntime.

Lemma example_preferences_loaded :
  @get_all_preferences empty_object_runtime example_config example_preferences 7
  = Return (fill_defaults (DEFAULT_PREFERENCES example_config)
              (set_in ∅ "ui" "dashboard_layout" (PDict ∅))).
Proof. reflexivity. Qed.

(** The stored dashboard layout of user 7 is read back under [ui]. *)
Lemma preferences_by_category_agree_witness :
  exists all,
    @get_all_preferences empty_object_runtime example_config example_preferences 7
    = Return all
    /\ @get_preferences_by_category empty_object_runtime example_config
         example_preferences 7 "ui"
       = Return (default ∅ (all !! "ui")).
Proof.
  eexists. split; [exact example_preferences_loaded|].
  exact (@preferences_by_category_agree empty_object_runtime example_config
           example_preferences 7 _ example_preferences_loaded "ui").
Defined.

Lemma get_all_preferences_stored_wins_witness :
  exists all,
    @get_all_preferences empty_object_runtime example_config example_preferences 7
    = Return all
    /\ default ∅ (all !! "ui") !! "dashboard_layout" = Some (PDict ∅).
Proof.
  eexists. split; [exact example_preferences_loaded|].
  destruct (@get_all_preferences_stored_wins empty_object_runtime example_config
              example_preferences 7 _ example_preferences_loaded)
    as (_ & Hstored & _).
  exact (Hstored "ui" "dashboard_layout"
           (UserPreference 1 7 "ui" "dashboard_layout" "{}") (PDict ∅)
           eq_refl eq_refl).
Defined.

End PreferenceTables.

(* ===================================================================== *)
(** * Further properties of the security helpers *)
Section PasswordLength.
Import Security.

Lemma char_classes_disjoint (c : ascii) :
  (Nat.b2n (islower c) + Nat.b2n (isupper c) + Nat.b2n (isdigit c) <= 1)%nat.
Proof.
  unfold islower, isupper, isdigit, char_in_range.
  repeat match goal with
         | |- context [(?a <=? ?b)%nat] => destruct (Nat.leb_spec a b)
         end; simpl; lia.
Qed.

Lemma count_classes (l : list ascii) :
  (count_where islower l + count_where isupper l + count_where isdigit l
   <= length l)%nat.
Proof.
  unfold count_where. induction l as [|c l IH]; simpl; [lia|].
  pose proof (char_classes_disjoint c) as Hc.
  destruct (islower c), (isupper c), (isdigit c); simpl in *; lia.
Qed.

Lemma existsb_count_where (p : ascii -> bool) (l : list ascii) :
  existsb p l = true -> (0 < count_where p l)%nat.
Proof.
  unfold count_where. induction l as [|c l IH]; simpl; [discriminate|].
  destruct (p c); simpl; [lia|exact IH].
Qed.

Lemma acceptable_length (l : list ascii) :
  acceptable l = true -> (5 <= length l)%nat.
Proof.
  unfold acceptable. rewrite !andb_true_iff, Nat.leb_le.
  intros [[Hlower Hupper] Hdigits].
  apply existsb_count_where in Hlower, Hupper.
  pose proof (count_classes l). lia.
Qed.

Lemma candidate_zeros (n k : nat) :
  candidate letters_then_zeros n (S (S k)) = repeat "0"%char n.
Proof.
  revert k. induction n as [|n IH]; intros k; [reflexivity|].
  cbn [candidate repeat]. rewrite IH. reflexivity.
Qed.

(** X23.  The loop of [generate_password] needs a lowercase letter, an
    uppercase letter and three digits in one candidate: for a length
    below 5 no candidate is ever accepted, whatever the random source, so
    the function does not return; from length 5 on there are random
    sources for which the first candidate is accepted. *)
Theorem generate_password_length_bound (len : Z) :
  ((len < 5)%Z -> forall fuel rnd, generate_password fuel rnd len = None)
  /\ ((5 <= len)%Z ->
      exists rnd pw, forall fuel, generate_password (S fuel) rnd len = Some pw).
Proof.
  split.
  - intros Hlen fuel rnd. unfold generate_password. generalize 0%nat.
    induction fuel as [|fuel IH]; intros k; cbn [generate_password_from];
      [reflexivity|].
    destruct (acceptable (candidate rnd (Z.to_nat len) k)) eqn:Hacc; [|apply IH].
    apply acceptable_length in Hacc. rewrite candidate_length in Hacc. lia.
  - intros Hlen. exists letters_then_zeros.
    destruct (Z.to_nat len) as [|[|[|[|[|n]]]]] eqn:Hn; try lia.
    eexists. intros fuel. unfold generate_password. cbn [generate_password_from].
    rewrite Hn.
    assert (Hacc : acceptable (candidate letters_then_zeros (S (S (S (S (S n))))) 0)
                   = true).
    { cbn [candidate]. rewrite (candidate_zeros n 3). reflexivity. }
    rewrite Hacc. reflexivity.
Qed.

End PasswordLength.

Section JsonInput.
Import SecurityInput.

Lemma first_missing_None (data : gmap string pyval) (required : list string) :
  first_missing data required = None <->
  (forall field, In field required -> is_Some (data !! field)).
Proof.
  induction required as [|f rest IH]; cbn [first_missing].
  - split; [intros _ field []|reflexivity].
  - destruct (data !! f) as [v|] eqn:E.
    + rewrite IH. split.
      * intros Hall field [<-|Hin]; [rewrite E; eauto|now apply Hall].
      * intros Hall field Hin. apply Hall. now right.
    + split; [discriminate|]. intros Hall.
      destruct (Hall f (or_introl eq_refl)) as [v Hv]. congruence.
Qed.

Lemma first_missing_first (data : gmap string pyval) (before after : list string)
    (field : string) :
  (forall f, In f before -> is_Some (data !! f)) ->
  data !! field = None ->
  first_missing data (before ++ field :: after) = Some field.
Proof.
  intros Hbefore Hfield. induction before as [|f rest IH]; cbn [app first_missing].
  - now rewrite Hfield.
  - destruct (Hbefore f (or_introl eq_refl)) as [v ->].
    apply IH. intros g Hg. apply Hbefore. now right.
Qed.

Lemma first_invalid_None (data : gmap string pyval)
    (validators : list (string * validator)) :
  first_invalid data validators = None <->
  (forall field check v,
      In (field, check) validators -> data !! field = Some v -> fst (check v) = true).
Proof.
  induction validators as [|[f c] rest IH]; cbn [first_invalid].
  - split; [intros _ field check v []|reflexivity].
  - destruct (data !! f) as [v|] eqn:E.
    + destruct (c v) as [valid message] eqn:Hc. destruct valid.
      * rewrite IH. split.
        -- intros Hall field check v' [Heq|Hin] Hv.
           ++ injection Heq as <- <-. assert (v' = v) as -> by congruence.
              now rewrite Hc.
           ++ now apply (Hall field check v' Hin).
        -- intros Hall field check v' Hin. apply Hall. now right.
      * split; [discriminate|]. intros Hall.
        specialize (Hall f c v (or_introl eq_refl) E). rewrite Hc in Hall.
        discriminate.
    + rewrite IH. split.
      * intros Hall field check v' [Heq|Hin] Hv.
        -- injection Heq as <- <-. congruence.
        -- now apply (Hall field check v' Hin).
      * intros Hall field check v' Hin. apply Hall. now right.
Qed.

(** X24.  [validate_json_input] accepts exactly when every required field
    is present and every validator whose field is present accepts its
    value; validators of absent fields are not consulted.  It returns a
    message exactly when it rejects.  A missing required field is
    reported before any validator runs, and the field named is the first
    missing one in the order of [required_fields]. *)
Theorem validate_json_input_accepts (data : gmap string pyval)
    (required_fields : list string)
    (field_validators : option (list (string * validator))) :
  let r := validate_json_input data required_fields field_validators in
  (fst r = true <->
   (forall field, In field required_fields -> is_Some (data !! field))
   /\ (forall field check v,
         In (field, check) (default [] field_validators) ->
         data !! field = Some v -> fst (check v) = true))
  /\ (snd r = None <-> fst r = true)
  /\ (forall before field after,
        required_fields = before ++ field :: after ->
        (forall f, In f before -> is_Some (data !! f)) ->
        data !! field = None ->
        r = (false, Some ("Missing required field: " +:+ field))).
Proof.
  intros r. subst r. unfold validate_json_input.
  split; [|split].
  - destruct (first_missing data required_fields) as [field|] eqn:Hmiss.
    + cbn [fst]. split; [discriminate|]. intros [Hall _].
      apply (proj2 (first_missing_None _ _)) in Hall. congruence.
    + pose proof (proj1 (first_missing_None data required_fields) Hmiss) as Hpresent.
      destruct field_validators as [validators|]; cbn [default from_option id].
      * destruct (first_invalid data validators) as [message|] eqn:Hinv; cbn [fst].
        -- split; [discriminate|]. intros [_ Hall].
           apply (proj2 (first_invalid_None _ _)) in Hall. congruence.
        -- pose proof (proj1 (first_invalid_None data validators) Hinv). tauto.
      * cbn [fst]. split; [|reflexivity]. intros _. split; [exact Hpresent|].
        intros field check v [].
  - destruct (first_missing data required_fields);
      [|destruct field_validators as [validators|];
        [destruct (first_invalid data validators)|]];
      cbn [fst snd]; split; congruence.
  - intros before field after -> Hbefore Hfield.
    now rewrite (first_missing_first data before after field Hbefore Hfield).
Qed.

End JsonInput.

(* ===================================================================== *)
(** * Order of binary64 values and the relevance levels *)
Section FloatOrder.

(** [SFcompare] is transitive: [a < b <= c] gives [a < c]. *)
Lemma SFcompare_lt_le (a b c : spec_float) :
  SFcompare a b = Some Lt ->
  (SFcompare b c = Some Lt \/ SFcompare b c = Some Eq) ->
  SFcompare a c = Some Lt.
Proof.
  destruct a as [sa|sa| |sa ma ea], b as [sb|sb| |sb mb eb], c as [sc|sc| |sc mc ec];
    simpl; try destruct sa; try destruct sb; try destruct sc; simpl;
    try (intros; congruence); try (intros ? [|]; congruence).
  all: change (PosDef.Pos.compare_cont Eq ma mb) with (ma ?= mb)%positive;
       change (PosDef.Pos.compare_cont Eq mb mc) with (mb ?= mc)%positive;
       change (PosDef.Pos.compare_cont Eq ma mc) with (ma ?= mc)%positive.
  all: destruct (Z.compare_spec ea eb), (Z.compare_spec eb ec), (Z.compare_spec ea ec);
       subst; try lia; simpl; try (intros; congruence); try (intros ? [|]; congruence).
  all: destruct (Pos.compare_spec ma mb), (Pos.compare_spec mb mc),
         (Pos.compare_spec ma mc);
       subst; try lia; simpl; try (intros; congruence); try (intros ? [|]; congruence).
Qed.

Lemma SFcompare_le_lt (a b c : spec_float) :
  (SFcompare a b = Some Lt \/ SFcompare a b = Some Eq) ->
  SFcompare b c = Some Lt ->
  SFcompare a c = Some Lt.
Proof.
  destruct a as [sa|sa| |sa ma ea], b as [sb|sb| |sb mb eb], c as [sc|sc| |sc mc ec];
    simpl; try destruct sa; try destruct sb; try destruct sc; simpl;
    try (intros; congruence); try (intros [|]; congruence).
  all: change (PosDef.Pos.compare_cont Eq ma mb) with (ma ?= mb)%positive;
       change (PosDef.Pos.compare_cont Eq mb mc) with (mb ?= mc)%positive;
       change (PosDef.Pos.compare_cont Eq ma mc) with (ma ?= mc)%positive.
  all: destruct (Z.compare_spec ea eb), (Z.compare_spec eb ec), (Z.compare_spec ea ec);
       subst; try lia; simpl; try (intros; congruence); try (intros [|]; congruence).
  all: destruct (Pos.compare_spec ma mb), (Pos.compare_spec mb mc),
         (Pos.compare_spec ma mc);
       subst; try lia; simpl; try (intros; congruence); try (intros [|]; congruence).
Qed.

Lemma SFcompare_Eq_trans (a b c : spec_float) :
  SFcompare a b = Some Eq -> SFcompare b c = Some Eq -> SFcompare a c = Some Eq.
Proof.
  destruct a as [sa|sa| |sa ma ea], b as [sb|sb| |sb mb eb], c as [sc|sc| |sc mc ec];
    simpl; try destruct sa; try destruct sb; try destruct sc; simpl;
    try (intros; congruence).
  all: change (PosDef.Pos.compare_cont Eq ma mb) with (ma ?= mb)%positive;
       change (PosDef.Pos.compare_cont Eq mb mc) with (mb ?= mc)%positive;
       change (PosDef.Pos.compare_cont Eq ma mc) with (ma ?= mc)%positive.
  all: destruct (Z.compare_spec ea eb), (Z.compare_spec eb ec), (Z.compare_spec ea ec);
       subst; try lia; simpl; try (intros; congruence).
  all: destruct (Pos.compare_spec ma mb), (Pos.compare_spec mb mc),
         (Pos.compare_spec ma mc);
       subst; try lia; simpl; try (intros; congruence).
Qed.

Lemma SFcompare_Gt_swap (a b : spec_float) :
  SFcompare a b = Some Gt -> SFcompare b a = Some Lt.
Proof.
  destruct a as [sa|sa| |sa ma ea], b as [sb|sb| |sb mb eb]; simpl;
    try destruct sa; try destruct sb; simpl; try congruence.
  all: rewrite (Z.compare_antisym ea eb); destruct (ea ?= eb)%Z; simpl; try congruence.
  all: change (PosDef.Pos.compare_cont Eq mb ma) with (mb ?= ma)%positive;
       change (PosDef.Pos.compare_cont Eq ma mb) with (ma ?= mb)%positive;
       rewrite (Pos.compare_antisym ma mb);
       destruct (ma ?= mb)%positive; simpl; congruence.
Qed.

Lemma SFcompare_Eq_swap (a b : spec_float) :
  SFcompare a b = Some Eq -> SFcompare b a = Some Eq.
Proof.
  destruct a as [sa|sa| |sa ma ea], b as [sb|sb| |sb mb eb]; simpl;
    try destruct sa; try destruct sb; simpl; try congruence.
  all: rewrite (Z.compare_antisym ea eb); destruct (ea ?= eb)%Z; simpl; try congruence.
  all: change (PosDef.Pos.compare_cont Eq mb ma) with (mb ?= ma)%positive;
       change (PosDef.Pos.compare_cont Eq ma mb) with (ma ?= mb)%positive;
       rewrite (Pos.compare_antisym ma mb);
       destruct (ma ?= mb)%positive; simpl; congruence.
Qed.

(** Two values that each compare with something compare with each
    other: neither is a NaN. *)
Lemma SFcompare_total (a b a' b' : spec_float) :
  SFcompare a' a <> None -> SFcompare b b' <> None -> SFcompare b a <> None.
Proof.
  destruct a as [sa|sa| |sa ma ea], b as [sb|sb| |sb mb eb],
    a' as [sa'|sa'| |sa' ma' ea'], b' as [sb'|sb'| |sb' mb' eb'];
    simpl; congruence.
Qed.

(** The same facts on doubles. *)
Lemma leb_cases (x y : float) :
  PrimFloat.leb x y = true
  <-> (SFcompare (Prim2SF x) (Prim2SF y) = Some Lt
      \/ SFcompare (Prim2SF x) (Prim2SF y) = Some Eq).
Proof.
  rewrite leb_spec. unfold SFleb.
  destruct (SFcompare (Prim2SF x) (Prim2SF y)) as [[]|]; split;
    try tauto; try discriminate; intros [|]; discriminate.
Qed.

Lemma ltb_cases (x y : float) :
  PrimFloat.ltb x y = true <-> SFcompare (Prim2SF x) (Prim2SF y) = Some Lt.
Proof.
  rewrite ltb_spec. unfold SFltb.
  destruct (SFcompare (Prim2SF x) (Prim2SF y)) as [[]|]; split;
    try tauto; try discriminate.
Qed.

Lemma float_lt_le_trans (a b c : float) :
  PrimFloat.ltb a b = true -> PrimFloat.leb b c = true -> PrimFloat.ltb a c = true.
Proof.
  rewrite !ltb_cases, leb_cases. apply SFcompare_lt_le.
Qed.

Lemma float_le_lt_trans (a b c : float) :
  PrimFloat.leb a b = true -> PrimFloat.ltb b c = true -> PrimFloat.ltb a c = true.
Proof.
  rewrite !ltb_cases, leb_cases. apply SFcompare_le_lt.
Qed.

Lemma float_lt_le (a b : float) :
  PrimFloat.ltb a b = true -> PrimFloat.leb a b = true.
Proof. rewrite ltb_cases, leb_cases. tauto. Qed.

Lemma float_le_trans (a b c : float) :
  PrimFloat.leb a b = true -> PrimFloat.leb b c = true -> PrimFloat.leb a c = true.
Proof.
  rewrite !leb_cases. intros [Hab|Hab] [Hbc|Hbc].
  - left. apply (SFcompare_lt_le _ _ _ Hab). now left.
  - left. apply (SFcompare_lt_le _ _ _ Hab). now right.
  - left. apply (SFcompare_le_lt _ (Prim2SF b)); [now right|exact Hbc].
  - right. exact (SFcompare_Eq_trans _ _ _ Hab Hbc).
Qed.

Lemma float_le_not_lt (a b : float) :
  PrimFloat.leb a b = true -> PrimFloat.ltb b a = false.
Proof.
  intros Hle. destruct (PrimFloat.ltb b a) eqn:Hlt; [|reflexivity].
  rewrite (ltb_leb_false _ _ Hlt) in Hle. discriminate.
Qed.

(** Among values that are not NaN, [not (t <= x)] is [x < t]. *)
Lemma float_not_le_lt (t x y : float) :
  PrimFloat.leb y x = true -> PrimFloat.leb t t = true ->
  PrimFloat.leb t x = false -> PrimFloat.ltb x t = true.
Proof.
  intros Hx Ht Hno. apply ltb_cases.
  assert (Hx' : SFcompare (Prim2SF y) (Prim2SF x) <> None)
    by (apply leb_cases in Hx as [->| ->]; discriminate).
  assert (Ht' : SFcompare (Prim2SF t) (Prim2SF t) <> None)
    by (apply leb_cases in Ht as [->| ->]; discriminate).
  pose proof (SFcompare_total _ _ _ _ Hx' Ht') as Htot.
  rewrite leb_spec in Hno. unfold SFleb in Hno.
  destruct (SFcompare (Prim2SF t) (Prim2SF x)) as [[]|] eqn:E;
    try discriminate; [|contradiction].
  now apply SFcompare_Gt_swap.
Qed.

Lemma float_le_antisym_eqb (a b : float) :
  PrimFloat.leb a b = true -> PrimFloat.ltb a b = false -> PrimFloat.eqb a b = true.
Proof.
  rewrite leb_spec, ltb_spec, FloatAxioms.eqb_spec. unfold SFleb, SFltb, SFeqb.
  destruct (SFcompare (Prim2SF a) (Prim2SF b)) as [[]|]; congruence.
Qed.

Lemma float_eqb_le (a b : float) :
  PrimFloat.eqb a b = true -> PrimFloat.leb a b = true /\ PrimFloat.leb b a = true.
Proof.
  rewrite FloatAxioms.eqb_spec, !leb_cases. unfold SFeqb.
  destruct (SFcompare (Prim2SF a) (Prim2SF b)) as [[]|] eqn:E; try discriminate.
  intros _. split; right; [reflexivity|now apply SFcompare_Eq_swap].
Qed.

(** A NaN compares with nothing. *)
Lemma float_nan_compare (x t : float) :
  PrimFloat.eqb x x = false ->
  PrimFloat.leb t x = false /\ PrimFloat.ltb x t = false /\ PrimFloat.eqb x t = false.
Proof.
  rewrite !FloatAxioms.eqb_spec, leb_spec, ltb_spec. unfold SFeqb, SFleb, SFltb.
  destruct (Prim2SF x) as [sx|sx| |sx mx ex]; simpl.
  - discriminate.
  - destruct sx; discriminate.
  - intros _. now destruct (Prim2SF t).
  - rewrite Z.compare_refl.
    change (PosDef.Pos.compare_cont Eq mx mx) with (mx ?= mx)%positive.
    rewrite Pos.compare_refl. destruct sx; discriminate.
Qed.

End FloatOrder.

Section RelevanceLevels.
Import TitleStrategyEvaluator.

Lemma cut_test (x y t : float) :
  PrimFloat.leb y x = true -> PrimFloat.leb t t = true ->
  PrimFloat.ltb x t = negb (PrimFloat.leb t x).
Proof.
  intros Hx Ht. destruct (PrimFloat.leb t x) eqn:E; cbn [negb].
  - now apply float_le_not_lt.
  - exact (float_not_le_lt t x y Hx Ht E).
Qed.

Lemma get_relevance_level_in (score : float) :
  In (_get_relevance_level score) LEVEL_ORDER.
Proof.
  unfold _get_relevance_level, RELEVANCE_LEVELS. cbn [first_level].
  repeat match goal with
         | |- context [if ?c then _ else _] => destruct c
         end; unfold LEVEL_ORDER; cbn [In]; tauto.
Qed.

Lemma level_by_cuts (x : float) :
  unit_score x ->
  _get_relevance_level x = nth (cuts_reached x) LEVEL_ORDER "irrelevant".
Proof.
  intros [H0 H1].
  unfold _get_relevance_level, RELEVANCE_LEVELS, cuts_reached, level_cuts.
  cbn [first_level List.filter]. rewrite H0.
  rewrite (cut_test x 0 0.2 H0 eq_refl), (cut_test x 0 0.4 H0 eq_refl),
    (cut_test x 0 0.7 H0 eq_refl), (cut_test x 0 0.9 H0 eq_refl).
  assert (H24 : PrimFloat.leb 0.4 x = true -> PrimFloat.leb 0.2 x = true)
    by (apply float_le_trans; reflexivity).
  assert (H47 : PrimFloat.leb 0.7 x = true -> PrimFloat.leb 0.4 x = true)
    by (apply float_le_trans; reflexivity).
  assert (H79 : PrimFloat.leb 0.9 x = true -> PrimFloat.leb 0.7 x = true)
    by (apply float_le_trans; reflexivity).
  destruct (PrimFloat.leb 0.9 x) eqn:E9.
  - rewrite (H79 eq_refl), (H47 (H79 eq_refl)), (H24 (H47 (H79 eq_refl))).
    cbn [negb andb length nth LEVEL_ORDER].
    destruct (PrimFloat.ltb x 1) eqn:E1; [reflexivity|].
    now rewrite (float_le_antisym_eqb x 1 H1 E1).
  - destruct (PrimFloat.leb 0.7 x) eqn:E7.
    + rewrite (H47 eq_refl), (H24 (H47 eq_refl)). reflexivity.
    + destruct (PrimFloat.leb 0.4 x) eqn:E4.
      * rewrite (H24 eq_refl). reflexivity.
      * destruct (PrimFloat.leb 0.2 x) eqn:E2; reflexivity.
Qed.

Lemma cuts_reached_monotone (x y : float) :
  PrimFloat.leb x y = true -> (cuts_reached x <= cuts_reached y)%nat.
Proof.
  intros Hxy. unfold cuts_reached. induction level_cuts as [|t cuts IH];
    cbn [List.filter]; [lia|].
  destruct (PrimFloat.leb t x) eqn:Ex.
  - rewrite (float_le_trans t x y Ex Hxy). cbn [length]. lia.
  - destruct (PrimFloat.leb t y); cbn [length]; lia.
Qed.

(** X25.  The relevance level of a score in the unit interval is the one
    at the position given by the number of cut points 0.2, 0.4, 0.7 and
    0.9 the score has reached, so the level never falls when the score
    rises; every score outside the interval, above 1.0 as well as below
    0.0, and a NaN map to [irrelevant]; and the result is always one of
    the five levels. *)
Theorem relevance_level_order :
  (forall x, unit_score x ->
     _get_relevance_level x = nth (cuts_reached x) LEVEL_ORDER "irrelevant")
  /\ (forall x y, unit_score x -> unit_score y -> PrimFloat.leb x y = true ->
        exists i j,
          index LEVEL_ORDER (_get_relevance_level x) = Some i
          /\ index LEVEL_ORDER (_get_relevance_level y) = Some j
          /\ (i <= j)%nat)
  /\ (forall x,
        PrimFloat.ltb x 0 = true \/ PrimFloat.ltb 1 x = true
        \/ PrimFloat.eqb x x = false ->
        _get_relevance_level x = "irrelevant")
  /\ (forall x, In (_get_relevance_level x) LEVEL_ORDER).
Proof.
  split; [exact level_by_cuts|]. split; [|split; [|exact get_relevance_level_in]].
  - intros x y Hx Hy Hxy.
    rewrite (level_by_cuts x Hx), (level_by_cuts y Hy).
    pose proof (cuts_reached_monotone x y Hxy) as Hmono.
    assert (Hbound : forall z, (cuts_reached z <= 4)%nat).
    { intros z. unfold cuts_reached.
      etransitivity; [apply List.filter_length_le|]. reflexivity. }
    assert (Hindex : forall r, (r <= 4)%nat ->
                               index LEVEL_ORDER (nth r LEVEL_ORDER "irrelevant") = Some r).
    { intros r Hr. destruct r as [|[|[|[|[|r]]]]]; try reflexivity. lia. }
    exists (cuts_reached x), (cuts_reached y).
    rewrite !Hindex by apply Hbound. auto.
  - intros x Hout.
    unfold _get_relevance_level, RELEVANCE_LEVELS. cbn [first_level].
    destruct Hout as [Hneg|[Hbig|Hnan]].
    + assert (Hmin : forall t, PrimFloat.leb 0 t = true -> PrimFloat.leb t x = false).
      { intros t Ht. destruct (PrimFloat.leb t x) eqn:E; [|reflexivity].
        pose proof (float_le_trans 0 t x Ht E) as H0.
        rewrite (float_le_not_lt 0 x H0) in Hneg. discriminate. }
      rewrite !Hmin by reflexivity. cbn [andb].
      destruct (PrimFloat.eqb x 1) eqn:E; [|reflexivity].
      apply float_eqb_le in E as [_ E].
      rewrite (Hmin 1%float eq_refl) in E. discriminate.
    + assert (Hmax : forall t, PrimFloat.leb t 1 = true -> PrimFloat.ltb x t = false).
      { intros t Ht. destruct (PrimFloat.ltb x t) eqn:E; [|reflexivity].
        pose proof (float_lt_le_trans x t 1 E Ht) as H1.
        apply float_lt_le in H1. rewrite (ltb_leb_false 1 x Hbig) in H1.
        discriminate. }
      rewrite !Hmax by reflexivity. rewrite !andb_false_r.
      destruct (PrimFloat.eqb x 1) eqn:E; [|reflexivity].
      apply float_eqb_le in E as [E _].
      rewrite (ltb_leb_false 1 x Hbig) in E. discriminate.
    + assert (Hmin : forall t, PrimFloat.leb t x = false)
        by (intros t; apply (float_nan_compare x t Hnan)).
      rewrite !Hmin. cbn [andb].
      now rewrite (proj2 (proj2 (float_nan_compare x 1 Hnan))).
Qed.

Lemma index_Some (l : list string) (x : string) (i : nat) :
  index l x = Some i -> (i < length l)%nat /\ nth i l "" = x.
Proof.
  revert i. induction l as [|y l IH]; intros i; cbn [index]; [discriminate|].
  destruct (String.eqb_spec y x) as [->|Hne].
  - intros [= <-]. cbn. split; [lia|reflexivity].
  - destruct (index l x) as [j|]; [|discriminate].
    intros [= <-]. destruct (IH j eq_refl) as [Hlt Hnth]. cbn. split; [lia|exact Hnth].
Qed.

Lemma index_None (l : list string) (x : string) :
  index l x = None <-> ~ In x l.
Proof.
  induction l as [|y l IH]; cbn [index In]; [tauto|].
  destruct (String.eqb_spec y x) as [->|Hne].
  - split; [discriminate|tauto].
  - destruct (index l x) as [j|].
    + split; [discriminate|]. intros Hnot. exfalso.
      assert (Hin : ~ In x l) by tauto. apply IH in Hin. discriminate.
    + split; [|reflexivity]. intros _ [Heq|Hin]; [congruence|].
      now apply (proj1 IH).
Qed.

Lemma index_In (l : list string) (x : string) :
  In x l -> exists i, index l x = Some i.
Proof.
  intros Hin. destruct (index l x) as [i|] eqn:E; [eauto|].
  apply index_None in E. contradiction.
Qed.

(** X26.  [_calculate_level_distance] is a metric on the five levels: it
    lies between 0 and 4, is symmetric, is 0 exactly for equal levels and
    satisfies the triangle inequality; a level outside [LEVEL_ORDER], as
    either argument, gives the maximal distance 4; and for two levels
    obtained from scores by [_get_relevance_level] the error path is never
    taken, the distance being the difference of their positions. *)
Theorem level_distance_metric :
  (forall a b, (0 <= _calculate_level_distance a b <= 4)%Z)
  /\ (forall a b, _calculate_level_distance a b = _calculate_level_distance b a)
  /\ (forall a b, In a LEVEL_ORDER -> In b LEVEL_ORDER ->
        (_calculate_level_distance a b = 0%Z <-> a = b))
  /\ (forall a b c, In a LEVEL_ORDER -> In b LEVEL_ORDER -> In c LEVEL_ORDER ->
        (_calculate_level_distance a c
         <= _calculate_level_distance a b + _calculate_level_distance b c)%Z)
  /\ (forall a b, ~ In a LEVEL_ORDER \/ ~ In b LEVEL_ORDER ->
        _calculate_level_distance a b = 4%Z)
  /\ (forall x y, exists i j,
        index LEVEL_ORDER (_get_relevance_level x) = Some i
        /\ index LEVEL_ORDER (_get_relevance_level y) = Some j
        /\ _calculate_level_distance (_get_relevance_level x) (_get_relevance_level y)
           = Z.abs (Z.of_nat i - Z.of_nat j)).
Proof.
  assert (Hlen : length LEVEL_ORDER = 5%nat) by reflexivity.
  split; [|split; [|split; [|split; [|split]]]].
  - intros a b. unfold _calculate_level_distance. rewrite Hlen.
    destruct (index LEVEL_ORDER a) as [i|] eqn:Ea; [|lia].
    destruct (index LEVEL_ORDER b) as [j|] eqn:Eb; [|lia].
    apply index_Some in Ea as [Hi _]. apply index_Some in Eb as [Hj _]. lia.
  - intros a b. unfold _calculate_level_distance.
    destruct (index LEVEL_ORDER a) as [i|], (index LEVEL_ORDER b) as [j|];
      try reflexivity. lia.
  - intros a b Ha Hb. unfold _calculate_level_distance.
    destruct (index_In _ _ Ha) as [i Ei], (index_In _ _ Hb) as [j Ej].
    rewrite Ei, Ej. split.
    + intros Hd. assert (i = j) by lia. subst j.
      apply index_Some in Ei as [_ <-]. apply index_Some in Ej as [_ <-]. reflexivity.
    + intros ->. assert (i = j) by congruence. lia.
  - intros a b c Ha Hb Hc. unfold _calculate_level_distance.
    destruct (index_In _ _ Ha) as [i ->], (index_In _ _ Hb) as [j ->],
      (index_In _ _ Hc) as [k ->]. lia.
  - intros a b Hnot. unfold _calculate_level_distance. rewrite Hlen.
    destruct Hnot as [Ha|Hb].
    + apply index_None in Ha. now rewrite Ha.
    + apply index_None in Hb. rewrite Hb. now destruct (index LEVEL_ORDER a).
  - intros x y.
    destruct (index_In _ _ (get_relevance_level_in x)) as [i Ei].
    destruct (index_In _ _ (get_relevance_level_in y)) as [j Ej].
    exists i, j. unfold _calculate_level_distance. now rewrite Ei, Ej.
Qed.

End RelevanceLevels.

(* ===================================================================== *)
(** * Properties of the orchestrator *)
Section Orchestrator.
Import DatabaseService OrchestratorService.

Lemma add_job_state_valid (j : string) (u : Z) (st : string) (nts : option string)
    (now : Z) (d : db) (listing : job_listing) :
  In st JobStates.VALID_STATES ->
  get_job_by_id j d = Some listing ->
  add_job_state j u st nts now d
  = (Return (seq_job_states d + 1)%Z,
     Db (job_listings d) (job_states d ++ [new_state_row j u st nts now d])
        (job_analyses d) (seq_job_states d + 1) (seq_job_analysis d)).
Proof.
  intros Hvalid Hlisting. unfold add_job_state.
  apply valid_state_existsb in Hvalid. rewrite Hvalid.
  assert (Hlisted : listed j d = true).
  { apply listed_get_job_by_id. rewrite Hlisting. discriminate. }
  now rewrite Hlisted.
Qed.

Lemma add_job_state_unlisted (j : string) (u : Z) (st : string) (nts : option string)
    (now : Z) (d : db) :
  In st JobStates.VALID_STATES ->
  get_job_by_id j d = None ->
  add_job_state j u st nts now d = (Raise foreign_key_failed, d).
Proof.
  intros Hvalid Hnone. unfold add_job_state.
  apply valid_state_existsb in Hvalid. rewrite Hvalid.
  apply unlisted_get_job_by_id in Hnone. now rewrite Hnone.
Qed.

Section WithEngine.
Context `{SqlOrder}.

(** A state written with a clock reading later than the history of the
    pair is the current state afterwards. *)
Lemma current_after_append (j : string) (u : Z) (st : string) (nts : option string)
    (now : Z) (d : db) (listings : list job_listing) (analyses : list job_analysis)
    (n m : Z) :
  (forall s, In s (history j u d) -> (state_timestamp s < now)%Z) ->
  get_current_job_state j u
    (Db listings (job_states d ++ [new_state_row j u st nts now d]) analyses n m)
  = Some (new_state_row j u st nts now d).
Proof.
  intros Hlater. set (row := new_state_row j u st nts now d).
  pose proof (get_current_job_state_spec j u
                (Db listings (job_states d ++ [row]) analyses n m)) as Hspec.
  assert (Hrow : for_job_user j u row = true)
    by (apply for_job_user_spec; split; reflexivity).
  destruct (get_current_job_state j u _) as [row'|];
    cbn [job_states] in Hspec; rewrite filter_app_one, Hrow in Hspec.
  - destruct Hspec as [Hin Hmax].
    apply in_app_or in Hin as [Hin|[<-|[]]]; [|reflexivity].
    exfalso. specialize (Hlater row' Hin).
    assert (state_timestamp row <= state_timestamp row')%Z
      by (apply Hmax, in_or_app; right; now left).
    unfold row, new_state_row in *. cbn [state_timestamp] in *. lia.
  - now destruct (List.filter (for_job_user j u) (job_states d)).
Qed.

Section WithRuntime.
Context `{Runtime}.

(** X27.  [get_job_details] raises a ValueError and writes nothing for a
    job without a listing.  For a listed job whose analysis row can be
    read it returns the listing, the analysis, the history and the current
    state as they were before the call, and appends the state [viewed]
    exactly when that current state is [relevant] or [saved].  When the
    clock reading is later than the history, [viewed] is then the current
    state, which the returned details do not show, and a further call
    writes nothing. *)
Theorem get_job_details_marks_viewed (j : string) (u : Z) (now : Z) (d : db) :
  let r := get_job_details j u now d in
  (get_job_by_id j d = None ->
   r = (Raise (Exn ValueError ("Job not found: " +:+ j)), d))
  /\ (forall listing stored,
        get_job_by_id j d = Some listing ->
        DatabaseServiceListings.get_job_analysis j u d = Return stored ->
        fst r = Return (JobDetails listing stored (get_job_state_history j u d)
                          (get_current_job_state j u d))
        /\ (awaits_view j u d = false -> snd r = d)
        /\ (awaits_view j u d = true ->
            job_states (snd r)
            = job_states d ++ [new_state_row j u JobStates.STATE_VIEWED None now d]
            /\ job_listings (snd r) = job_listings d
            /\ job_analyses (snd r) = job_analyses d
            /\ ((forall s, In s (history j u d) -> (state_timestamp s < now)%Z) ->
                get_current_job_state j u (snd r)
                = Some (new_state_row j u JobStates.STATE_VIEWED None now d)
                /\ forall now', snd (get_job_details j u now' (snd r)) = snd r))).
Proof.
  intros r. subst r. split.
  - intros Hnone. unfold get_job_details. now rewrite Hnone.
  - intros listing stored Hlisting Hstored.
    assert (Hviewed : In JobStates.STATE_VIEWED JobStates.VALID_STATES)
      by (cbn; tauto).
    unfold get_job_details, awaits_view. rewrite Hlisting, Hstored. cbv zeta.
    destruct (get_current_job_state j u d) as [row|] eqn:Hcur.
    + destruct (existsb (String.eqb (state row)) _) eqn:Hview.
      * rewrite (add_job_state_valid j u _ None now d listing Hviewed Hlisting).
        cbn [fst snd job_states job_listings job_analyses].
        split; [reflexivity|]. split; [discriminate|]. intros _.
        do 3 (split; [reflexivity|]). intros Hlater.
        pose proof (current_after_append j u JobStates.STATE_VIEWED None now d
                      (job_listings d) (job_analyses d) (seq_job_states d + 1)
                      (seq_job_analysis d) Hlater) as Hnow.
        split; [exact Hnow|]. intros now'.
        unfold get_job_details. rewrite Hnow.
        unfold get_job_by_id in *. cbn [job_listings]. rewrite Hlisting.
        unfold DatabaseServiceListings.get_job_analysis,
          DatabaseService.get_job_analysis in *. cbn [job_analyses].
        rewrite Hstored. reflexivity.
      * cbn [fst snd]. split; [reflexivity|]. split; [reflexivity|discriminate].
    + cbn [fst snd]. split; [reflexivity|]. split; [reflexivity|discriminate].
Qed.

End WithRuntime.

(** X28.  [update_job_state] accepts only [saved], [applied] and
    [rejected]: any other state, valid for the database or not, raises a
    ValueError and writes nothing.  For these three and a listed job it
    appends one row with the notes, whether or not the job has a state for
    the user, and returns the status success with the current state read
    after the write, which is the new row when the clock reading is later
    than the history of the pair.  It does not check that the job is
    listed: for a job without a listing the IntegrityError of the foreign
    key comes out of it, and nothing is written. *)
Theorem update_job_state_transitions (j : string) (u : Z) (new_state : string)
    (nts : option string) (now : Z) (d : db) :
  let r := update_job_state j u new_state nts now d in
  let allowed := [JobStates.STATE_SAVED; JobStates.STATE_APPLIED;
                  JobStates.STATE_REJECTED] in
  (~ In new_state allowed ->
   r = (Raise (Exn ValueError ("Invalid state transition: " +:+ new_state)), d))
  /\ (In new_state allowed -> get_job_by_id j d = None ->
      r = (Raise (Exn IntegrityError "FOREIGN KEY constraint failed"), d))
  /\ (In new_state allowed -> get_job_by_id j d <> None ->
      fst r = Return (StateUpdate "success" j (get_current_job_state j u (snd r)))
      /\ job_states (snd r) = job_states d ++ [new_state_row j u new_state nts now d]
      /\ job_listings (snd r) = job_listings d
      /\ job_analyses (snd r) = job_analyses d
      /\ ((forall s, In s (history j u d) -> (state_timestamp s < now)%Z) ->
          get_current_job_state j u (snd r)
          = Some (new_state_row j u new_state nts now d))).
Proof.
  intros r allowed. subst r. unfold update_job_state.
  destruct (existsb (String.eqb new_state) _) eqn:Hallowed; cbn [negb]; cbv iota.
  - assert (Hin : In new_state allowed).
    { apply existsb_exists in Hallowed as (x & Hx & Heq).
      apply String.eqb_eq in Heq. now subst. }
    split; [tauto|].
    assert (Hvalid : In new_state JobStates.VALID_STATES).
    { destruct Hin as [<-|[<-|[<-|[]]]]; cbn; tauto. }
    destruct (get_job_by_id j d) as [listing|] eqn:Hlisting.
    + split; [discriminate|]. intros _ _.
      rewrite (add_job_state_valid j u new_state nts now d listing Hvalid Hlisting).
      cbn [fst snd job_states job_listings job_analyses].
      do 4 (split; [reflexivity|]). intros Hlater.
      now apply current_after_append.
    + split; [|intros _ Hsome; contradiction]. intros _ _.
      now rewrite (add_job_state_unlisted j u new_state nts now d Hvalid Hlisting).
  - split; [reflexivity|].
    assert (Hnot : ~ In new_state allowed).
    { intros Hin.
      assert (existsb (String.eqb new_state) allowed = true);
        [|unfold allowed in *; congruence].
      apply existsb_exists. exists new_state.
      split; [exact Hin|apply String.eqb_refl]. }
    split; intros Hin; contradiction.
Qed.

Lemma delete_job_user_rows (j : string) (u : Z) (d : db) :
  fst (DatabaseService.delete_job j (Some u) d) = true
  /\ job_states (snd (DatabaseService.delete_job j (Some u) d))
     = List.filter (fun s => negb (for_job_user j u s)) (job_states d)
  /\ job_analyses (snd (DatabaseService.delete_job j (Some u) d))
     = List.filter (fun a => negb (analysis_for_job_user j u a)) (job_analyses d).
Proof.
  unfold DatabaseService.delete_job.
  cbn [job_listings job_states job_analyses seq_job_states seq_job_analysis].
  match goal with |- context [if ?c then _ else _] => destruct c end;
    cbn [fst snd job_states job_analyses]; auto.
Qed.

Section WithRuntime.
Context `{Runtime}.

(** X29.  Deleting through the orchestrator: for a job without a listing
    the result is an error whose message says that the job was not found,
    and nothing is written; when the stored analysis of the job cannot be
    decoded, the result is an error with the decoder's message and nothing
    is deleted; otherwise the result is the success message, no state or
    analysis row of the (job, user) pair is left, the [viewed] row that
    reading the details may have added included, and the rows of every
    other pair are as before. *)
Theorem orchestrator_delete_job (j : string) (u : Z) (now : Z) (d : db) :
  let r := delete_job j u now d in
  (get_job_by_id j d = None -> r = (("error", "Job not found: " +:+ j), d))
  /\ (forall listing e,
        get_job_by_id j d = Some listing ->
        DatabaseServiceListings.get_job_analysis j u d = Raise e ->
        r = (("error", str_exn e), d))
  /\ (forall listing stored,
        get_job_by_id j d = Some listing ->
        DatabaseServiceListings.get_job_analysis j u d = Return stored ->
        fst r = ("success", "Job has been permanently deleted")
        /\ history j u (snd r) = []
        /\ List.filter (analysis_for_job_user j u) (job_analyses (snd r)) = []
        /\ (forall j' u', j' <> j \/ u' <> u ->
              history j' u' (snd r) = history j' u' d
              /\ List.filter (analysis_for_job_user j' u') (job_analyses (snd r))
                 = List.filter (analysis_for_job_user j' u') (job_analyses d))).
Proof.
  intros r. subst r. split; [|split].
  - intros Hnone. unfold delete_job, get_job_details. now rewrite Hnone.
  - intros listing e Hlisting Hraise. unfold delete_job, get_job_details.
    rewrite Hlisting, Hraise.
    assert (HV : is_ValueError e = true).
    { revert Hraise. unfold DatabaseServiceListings.get_job_analysis.
      destruct (DatabaseService.get_job_analysis j u d) as [row|]; [|discriminate].
      destruct (json_loads (analysis_details row)); [|discriminate].
      now intros [= <-]. }
    now rewrite HV.
  - intros listing stored Hlisting Hstored.
    assert (Hviewed : In JobStates.STATE_VIEWED JobStates.VALID_STATES)
      by (cbn; tauto).
    assert (Hdetails :
      exists details d1,
        get_job_details j u now d = (Return details, d1)
        /\ job_analyses d1 = job_analyses d
        /\ (job_states d1 = job_states d
            \/ job_states d1
               = job_states d ++ [new_state_row j u JobStates.STATE_VIEWED None now d])).
    { unfold get_job_details. rewrite Hlisting, Hstored. cbv zeta.
      destruct (get_current_job_state j u d) as [row|]; [|eauto 6].
      destruct (existsb _ _); [|eauto 6].
      rewrite (add_job_state_valid j u _ None now d listing Hviewed Hlisting).
      eexists _, _. split; [reflexivity|]. cbn [job_analyses job_states]. auto. }
    destruct Hdetails as (details & d1 & Hrun & Hanalyses & Hstates).
    unfold delete_job. rewrite Hrun.
    destruct (delete_job_user_rows j u d1) as (Hsuccess & Hs & Ha).
    destruct (DatabaseService.delete_job j (Some u) d1) as [success d2].
    cbn [fst snd] in *. subst success. cbn [fst snd].
    split; [reflexivity|]. unfold history. rewrite Hs, Ha, Hanalyses.
    split; [|split].
    + apply filter_disjoint. intros s Hsu. now rewrite Hsu.
    + apply filter_disjoint. intros a Hau. now rewrite Hau.
    + intros j' u' Hne.
      assert (Hne' : j <> j' \/ u <> u') by (destruct Hne; [left|right]; congruence).
      split.
      * rewrite filter_commute_neg.
        -- destruct Hstates as [->| ->]; [reflexivity|].
           rewrite filter_app_one.
           rewrite (for_job_user_other j j' u u' _ Hne); [apply app_nil_r|].
           apply for_job_user_spec; split; reflexivity.
        -- intros s Hsu. now rewrite (for_job_user_other j' j u' u s Hne' Hsu).
      * apply filter_commute_neg. intros a Hau.
        now rewrite (analysis_for_job_user_other j' j u' u a Hne' Hau).
Qed.

End WithRuntime.
End WithEngine.

(** User 7 deletes job 4021, which is relevant for them: the deletion
    succeeds. *)
Lemma orchestrator_delete_job_witness :
  fst (@delete_job merge_sort_engine empty_object_runtime "4021" 7 10 relevant_db)
  = ("success", "Job has been permanently deleted").
Proof.
  destruct (@orchestrator_delete_job merge_sort_engine empty_object_runtime
              "4021" 7 10 relevant_db) as (_ & _ & Hsuccess).
  exact (proj1 (Hsuccess _ None eq_refl eq_refl)).
Defined.

End Orchestrator.

(* ===================================================================== *)
(** * Properties of the scraper's data handler *)
Section ScraperHandler.
Import DatabaseService ScraperService.

Lemma job_data_complete (data : event_data) :
  DatabaseServiceListings.missing_fields (job_data_of data) = [].
Proof. reflexivity. Qed.

Lemma add_job_listing_fresh (set_order : list string -> list string)
    (data : event_data) (now rowid : Z) (d : db) :
  get_job_by_id (e_job_id data) d = None ->
  DatabaseServiceListings.add_job_listing set_order (job_data_of data) now rowid d
  = (Return rowid,
     Db (job_listings d
           ++ [JobListing rowid (e_job_id data) (e_title data) (e_company data)
                 (e_location data) (e_description data) (e_link data) now
                 (e_query data)])
        (job_states d) (job_analyses d) (seq_job_states d) (seq_job_analysis d)).
Proof.
  intros Hfresh. unfold DatabaseServiceListings.add_job_listing.
  rewrite job_data_complete. cbv zeta beta.
  change (job_data_of data !! "job_id") with (Some (e_job_id data)).
  cbn [from_option id]. rewrite Hfresh. reflexivity.
Qed.

Section WithEngine.
Context `{SqlOrder}.

Lemma ret_keeps {A : Type} (a : A) : keeps_session (ret a).
Proof. intros s. cbn [ret snd]. auto. Qed.

Lemma read_keeps {A : Type} (query : db -> A) : keeps_session (read query).
Proof. intros s. cbn [read snd]. auto. Qed.

Lemma write_keeps {A : Type} (clock : nat -> Z) (op : Z -> db -> outcome A * db) :
  keeps_session (write clock op).
Proof.
  intros s. unfold write.
  destruct (op (clock (clock_reads s)) (store s)) as [r d'].
  cbn [snd current_user_id allowed_job_ids current_jobs]. auto.
Qed.

Lemma bind_keeps {A B : Type} (m : M session A) (k : A -> M session B) :
  keeps_session m -> (forall a, keeps_session (k a)) -> keeps_session (bind m k).
Proof.
  intros Hm Hk s. unfold bind.
  destruct (Hm s) as (Hu & Ha & Hj).
  destruct (m s) as [[a|e] s1]; cbn [snd] in *.
  - destruct (Hk a s1) as (Hu' & Ha' & Hj').
    rewrite Hu', Ha', Hj'. auto.
  - auto.
Qed.

Create HintDb session.
#[local] Hint Resolve ret_keeps read_keeps write_keeps : session.

(** Processing a posting touches the store and the clock only. *)
Lemma process_job_session (clock : nat -> Z) (set_order : list string -> list string)
    (rowid : Z) (data : event_data) (u : Z) :
  keeps_session (process_job clock set_order rowid data u).
Proof.
  assert (Henqueue : forall j, keeps_session (enqueue_new clock j u)).
  { intros j. unfold enqueue_new.
    repeat (apply bind_keeps; [auto with session|intros ?]). auto with session. }
  unfold process_job.
  apply bind_keeps; [auto with session|]. intros [listing|].
  - apply bind_keeps; [auto with session|]. intros [row|]; [|apply Henqueue].
    destruct (negb _); [|auto with session].
    apply bind_keeps; auto with session.
  - apply bind_keeps; [auto with session|]. intros _. apply Henqueue.
Qed.

(** X30.  The handler of a scraped posting ignores it, changing nothing,
    when no user is set, when a non-empty list of allowed ids does not
    hold its id, or when its id was already seen in this run; so handling
    the same posting again right away changes nothing.  Otherwise the id
    is recorded as seen and: a posting that is not listed yet is listed
    and gets the states [new_scraped] and [queued_for_analysis], in this
    order; a listed posting without a state for the user gets the same
    two states; one whose current state for the user is a post-analysis
    state is left alone; and one in any other state, [queued_for_analysis]
    included, gets one more [queued_for_analysis] row. *)
Theorem handle_data_deduplicates (clock : nat -> Z)
    (set_order : list string -> list string) (rowid : Z) (data : event_data)
    (s : session) :
  let j := e_job_id data in
  let s' := _handle_data clock set_order rowid data s in
  let n := clock_reads s in
  (truthy_opt_int (current_user_id s) = false
   \/ not_allowed (allowed_job_ids s) j = true \/ j ∈ current_jobs s ->
   s' = s)
  /\ (forall clock' set_order' rowid', _handle_data clock' set_order' rowid' data s' = s')
  /\ (forall u,
        current_user_id s = Some u -> u <> 0%Z ->
        not_allowed (allowed_job_ids s) j = false -> j ∉ current_jobs s ->
        current_jobs s' = {[j]} ∪ current_jobs s
        /\ job_analyses (store s') = job_analyses (store s)
        /\ match get_job_by_id j (store s) with
           | None =>
               get_job_by_id j (store s')
               = Some (JobListing rowid j (e_title data) (e_company data)
                         (e_location data) (e_description data) (e_link data)
                         (clock n) (e_query data))
               /\ job_states (store s')
                  = job_states (store s)
                      ++ [ JobState (seq_job_states (store s) + 1) j u
                             JobStates.STATE_NEW_SCRAPED (clock (S n)) None;
                           JobState (seq_job_states (store s) + 1 + 1) j u
                             JobStates.STATE_QUEUED_FOR_ANALYSIS (clock (S (S n))) None ]
           | Some _ =>
               job_listings (store s') = job_listings (store s)
               /\ match get_current_job_state j u (store s) with
                  | None =>
                      job_states (store s')
                      = job_states (store s)
                          ++ [ JobState (seq_job_states (store s) + 1) j u
                                 JobStates.STATE_NEW_SCRAPED (clock n) None;
                               JobState (seq_job_states (store s) + 1 + 1) j u
                                 JobStates.STATE_QUEUED_FOR_ANALYSIS (clock (S n)) None ]
                  | Some row =>
                      if existsb (String.eqb (state row)) POST_ANALYSIS_STATES
                      then store s' = store s
                      else job_states (store s')
                           = job_states (store s)
                               ++ [ JobState (seq_job_states (store s) + 1) j u
                                      JobStates.STATE_QUEUED_FOR_ANALYSIS (clock n)
                                      None ]
                  end
           end).
Proof.
  intros j s' n.
  assert (Hnew : In JobStates.STATE_NEW_SCRAPED JobStates.VALID_STATES)
    by (cbn; tauto).
  assert (Hqueued : In JobStates.STATE_QUEUED_FOR_ANALYSIS JobStates.VALID_STATES)
    by (cbn; tauto).
  split; [|split].
  - subst s'. unfold _handle_data. fold j. intros Hskip.
    destruct (current_user_id s) as [u|]; [|reflexivity].
    destruct (u =? 0)%Z eqn:Hu; [reflexivity|].
    destruct (not_allowed (allowed_job_ids s) j); [reflexivity|].
    destruct (bool_decide (j ∈ current_jobs s)) eqn:Hseen; [reflexivity|].
    apply bool_decide_eq_false in Hseen.
    destruct Hskip as [Huser|[Hno|Hin]]; [|discriminate|contradiction].
    cbn [truthy_opt_int] in Huser. rewrite Hu in Huser. discriminate.
  - intros clock' set_order' rowid'. subst s'. unfold _handle_data. fold j.
    destruct (current_user_id s) as [u|] eqn:Huser; [|now rewrite Huser].
    destruct (u =? 0)%Z eqn:Hu; [now rewrite Huser, Hu|].
    destruct (not_allowed (allowed_job_ids s) j) eqn:Hallowed;
      [now rewrite Huser, Hu, Hallowed|].
    destruct (bool_decide (j ∈ current_jobs s)) eqn:Hseen;
      [now rewrite Huser, Hu, Hallowed, Hseen|].
    match goal with
    | |- context [process_job clock set_order rowid data u ?s1] =>
        destruct (process_job_session clock set_order rowid data u s1)
          as (Hu' & Ha' & Hj')
    end.
    cbn [current_user_id allowed_job_ids current_jobs] in Hu', Ha', Hj'.
    rewrite Hu'. cbv iota. rewrite Hu, Ha', Hallowed, Hj'.
    rewrite bool_decide_eq_true_2; [reflexivity|].
    apply elem_of_union_l, elem_of_singleton. reflexivity.
  - intros u Huser Hu Hallowed Hseen. subst s'. unfold _handle_data. fold j.
    rewrite Huser, Hallowed.
    destruct (Z.eqb_spec u 0) as [|_]; [contradiction|].
    rewrite bool_decide_eq_false_2 by exact Hseen.
    match goal with
    | |- context [process_job clock set_order rowid data u ?s1] =>
        destruct (process_job_session clock set_order rowid data u s1)
          as (_ & _ & Hj');
        remember (snd (process_job clock set_order rowid data u s1)) as s' eqn:Hs'
    end.
    cbn [current_jobs] in Hj'. split; [exact Hj'|]. clear Hj'.
    unfold process_job, enqueue_new, bind, read, write, ret in Hs'.
    cbn [store clock_reads] in Hs'. fold j in Hs'.
    destruct (get_job_by_id j (store s)) as [listing|] eqn:Hlisting;
      cbv beta iota in Hs'; cbn [store clock_reads] in Hs'.
    + destruct (get_current_job_state j u (store s)) as [row|];
        cbv beta iota in Hs'; cbn [store clock_reads] in Hs'.
      * destruct (existsb (String.eqb (state row)) POST_ANALYSIS_STATES);
          cbn [negb] in Hs'; cbv beta iota in Hs'; cbn [store clock_reads] in Hs'.
        -- subst s'. cbn [snd store]. auto.
        -- rewrite (add_job_state_valid j u _ None _ (store s) listing Hqueued Hlisting)
             in Hs'.
           subst s'. cbn [snd store job_analyses job_listings job_states]. auto.
      * rewrite (add_job_state_valid j u _ None _ (store s) listing Hnew Hlisting) in Hs'.
        cbv beta iota in Hs'; cbn [store clock_reads] in Hs'.
        assert (Hkept : forall states analyses n1 n2,
                   get_job_by_id j (Db (job_listings (store s)) states analyses n1 n2)
                   = Some listing) by (intros; exact Hlisting).
        rewrite (add_job_state_valid j u _ None _ _ listing Hqueued (Hkept _ _ _ _))
          in Hs'.
        subst s'.
        cbn [snd store job_analyses job_listings job_states seq_job_states].
        rewrite <- app_assoc. auto.
    + rewrite (add_job_listing_fresh set_order data _ rowid (store s) Hlisting) in Hs'.
      cbv beta iota in Hs'; cbn [store clock_reads] in Hs'.
      set (listing := JobListing rowid (e_job_id data) (e_title data) (e_company data)
                        (e_location data) (e_description data) (e_link data)
                        (clock (clock_reads s)) (e_query data)) in *.
      assert (Hadded : forall states analyses n1 n2,
                 get_job_by_id j (Db (job_listings (store s) ++ [listing])
                                    states analyses n1 n2)
                 = Some listing).
      { intros states analyses n1 n2.
        unfold get_job_by_id in *. cbn [job_listings].
        rewrite filter_app_one. unfold listing at 1. cbn [job_id]. fold j.
        rewrite String.eqb_refl.
        unfold fetchone in *.
        now destruct (List.filter (fun l => String.eqb (job_id l) j)
                        (job_listings (store s))). }
      rewrite (add_job_state_valid j u _ None _ _ listing Hnew (Hadded _ _ _ _)) in Hs'.
      cbv beta iota in Hs'; cbn [store clock_reads] in Hs'.
      rewrite (add_job_state_valid j u _ None _ _ listing Hqueued (Hadded _ _ _ _))
        in Hs'.
      subst s'.
      cbn [snd store job_analyses job_listings job_states seq_job_states].
      split; [reflexivity|]. split.
      * apply Hadded.
      * rewrite <- app_assoc. reflexivity.
Qed.

End WithEngine.
End ScraperHandler.

(* ===================================================================== *)
(** * The constraints of the schema on a concrete store

    On [relevant_db] the job 4021 is listed and the job 9999 is not. *)
Section ConstraintExamples.
Import DatabaseService OrchestratorService.

Lemma relevant_db_history (now : Z) :
  (3 < now)%Z ->
  forall s, In s (history "4021" 7 relevant_db) -> (state_timestamp s < now)%Z.
Proof.
  intros Hnow s Hin. cbn in Hin.
  destruct Hin as [<-|[<-|[<-|[]]]]; cbn [state_timestamp]; lia.
Qed.

(** A state for the unlisted job is refused and nothing is written; the
    state [saved] for the listed job gets the id 4 and is the current
    state afterwards. *)
Lemma add_job_state_round_trip_witness :
  add_job_state "9999" 7 "saved" None 10 relevant_db
  = (Raise (Exn IntegrityError "FOREIGN KEY constraint failed"), relevant_db)
  /\ fst (add_job_state "4021" 7 "saved" None 10 relevant_db) = Return 4%Z
  /\ @get_current_job_state merge_sort_engine "4021" 7
       (snd (add_job_state "4021" 7 "saved" None 10 relevant_db))
     = Some (JobState 4 "4021" 7 "saved" 10 None).
Proof.
  pose proof (@add_job_state_round_trip merge_sort_engine "9999" 7 "saved" None 10
                relevant_db) as Hunlisted.
  pose proof (@add_job_state_round_trip merge_sort_engine "4021" 7 "saved" None 10
                relevant_db) as Hlisted.
  cbv zeta in Hunlisted, Hlisted.
  destruct Hunlisted as (_ & Hunlisted & _). destruct Hlisted as (_ & _ & Hlisted).
  split; [apply Hunlisted; [simpl; tauto|reflexivity]|].
  destruct Hlisted as (Hid & _ & _ & _ & Hcurrent & _);
    [simpl; tauto|discriminate|].
  split; [exact Hid|].
  apply Hcurrent, relevant_db_history. lia.
Defined.

(** A NaN score and an analysis of the unlisted job are refused; the
    analysis of the listed job is stored and read back. *)
Lemma add_job_analysis_upsert_witness :
  @add_job_analysis empty_object_runtime "4021" 7 nan (PDict ∅) 10 relevant_db
  = (Raise (Exn IntegrityError
              "NOT NULL constraint failed: job_analysis.relevance_score"),
     relevant_db)
  /\ @add_job_analysis empty_object_runtime "9999" 7 0.8 (PDict ∅) 10 relevant_db
     = (Raise (Exn IntegrityError "FOREIGN KEY constraint failed"), relevant_db)
  /\ @DatabaseServiceListings.get_job_analysis empty_object_runtime "4021" 7
       (snd (@add_job_analysis empty_object_runtime "4021" 7 0.8 (PDict ∅) 10
               relevant_db))
     = Return (Some (JobAnalysis 1 "4021" 7 0.8 "{}" 10, PDict ∅)).
Proof.
  pose proof (@add_job_analysis_upsert empty_object_runtime "4021" 7 nan (PDict ∅) 10
                relevant_db) as Hnan.
  pose proof (@add_job_analysis_upsert empty_object_runtime "9999" 7 0.8 (PDict ∅) 10
                relevant_db) as Hunlisted.
  pose proof (@add_job_analysis_upsert empty_object_runtime "4021" 7 0.8 (PDict ∅) 10
                relevant_db) as Hlisted.
  cbv zeta in Hnan, Hunlisted, Hlisted.
  destruct Hnan as (Hnan & _). destruct Hunlisted as (_ & Hunlisted & _).
  destruct Hlisted as (_ & _ & Hlisted).
  split; [apply Hnan; reflexivity|].
  split; [apply Hunlisted; reflexivity|].
  destruct Hlisted as (_ & _ & Hread & _); [reflexivity|discriminate|].
  apply Hread. reflexivity.
Defined.

(** Saving the unlisted job fails on the foreign key; saving the listed
    job reports the new row as its state. *)
Lemma update_job_state_transitions_witness :
  @update_job_state merge_sort_engine "9999" 7 "saved" None 10 relevant_db
  = (Raise (Exn IntegrityError "FOREIGN KEY constraint failed"), relevant_db)
  /\ fst (@update_job_state merge_sort_engine "4021" 7 "saved" (Some "good fit") 10
            relevant_db)
     = Return (StateUpdate "success" "4021"
                 (Some (JobState 4 "4021" 7 "saved" 10 (Some "good fit")))).
Proof.
  pose proof (@update_job_state_transitions merge_sort_engine "9999" 7 "saved" None 10
                relevant_db) as Hunlisted.
  pose proof (@update_job_state_transitions merge_sort_engine "4021" 7 "saved"
                (Some "good fit") 10 relevant_db) as Hlisted.
  cbv zeta in Hunlisted, Hlisted.
  destruct Hunlisted as (_ & Hunlisted & _). destruct Hlisted as (_ & _ & Hlisted).
  split; [apply Hunlisted; [simpl; tauto|reflexivity]|].
  destruct Hlisted as (Hstatus & _ & _ & _ & Hcurrent);
    [simpl; tauto|discriminate|].
  rewrite Hstatus, Hcurrent; [reflexivity|].
  apply relevant_db_history. lia.
Defined.

End ConstraintExamples.
